(** * Legado rule interpreter of the Reader e-book application

    A shallow embedding of the rule-chain splitters, the CSS-to-XPath
    compiler, the step-execution pipeline, the template expanders and the
    MD5 bridge functions, followed by the properties proved about them.

    Conventions.  A [std::string] is a [string] (a sequence of 8-bit
    characters).  A position ([size_t] holding an index into a string) is a
    [nat]; the result of [std::string::find] is an [option nat], [None]
    standing for [npos].  Where the source subtracts positions the 64-bit
    wrap-around of [size_t] is written out ([size_t_sub]).  The two external
    engines (the QuickJS virtual machine and the libxml2-based
    [HtmlParser]) are not part of the sources: they are the interfaces
    [JsVm] and [XPathEngine], of which every function below is generic. *)

From Stdlib Require Import String Ascii List ZArith NArith Arith Bool Lia.
Import ListNotations.
Local Open Scope string_scope.

(* ===================================================================== *)
(** * [std::string] operations used by the sources *)
(* ===================================================================== *)

Module StdString.

(** [s.find(p)]: position of the first occurrence of [p] in [s]. *)
Definition find (s p : string) : option nat := index 0 p s.

(** [s.find(p, pos)]. *)
Definition find_from (s p : string) (pos : nat) : option nat := index pos p s.

(** The idiom [s.find(p) == 0]. *)
Definition find_is_0 (s p : string) : bool :=
  match find s p with
  | Some 0 => true
  | _ => false
  end.

(** [a - b] on [size_t] (unsigned, 64 bits): the difference, wrapped
    around [2^64] when [a < b]. *)
Definition size_t_sub (a b : N) : N :=
  if (b <=? a)%N then (a - b)%N else (a + 2 ^ 64 - b)%N.

(** [s.substr(pos, n)]: the characters [pos, pos + min(n, size - pos)).
    The C++ function throws [std::out_of_range] when [pos > size], where
    the model returns the empty string.  The call sites below take [pos]
    from a successful [find] or behind a length test, which keeps them in
    range ([find_in_range], [find_from_in_range], [find_is_0_in_range]). *)
Definition substr (s : string) (pos : nat) (n : N) : string :=
  substring pos (N.to_nat (N.min n (N.of_nat (String.length s - pos)))) s.

(** [s.substr(pos)]: everything from [pos] on. *)
Definition substr_from (s : string) (pos : nat) : string :=
  substring pos (String.length s - pos) s.

(** [s.empty()]. *)
Definition empty (s : string) : bool :=
  match s with
  | EmptyString => true
  | String _ _ => false
  end.

(** Occurrences, stated without reference to the search function. *)
Definition occurs_at (p s : string) (i : nat) : Prop :=
  substring i (String.length p) s = p.

Definition first_at (p s : string) (i : nat) : Prop :=
  occurs_at p s i /\ forall j, j < i -> ~ occurs_at p s j.

Definition occurs (p s : string) : Prop := exists i, occurs_at p s i.

Definition absent (p s : string) : Prop := forall i, ~ occurs_at p s i.

(** The idiom [s.find(p) != npos], and [strstr(s, p) != NULL] on C
    strings. *)
Definition contains (s p : string) : bool :=
  match find s p with
  | Some _ => true
  | None => false
  end.

(** [s.replace(pos, n, r)] for [pos + n] within [s]. *)
Definition replace (s : string) (pos n : nat) (r : string) : string :=
  substring 0 pos s ++ r ++ substr_from s (pos + n).

End StdString.

Import StdString.

(** [std::map<std::string, std::string>], seen through [operator[]] and
    [find]: an association list that holds a key at most once. *)
Module StdMap.

Definition t : Type := list (string * string).


(** [m[key] = value]. *)
Fixpoint assign (m : t) (key value : string) : t :=
  match m with
  | [] => [(key, value)]
  | (k, v) :: rest =>
      if (k =? key)%string then (k, value) :: rest else (k, v) :: assign rest key value
  end.

End StdMap.

(* ===================================================================== *)
(** * The external engines *)
(* ===================================================================== *)

(** What a wrapper observes of [JS_Eval]: either a value, seen through
    [jsValueToString] ([None] when the value is [undefined] or [null], or
    when [JS_ToCString] returns a null pointer), or a pending exception,
    seen through [JS_ToCString] ([None] when that returns null). *)
Inductive JSOutcome : Type :=
| JSReturn (str : option string)
| JSThrow (str : option string).

(** The QuickJS virtual machine: a context with a persistent global scope. *)
Class JsVm : Type := {
  JSContext : Type;
  JS_Eval : JSContext -> string -> JSContext * JSOutcome;
  (* JS_SetPropertyStr(ctx, global, name, JS_NewString(ctx, value)) *)
  JS_SetGlobalStr : JSContext -> string -> string -> JSContext
}.

(** The [BOOL* stop] argument: [None] is the null pointer; otherwise the
    flag may be written by another thread, and [f i] is the value the
    [i]-th read of the post-processing loop sees. *)
Definition StopFlag : Type := option (nat -> bool).

(** [HtmlParser::HtmlParseByXpath(html, len, xpath, value, stop)]: the
    status and the output vector, given the vector passed in. *)
Class XPathEngine : Type := {
  HtmlParseByXpath : string -> string -> list string -> StopFlag -> Z * list string
}.

(* ===================================================================== *)
(** * QuickJsEngine.cpp *)
(* ===================================================================== *)

Module QuickJsEngine.

Section Engine.
Context {vm : JsVm}.

Record t : Type := mk {
  m_context : option JSContext;
  m_lastError : string;
  m_hasError : bool
}.

Definition clearError (e : t) : t := mk (m_context e) "" false.

Definition setError (error : string) (e : t) : t := mk (m_context e) error true.

Definition hasError (e : t) : bool := m_hasError e.

Definition getLastError (e : t) : string := m_lastError e.

Definition str_or_empty (o : option string) : string :=
  match o with
  | Some s => s
  | None => ""
  end.

(** [QuickJsEngine::eval(code)]. *)
Definition eval (code : string) (e : t) : string * t :=
  let e := clearError e in
  match m_context e with
  | None => ("", setError "JS context not initialized" e)
  | Some ctx =>
      let (ctx', result) := JS_Eval ctx code in
      let e := mk (Some ctx') (m_lastError e) (m_hasError e) in
      match result with
      | JSThrow (Some str) => ("", setError ("JS Error: " ++ str) e)
      | JSThrow None => ("", setError "Unknown JS error" e)
      | JSReturn v => (str_or_empty v, e)
      end
  end.

(** The escaping switch of [setResult].  A string of this file has no
    escape sequences: the second branch below yields two backslashes, the
    fourth a backslash followed by the letter n. *)
Definition escape_char (c : ascii) : string :=
  if Ascii.eqb c "\" then "\\"
  else if Ascii.eqb c "034" then String "\" (String "034" "")
  else if Ascii.eqb c "010" then "\n"
  else if Ascii.eqb c "013" then "\r"
  else if Ascii.eqb c "009" then "\t"
  else String c "".

Fixpoint escape (value : string) : string :=
  match value with
  | EmptyString => ""
  | String c rest => escape_char c ++ escape rest
  end.

(** [QuickJsEngine::setResult(value)]. *)
Definition setResult (value : string) (e : t) : t :=
  snd (eval ("var result = " ++ String "034" (escape value) ++ String "034" ";") e).

(** [QuickJsEngine::processTemplate(templateStr)].  The [while] loop is
    unrolled [fuel] times; [processTemplate] gives it more fuel than it can
    use (every iteration but the last moves [pos] forward). *)
Fixpoint processTemplate_loop (fuel : nat) (templateStr : string) (pos : nat)
    (result : string) (e : t) : string * t :=
  match fuel with
  | O => (result, e)
  | S fuel' =>
      if (pos <? String.length templateStr)%nat then
        match find_from templateStr "{{" pos with
        | None => (result ++ substr_from templateStr pos, e)
        | Some start =>
            let result :=
              result ++ substr templateStr pos (size_t_sub (N.of_nat start) (N.of_nat pos)) in
            match find_from templateStr "}}" start with
            | None => (result ++ substr_from templateStr start, e)
            | Some end_ =>
                let expr :=
                  substr templateStr (start + 2)
                    (size_t_sub (size_t_sub (N.of_nat end_) (N.of_nat start)) 2) in
                let (value, e) := eval expr e in
                processTemplate_loop fuel' templateStr (end_ + 2) (result ++ value) e
            end
        end
      else (result, e)
  end.

Definition processTemplate (templateStr : string) (e : t) : string * t :=
  processTemplate_loop (S (String.length templateStr)) templateStr 0 "" e.

End Engine.

(** ** Rules and variables *)

(** [QuickJsEngine::containsJs(rule)]. *)
Definition containsJs (rule : string) : bool :=
  contains rule "@js:" || contains rule "<js>" || contains rule "{{".

Section Rules.
Context {vm : JsVm}.

(** [QuickJsEngine::processRule(rule, result)].  In the [<js>] branch
    [code] stays empty when the closing tag is missing, and the length
    [end - start] wraps around when the closing tag comes first. *)
Definition processRule (rule result : string) (e : t) : string * t :=
  if empty rule then (result, e)
  else
    let e := if negb (empty result) then setResult result e else e in
    if (substr rule 0 4 =? "@js:")%string then eval (substr_from rule 4) e
    else
      match find rule "<js>" with
      | Some jsPos =>
          let start := jsPos + 4 in
          let code :=
            match find rule "</js>" with
            | Some end_ => substr rule start (size_t_sub (N.of_nat end_) (N.of_nat start))
            | None => ""
            end in
          eval code e
      | None =>
          if contains rule "{{" then processTemplate rule e
          else (rule, e)
      end.

(** The engine together with its variable store [m_variables], which
    [eval] does not touch. *)
Definition store : Type := (t * StdMap.t)%type.

(** [QuickJsEngine::setVariable(name, value)]: the value is pasted between
    quotes as it is. *)
Definition setVariable (name value : string) (st : store) : store :=
  let (e, m_variables) := st in
  let m_variables := StdMap.assign m_variables name value in
  let code := "var " ++ name ++ " = " ++ String "034" value ++ String "034" ";" in
  (snd (eval code e), m_variables).


(** [QuickJsEngine::setBaseUrl(url)]. *)
Definition setBaseUrl (url : string) (st : store) : store := setVariable "baseUrl" url st.


End Rules.

(** ** The MD5 of QuickJsEngine.cpp *)

Local Open Scope Z_scope.

Definition u32 (x : Z) : Z := x mod 2 ^ 32.

Definition F (x y z : Z) : Z := Z.lor (Z.land x y) (Z.land (u32 (Z.lnot x)) z).
Definition G (x y z : Z) : Z := Z.lor (Z.land x z) (Z.land y (u32 (Z.lnot z))).
Definition H (x y z : Z) : Z := Z.lxor (Z.lxor x y) z.
Definition I (x y z : Z) : Z := Z.lxor y (Z.lor x (u32 (Z.lnot z))).

Definition ROTATE_LEFT (x n : Z) : Z :=
  Z.lor (u32 (Z.shiftl x n)) (Z.shiftr x (32 - n)).

Definition FF (a b c d x s ac : Z) : Z :=
  let a := u32 (a + u32 (u32 (F b c d + x) + ac)) in
  let a := ROTATE_LEFT a s in
  u32 (a + b).

Definition GG (a b c d x s ac : Z) : Z :=
  let a := u32 (a + u32 (u32 (G b c d + x) + ac)) in
  let a := ROTATE_LEFT a s in
  u32 (a + b).

Definition HH (a b c d x s ac : Z) : Z :=
  let a := u32 (a + u32 (u32 (H b c d + x) + ac)) in
  let a := ROTATE_LEFT a s in
  u32 (a + b).

Definition II (a b c d x s ac : Z) : Z :=
  let a := u32 (a + u32 (u32 (I b c d + x) + ac)) in
  let a := ROTATE_LEFT a s in
  u32 (a + b).

(** [uint32_t state[4]]. *)
Definition State : Type := (Z * Z * Z * Z)%type.

(** [block[i]] of a [uint8_t] array held as a list. *)
Definition byte_at (block : list Z) (i : nat) : Z := nth i block 0.

(** [md5_transform(state, block)]. *)
Definition md5_transform (state : State) (block : list Z) : State :=
  let '(s0, s1, s2, s3) := state in
  let a := s0 in let b := s1 in let c := s2 in let d := s3 in
  let x (i : nat) : Z :=
    u32 (Z.lor (Z.lor (Z.lor (byte_at block (i * 4)%nat)
                             (Z.shiftl (byte_at block (i * 4 + 1)%nat) 8))
                      (Z.shiftl (byte_at block (i * 4 + 2)%nat) 16))
               (Z.shiftl (byte_at block (i * 4 + 3)%nat) 24)) in
  (* Round 1 *)
  let a := FF a b c d (x 0%nat) 7 0xd76aa478 in let d := FF d a b c (x 1%nat) 12 0xe8c7b756 in
  let c := FF c d a b (x 2%nat) 17 0x242070db in let b := FF b c d a (x 3%nat) 22 0xc1bdceee in
  let a := FF a b c d (x 4%nat) 7 0xf57c0faf in let d := FF d a b c (x 5%nat) 12 0x4787c62a in
  let c := FF c d a b (x 6%nat) 17 0xa8304613 in let b := FF b c d a (x 7%nat) 22 0xfd469501 in
  let a := FF a b c d (x 8%nat) 7 0x698098d8 in let d := FF d a b c (x 9%nat) 12 0x8b44f7af in
  let c := FF c d a b (x 10%nat) 17 0xffff5bb1 in let b := FF b c d a (x 11%nat) 22 0x895cd7be in
  let a := FF a b c d (x 12%nat) 7 0x6b901122 in let d := FF d a b c (x 13%nat) 12 0xfd987193 in
  let c := FF c d a b (x 14%nat) 17 0xa679438e in let b := FF b c d a (x 15%nat) 22 0x49b40821 in
  (* Round 2 *)
  let a := GG a b c d (x 1%nat) 5 0xf61e2562 in let d := GG d a b c (x 6%nat) 9 0xc040b340 in
  let c := GG c d a b (x 11%nat) 14 0x265e5a51 in let b := GG b c d a (x 0%nat) 20 0xe9b6c7aa in
  let a := GG a b c d (x 5%nat) 5 0xd62f105d in let d := GG d a b c (x 10%nat) 9 0x02441453 in
  let c := GG c d a b (x 15%nat) 14 0xd8a1e681 in let b := GG b c d a (x 4%nat) 20 0xe7d3fbc8 in
  let a := GG a b c d (x 9%nat) 5 0x21e1cde6 in let d := GG d a b c (x 14%nat) 9 0xc33707d6 in
  let c := GG c d a b (x 3%nat) 14 0xf4d50d87 in let b := GG b c d a (x 8%nat) 20 0x455a14ed in
  let a := GG a b c d (x 13%nat) 5 0xa9e3e905 in let d := GG d a b c (x 2%nat) 9 0xfcefa3f8 in
  let c := GG c d a b (x 7%nat) 14 0x676f02d9 in let b := GG b c d a (x 12%nat) 20 0x8d2a4c8a in
  (* Round 3 *)
  let a := HH a b c d (x 5%nat) 4 0xfffa3942 in let d := HH d a b c (x 8%nat) 11 0x8771f681 in
  let c := HH c d a b (x 11%nat) 16 0x6d9d6122 in let b := HH b c d a (x 14%nat) 23 0xfde5380c in
  let a := HH a b c d (x 1%nat) 4 0xa4beea44 in let d := HH d a b c (x 4%nat) 11 0x4bdecfa9 in
  let c := HH c d a b (x 7%nat) 16 0xf6bb4b60 in let b := HH b c d a (x 10%nat) 23 0xbebfbc70 in
  let a := HH a b c d (x 13%nat) 4 0x289b7ec6 in let d := HH d a b c (x 0%nat) 11 0xeaa127fa in
  let c := HH c d a b (x 3%nat) 16 0xd4ef3085 in let b := HH b c d a (x 6%nat) 23 0x04881d05 in
  let a := HH a b c d (x 9%nat) 4 0xd9d4d039 in let d := HH d a b c (x 12%nat) 11 0xe6db99e5 in
  let c := HH c d a b (x 15%nat) 16 0x1fa27cf8 in let b := HH b c d a (x 2%nat) 23 0xc4ac5665 in
  (* Round 4 *)
  let a := II a b c d (x 0%nat) 6 0xf4292244 in let d := II d a b c (x 7%nat) 10 0x432aff97 in
  let c := II c d a b (x 14%nat) 15 0xab9423a7 in let b := II b c d a (x 5%nat) 21 0xfc93a039 in
  let a := II a b c d (x 12%nat) 6 0x655b59c3 in let d := II d a b c (x 3%nat) 10 0x8f0ccc92 in
  let c := II c d a b (x 10%nat) 15 0xffeff47d in let b := II b c d a (x 1%nat) 21 0x85845dd1 in
  let a := II a b c d (x 8%nat) 6 0x6fa87e4f in let d := II d a b c (x 15%nat) 10 0xfe2ce6e0 in
  let c := II c d a b (x 6%nat) 15 0xa3014314 in let b := II b c d a (x 13%nat) 21 0x4e0811a1 in
  let a := II a b c d (x 4%nat) 6 0xf7537e82 in let d := II d a b c (x 11%nat) 10 0xbd3af235 in
  let c := II c d a b (x 2%nat) 15 0x2ad7d2bb in let b := II b c d a (x 9%nat) 21 0xeb86d391 in
  (u32 (s0 + a), u32 (s1 + b), u32 (s2 + c), u32 (s3 + d)).

(** The loop [for (i = 0; i + 64 <= len; i += 64) md5_transform(state, data + i)],
    which runs [len / 64] times. *)
Fixpoint full_blocks (n : nat) (state : State) (data : list Z) : State :=
  match n with
  | O => state
  | S n' => full_blocks n' (md5_transform state (firstn 64 data)) (skipn 64 data)
  end.

Definition zeros (n : nat) : list Z := repeat 0 n.

(** The two lowercase hexadecimal digits of a byte
    ([std::hex << std::setfill('0') << std::setw(2)]). *)
Definition hex_digit (v : Z) : ascii :=
  if v <? 10 then ascii_of_nat (48 + Z.to_nat v) else ascii_of_nat (87 + Z.to_nat v).

Definition hex2 (v : Z) : string :=
  String (hex_digit (v / 16)) (String (hex_digit (v mod 16)) "").

Definition bytes_of_string (s : string) : list Z :=
  map (fun c => Z.of_nat (nat_of_ascii c)) (list_ascii_of_string s).

(** The final state of [md5_encode]: full blocks, then the padded tail. *)
Definition md5_state (input : string) : State :=
  let state : State := (0x67452301, 0xefcdab89, 0x98badcfe, 0x10325476) in
  let data := bytes_of_string input in
  let len := List.length data in
  let nblocks := (len / 64)%nat in
  let state := full_blocks nblocks state data in
  let i := (nblocks * 64)%nat in
  let count := Z.of_nat nblocks * 512 in
  (* the remaining data *)
  let index := (len - i)%nat in
  let buffer := skipn i data in
  let count := (count + Z.of_nat index * 8) mod 2 ^ 64 in
  (* padding *)
  let buffer := (buffer ++ [0x80])%list in
  let index := S index in
  let '(state, buffer, index) :=
    if (56 <? index)%nat
    then (md5_transform state (buffer ++ zeros (64 - index))%list, [], O)
    else (state, buffer, index) in
  let buffer := (buffer ++ zeros (56 - index))%list in
  (* the length *)
  let buffer :=
    (buffer ++ map (fun j => Z.land (Z.shiftr count (Z.of_nat j * 8)) 0xff) (seq 0 8))%list in
  md5_transform state buffer.

(** The output loop of [md5_encode]. *)
Definition state_hex (state : State) : string :=
  let '(s0, s1, s2, s3) := state in
  String.concat ""
    (flat_map (fun sj => map (fun k => hex2 (Z.land (Z.shiftr sj (Z.of_nat k * 8)) 0xff)) (seq 0 4))
       [s0; s1; s2; s3]).

(** [md5_encode(input)]. *)
Definition md5_encode (input : string) : string := state_hex (md5_state input).

(** The [std::string] built from a [const char*]: the characters before the
    first NUL. *)
Fixpoint of_c_str (s : string) : string :=
  match s with
  | EmptyString => ""
  | String c rest => if Ascii.eqb c "000" then "" else String c (of_c_str rest)
  end.

(** [js_java_md5Encode]: [argv] holds [JS_ToCString] of each argument,
    [None] when that conversion fails. *)
Definition js_java_md5Encode (argv : list (option string)) : string :=
  match argv with
  | [] => ""
  | None :: _ => ""
  | Some str :: _ => md5_encode (of_c_str str)
  end.

(** [js_java_md5Encode16]. *)
Definition js_java_md5Encode16 (argv : list (option string)) : string :=
  match argv with
  | [] => ""
  | None :: _ => ""
  | Some str :: _ =>
      let md5 := md5_encode (of_c_str str) in
      substr md5 8 16
  end.

(** ** The Base64 of QuickJsEngine.cpp *)

Definition base64_chars : string :=
  "ABCDEFGHIJKLMNOPQRSTUVWXYZabcdefghijklmnopqrstuvwxyz0123456789+/".

(** [base64_chars[i]]; the array ends with the NUL at index 64. *)
Definition base64_char (i : Z) : ascii :=
  match get (Z.to_nat i) base64_chars with
  | Some c => c
  | None => "000"%char
  end.

(** A value stored in an [int]: 32 bits, two's complement.  [val << 8]
    drops the bits it shifts out. *)
Definition int32 (x : Z) : Z := (x + 2 ^ 31) mod 2 ^ 32 - 2 ^ 31.

(** An [unsigned char] as a number, and [static_cast<char>] of a number. *)
Definition byte (c : ascii) : Z := Z.of_nat (nat_of_ascii c).

Definition char_of (v : Z) : ascii := ascii_of_nat (Z.to_nat (v mod 256)).

(** The loop [while (valb >= 0)] of [base64_encode], unrolled [n] times. *)
Fixpoint base64_emit (n : nat) (val valb : Z) (output : string) : string * Z :=
  match n with
  | O => (output, valb)
  | S n' =>
      if 0 <=? valb then
        base64_emit n' val (valb - 6)
          (output ++ String (base64_char (Z.land (Z.shiftr val valb) 0x3F)) "")
      else (output, valb)
  end.

(** The loop over the input; the inner loop runs [valb / 6 + 1] times. *)
Fixpoint base64_encode_loop (input : string) (val valb : Z) (output : string)
  : Z * Z * string :=
  match input with
  | EmptyString => (val, valb, output)
  | String c rest =>
      let val := int32 (int32 (Z.shiftl val 8) + byte c) in
      let valb := valb + 8 in
      let (output, valb) := base64_emit (S (Z.to_nat (valb / 6))) val valb output in
      base64_encode_loop rest val valb output
  end.

(** The loop [while (output.size() % 4) output.push_back('=')]. *)
Fixpoint base64_pad (n : nat) (output : string) : string :=
  match n with
  | O => output
  | S n' =>
      if (String.length output mod 4 =? 0)%nat then output
      else base64_pad n' (output ++ "=")
  end.

(** [base64_encode(input)]; the padding loop adds at most three signs. *)
Definition base64_encode (input : string) : string :=
  let '(val, valb, output) := base64_encode_loop input 0 (-6) "" in
  let output :=
    if -6 <? valb then
      output
      ++ String (base64_char (Z.land (Z.shiftr (int32 (Z.shiftl val 8)) (valb + 8)) 0x3F)) ""
    else output in
  base64_pad 3 output.

(** [v[i] = x] on a vector. *)
Fixpoint vector_set (v : list Z) (i : nat) (x : Z) : list Z :=
  match v, i with
  | [], _ => []
  | _ :: rest, O => x :: rest
  | y :: rest, S i' => y :: vector_set rest i' x
  end.

(** The table [T] of [base64_decode]: 256 entries [-1], then
    [T[base64_chars[i]] = i] for [i] from 0 to 63. *)
Definition base64_T : list Z :=
  fold_left
    (fun T i => vector_set T (nat_of_ascii (base64_char (Z.of_nat i))) (Z.of_nat i))
    (seq 0 64) (repeat (-1) 256).

(** The loop of [base64_decode]: it ends at the first character that is
    not in the table. *)
Fixpoint base64_decode_loop (input : string) (val valb : Z) (output : string) : string :=
  match input with
  | EmptyString => output
  | String c rest =>
      let Tc := nth (nat_of_ascii c) base64_T (-1) in
      if Tc =? -1 then output
      else
        let val := int32 (int32 (Z.shiftl val 6) + Tc) in
        let valb := valb + 6 in
        if 0 <=? valb then
          base64_decode_loop rest val (valb - 8)
            (output ++ String (char_of (Z.land (Z.shiftr val valb) 0xFF)) "")
        else base64_decode_loop rest val valb output
  end.

(** [base64_decode(input)]. *)
Definition base64_decode (input : string) : string :=
  base64_decode_loop input 0 (-8) "".

(** [js_java_base64Encode] and [js_java_base64Decode]; the result goes
    through [c_str()]. *)
Definition js_java_base64Encode (argv : list (option string)) : string :=
  match argv with
  | [] => ""
  | None :: _ => ""
  | Some str :: _ => of_c_str (base64_encode (of_c_str str))
  end.

Definition js_java_base64Decode (argv : list (option string)) : string :=
  match argv with
  | [] => ""
  | None :: _ => ""
  | Some str :: _ => of_c_str (base64_decode (of_c_str str))
  end.

(** ** URL encoding *)

(** [isalnum] in the "C" locale. *)
Definition isalnum (c : ascii) : bool :=
  let n := nat_of_ascii c in
  (((48 <=? n) && (n <=? 57)) || ((65 <=? n) && (n <=? 90)) || ((97 <=? n) && (n <=? 122)))%nat.

(** The characters that [url_encode] leaves as they are. *)
Definition is_unreserved (c : ascii) : bool :=
  isalnum c || Ascii.eqb c "-" || Ascii.eqb c "_" || Ascii.eqb c "." || Ascii.eqb c "~".

(** The two uppercase hexadecimal digits of a byte
    ([std::uppercase], [std::hex], fill [0], [std::setw(2)]). *)
Definition HEX_digit (v : Z) : ascii :=
  if v <? 10 then ascii_of_nat (48 + Z.to_nat v) else ascii_of_nat (55 + Z.to_nat v).

Definition HEX2 (v : Z) : string :=
  String (HEX_digit (v / 16)) (String (HEX_digit (v mod 16)) "").

(** [url_encode(str, charset)]; [charset] is not used. *)
Fixpoint url_encode (str : string) : string :=
  match str with
  | EmptyString => ""
  | String c rest =>
      if is_unreserved c then String c (url_encode rest)
      else String "%" (HEX2 (byte c)) ++ url_encode rest
  end.

Section UrlDecode.

(** [iss >> std::hex >> value] on the two characters that follow a percent
    sign: the value extracted by the stream library, [None] when the
    extraction fails. *)
Variable hex_extract : string -> option Z.

(** [url_decode(str)].  The index [i] of the loop is the position of the
    first character of the argument; [i + 2 < str.length()] says that two
    characters follow it. *)
Fixpoint url_decode (str : string) : string :=
  match str with
  | EmptyString => ""
  | String c rest =>
      if Ascii.eqb c "%" then
        match rest with
        | String h1 (String h2 rest') =>
            match hex_extract (String h1 (String h2 "")) with
            | Some value => String (char_of value) (url_decode rest')
            | None => String c (url_decode rest)
            end
        | _ => String c (url_decode rest)
        end
      else if Ascii.eqb c "+" then String " " (url_decode rest)
      else String c (url_decode rest)
  end.

(** [js_java_encodeURI] and [js_java_decodeURI]; the second argument of
    the former only sets the unused [charset]. *)
Definition js_java_encodeURI (argv : list (option string)) : string :=
  match argv with
  | [] => ""
  | None :: _ => ""
  | Some str :: _ => of_c_str (url_encode (of_c_str str))
  end.

Definition js_java_decodeURI (argv : list (option string)) : string :=
  match argv with
  | [] => ""
  | None :: _ => ""
  | Some str :: _ => of_c_str (url_decode (of_c_str str))
  end.

End UrlDecode.

Section Bridge.
Context {vm : JsVm}.



End Bridge.

End QuickJsEngine.

(* ===================================================================== *)
(** * JsEngine.cpp *)
(* ===================================================================== *)

Module JsEngine.

Section Engine.
Context {vm : JsVm}.

Record t : Type := mk {
  m_initialized : bool;
  m_context : option JSContext;
  m_lastError : string
}.

(** [JsEngine::setVariable(name, value)]. *)
Definition setVariable (name value : string) (e : t) : t :=
  if negb (m_initialized e) then e
  else
    match m_context e with
    | Some ctx => mk (m_initialized e) (Some (JS_SetGlobalStr ctx name value)) (m_lastError e)
    | None => e
    end.

(** The wrapping test of [evaluate]: no semicolon, and not a declaration. *)
Definition is_expression (code : string) : bool :=
  match find code ";" with
  | None =>
      negb (find_is_0 code "var ") && negb (find_is_0 code "let ")
      && negb (find_is_0 code "const ") && negb (find_is_0 code "function")
  | Some _ => false
  end.

(** [JsEngine::evaluate(code)].  [initialize] sets [m_initialized] only
    after it has created the context, and [shutdown] clears both, so an
    initialized engine without a context does not arise; the model returns
    the empty string there. *)
Definition evaluate (code : string) (e : t) : string * t :=
  if negb (m_initialized e) then ("", mk (m_initialized e) (m_context e) "Engine not initialized")
  else
    let wrappedCode := if is_expression code then "(" ++ code ++ ")" else code in
    match m_context e with
    | None => ("", e)
    | Some ctx =>
        let (ctx', result) := JS_Eval ctx wrappedCode in
        match result with
        | JSThrow exn =>
            ("", mk (m_initialized e) (Some ctx') (QuickJsEngine.str_or_empty exn))
        | JSReturn v =>
            (QuickJsEngine.str_or_empty v, mk (m_initialized e) (Some ctx') (m_lastError e))
        end
    end.

End Engine.

(** [md5_hash] is the platform's MD5 (OpenSSL or the Windows crypto API),
    a parameter of the two bridge functions below. *)
Section Md5.
Variable md5_hash : string -> string.

(** [JsEngine::js_md5Encode]. *)
Definition js_md5Encode (argv : list (option string)) : string :=
  match argv with
  | [] => ""
  | None :: _ => ""
  | Some str :: _ => md5_hash (QuickJsEngine.of_c_str str)
  end.

(** [JsEngine::js_md5Encode16]. *)
Definition js_md5Encode16 (argv : list (option string)) : string :=
  match argv with
  | [] => ""
  | None :: _ => ""
  | Some str :: _ =>
      let hash := md5_hash (QuickJsEngine.of_c_str str) in
      if (24 <=? String.length hash)%nat then substr hash 8 16 else hash
  end.

End Md5.

(** ** The helper functions on rules *)

(** The last test of [extractJsFromRule]: a template is script as a
    whole. *)
Definition template_or_none (rule : string) : bool * string * string :=
  if contains rule "{{" && contains rule "}}" then (true, rule, "")
  else (false, "", "").

(** [extractJsFromRule(rule, jsCode, preRule)]: the returned flag and the
    two outputs [jsCode] and [preRule]. *)
Definition extractJsFromRule (rule : string) : bool * string * string :=
  match find rule "@js:" with
  | Some jsPos => (true, substr_from rule (jsPos + 4), substr rule 0 (N.of_nat jsPos))
  | None =>
      match find rule "<js>", find rule "</js>" with
      | Some startTag, Some endTag =>
          if (startTag <? endTag)%nat then
            (true,
             substr rule (startTag + 4)
               (size_t_sub (size_t_sub (N.of_nat endTag) (N.of_nat startTag)) 4),
             substr rule 0 (N.of_nat startTag))
          else template_or_none rule
      | _, _ => template_or_none rule
      end
  end.

(** [ruleContainsJs(rule)]. *)
Definition ruleContainsJs (rule : string) : bool :=
  contains rule "@js:" || contains rule "<js>"
  || (contains rule "{{" && contains rule "}}").

Section WithResult.
Context {vm : JsVm}.

(** [JsEngine::evaluateWithResult(code, inputResult)]. *)
Definition evaluateWithResult (code inputResult : string) (e : t) : string * t :=
  evaluate code (setVariable "result" inputResult e).

End WithResult.

(** ** The Base64 of JsEngine.cpp *)

(** A value stored in an [unsigned char]. *)
Definition u8 (x : Z) : Z := (x mod 256)%Z.

(** The array [base64_chars] is the one of QuickJsEngine.cpp. *)
Definition base64_char (i : Z) : ascii := QuickJsEngine.base64_char i.

Definition string_of_indices (l : list Z) : string :=
  string_of_list_ascii (map base64_char l).

Definition string_of_bytes (l : list Z) : string :=
  string_of_list_ascii (map QuickJsEngine.char_of l).

(** The entries of [char_array_4] that [base64_encode] computes from
    [char_array_3]. *)
Definition sextets (char_array_3 : list Z) : list Z :=
  let a := fun i => nth i char_array_3 0%Z in
  [ u8 (Z.shiftr (Z.land (a 0) 0xfc) 2);
    u8 (Z.shiftl (Z.land (a 0) 0x03) 4 + Z.shiftr (Z.land (a 1) 0xf0) 4);
    u8 (Z.shiftl (Z.land (a 1) 0x0f) 2 + Z.shiftr (Z.land (a 2) 0xc0) 6);
    u8 (Z.land (a 2) 0x3f) ].

(** The loop [while (in_len--)] of [base64_encode].  The arrays are not
    initialised; an entry is written before it is read, and the model
    starts them at zero. *)
Fixpoint base64_encode_loop (input : string) (i : nat) (char_array_3 : list Z)
    (ret : string) : nat * list Z * string :=
  match input with
  | EmptyString => (i, char_array_3, ret)
  | String c rest =>
      let char_array_3 := QuickJsEngine.vector_set char_array_3 i (QuickJsEngine.byte c) in
      let i := S i in
      if (i =? 3)%nat then
        base64_encode_loop rest 0 char_array_3 (ret ++ string_of_indices (sextets char_array_3))
      else base64_encode_loop rest i char_array_3 ret
  end.

(** [char_array[j] = 0] for [j] from [i] on. *)
Definition zero_from (i : nat) (char_array : list Z) : list Z :=
  (firstn i char_array ++ repeat 0%Z (List.length char_array - i))%list.

(** [base64_encode(input)].  After the loop the first [i + 1] entries of
    [char_array_4] are appended (its last entry is not computed there),
    then [3 - i] padding signs. *)
Definition base64_encode (input : string) : string :=
  let '(i, char_array_3, ret) := base64_encode_loop input 0 [0; 0; 0]%Z "" in
  if (0 <? i)%nat then
    let char_array_3 := zero_from i char_array_3 in
    let char_array_4 := sextets char_array_3 in
    ret ++ string_of_indices (firstn (i + 1) char_array_4)
    ++ string_of_list_ascii (repeat "="%char (3 - i))
  else ret.

(** [strchr(base64_chars, c) - base64_chars], [None] for a null result;
    the terminator of the array is found at index 64. *)
Definition strchr_index (c : ascii) : option Z :=
  if Ascii.eqb c "000" then Some 64%Z
  else
    match index 0 (String c "") QuickJsEngine.base64_chars with
    | Some n => Some (Z.of_nat n)
    | None => None
    end.

(** The entries of [char_array_3] that [base64_decode] computes from
    [char_array_4]. *)
Definition octets (char_array_4 : list Z) : list Z :=
  let a := fun i => nth i char_array_4 0%Z in
  [ u8 (Z.shiftl (a 0) 2 + Z.shiftr (Z.land (a 1) 0x30) 4);
    u8 (Z.shiftl (Z.land (a 1) 0xf) 4 + Z.shiftr (Z.land (a 2) 0x3c) 2);
    u8 (Z.shiftl (Z.land (a 2) 0x3) 6 + a 3) ].

(** The loop [while (in_len-- && encoded[in_] != '=')] of
    [base64_decode], for an input shorter than [2^31] characters. *)
Fixpoint base64_decode_loop (encoded : string) (i : nat) (char_array_4 : list Z)
    (ret : string) : nat * list Z * string :=
  match encoded with
  | EmptyString => (i, char_array_4, ret)
  | String c rest =>
      if Ascii.eqb c "=" then (i, char_array_4, ret)
      else
        match strchr_index c with
        | None => base64_decode_loop rest i char_array_4 ret
        | Some pos =>
            let char_array_4 := QuickJsEngine.vector_set char_array_4 i (u8 pos) in
            let i := S i in
            if (i =? 4)%nat then
              base64_decode_loop rest 0 char_array_4
                (ret ++ string_of_bytes (octets char_array_4))
            else base64_decode_loop rest i char_array_4 ret
        end
  end.

(** [base64_decode(encoded)]: after the loop [i - 1] bytes are appended. *)
Definition base64_decode (encoded : string) : string :=
  let '(i, char_array_4, ret) := base64_decode_loop encoded 0 [0; 0; 0; 0]%Z "" in
  if (0 <? i)%nat then
    let char_array_4 := zero_from i char_array_4 in
    ret ++ string_of_bytes (firstn (i - 1) (octets char_array_4))
  else ret.

(** [js_base64Encode] and [js_base64Decode]. *)
Definition js_base64Encode (argv : list (option string)) : string :=
  match argv with
  | [] => ""
  | None :: _ => ""
  | Some str :: _ => QuickJsEngine.of_c_str (base64_encode (QuickJsEngine.of_c_str str))
  end.

Definition js_base64Decode (argv : list (option string)) : string :=
  match argv with
  | [] => ""
  | None :: _ => ""
  | Some str :: _ => QuickJsEngine.of_c_str (base64_decode (QuickJsEngine.of_c_str str))
  end.

(** ** URL encoding and HTML entities *)

(** [url_encode(str, charset)] of JsEngine.cpp: the digits stay in
    lowercase. *)
Fixpoint url_encode (str : string) : string :=
  match str with
  | EmptyString => ""
  | String c rest =>
      if QuickJsEngine.is_unreserved c then String c (url_encode rest)
      else String "%" (QuickJsEngine.hex2 (QuickJsEngine.byte c)) ++ url_encode rest
  end.

(** A loop [while ((pos = result.find(pat)) != npos) result.replace(pos, n, rep)],
    unrolled [fuel] times. *)
Fixpoint replace_loop (fuel : nat) (result pat : string) (n : nat) (rep : string) : string :=
  match fuel with
  | O => result
  | S fuel' =>
      match find result pat with
      | Some pos => replace_loop fuel' (replace result pos n rep) pat n rep
      | None => result
      end
  end.

(** The whole loop: every pass makes the string shorter, so that its
    length bounds the number of passes. *)
Definition replace_every (result pat : string) (n : nat) (rep : string) : string :=
  replace_loop (String.length result) result pat n rep.

(** The eight loops of [js_htmlFormat], in their order. *)
Definition html_format (result : string) : string :=
  let result := replace_every result "&nbsp;" 6 " " in
  let result := replace_every result "&lt;" 4 "<" in
  let result := replace_every result "&gt;" 4 ">" in
  let result := replace_every result "&amp;" 5 "&" in
  let result := replace_every result "&quot;" 6 (String "034" "") in
  let result := replace_every result "<br>" 4 (String "010" "") in
  let result := replace_every result "<br/>" 5 (String "010" "") in
  let result := replace_every result "<br />" 6 (String "010" "") in
  result.

(** [JsEngine::js_htmlFormat]. *)
Definition js_htmlFormat (argv : list (option string)) : string :=
  match argv with
  | [] => ""
  | None :: _ => ""
  | Some str :: _ => QuickJsEngine.of_c_str (html_format (QuickJsEngine.of_c_str str))
  end.

End JsEngine.

(* ===================================================================== *)
(** * JsRuleProcessor.cpp *)
(* ===================================================================== *)

Module JsRuleProcessor.

(** The part of [ParseRule] that follows the [<js>] check: the template
    test and the plain case. *)
Definition template_or_plain (ruleStr : string) : string * string * bool :=
  match find ruleStr "{{", find ruleStr "}}" with
  | Some _, Some _ => ("", ruleStr, true)
  | _, _ => (ruleStr, "", false)
  end.

(** [JsRuleProcessor::ParseRule(rule, xpathPart, jsPart, isTemplate)].
    [rule] is a [const char*]: [None] is the null pointer.  The function
    always returns [true]; the model returns the three output parameters. *)
Definition ParseRule (rule : option string) : string * string * bool :=
  match rule with
  | None => ("", "", false)
  | Some ruleStr =>
    if empty ruleStr then ("", "", false)
    else
      match find ruleStr "@js:" with
      | Some jsPos =>
          (substr ruleStr 0 (N.of_nat jsPos), substr_from ruleStr (jsPos + 4), false)
      | None =>
          match find ruleStr "<js>", find ruleStr "</js>" with
          | Some startTag, Some endTag =>
              if (startTag <? endTag)%nat then
                (substr ruleStr 0 (N.of_nat startTag),
                 substr ruleStr (startTag + 4)
                   (size_t_sub (size_t_sub (N.of_nat endTag) (N.of_nat startTag)) 4),
                 false)
              else template_or_plain ruleStr
          | _, _ => template_or_plain ruleStr
          end
      end
  end.

Section Processor.
Context {vm : JsVm}.

(** [m_engine] is a pointer: [None] is null. *)
Record t : Type := mk {
  m_engine : option JsEngine.t;
  m_lastError : string;
  m_initialized : bool
}.

(** What the loop of [EvaluateTemplate] appends for a span: the span
    itself when the expression is a selector, the engine's result for the
    expression otherwise. *)
Definition span_text (expr : string) (e : JsEngine.t) : string * JsEngine.t :=
  if find_is_0 expr "@css:" || find_is_0 expr "@XPath:"
  then ("{{" ++ expr ++ "}}", e)
  else JsEngine.evaluate expr e.

(** The scanning loop of [EvaluateTemplate], unrolled [fuel] times. *)
Fixpoint EvaluateTemplate_loop (fuel : nat) (templateStr : string) (pos : nat)
    (output : string) (e : JsEngine.t) : string * JsEngine.t :=
  match fuel with
  | O => (output, e)
  | S fuel' =>
      if (pos <? String.length templateStr)%nat then
        match find_from templateStr "{{" pos with
        | None => (output ++ substr_from templateStr pos, e)
        | Some start =>
            let output :=
              output ++ substr templateStr pos (size_t_sub (N.of_nat start) (N.of_nat pos)) in
            match find_from templateStr "}}" (start + 2) with
            | None => (output ++ substr_from templateStr start, e)
            | Some end_ =>
                let expr :=
                  substr templateStr (start + 2)
                    (size_t_sub (size_t_sub (N.of_nat end_) (N.of_nat start)) 2) in
                let (text, e) := span_text expr e in
                EvaluateTemplate_loop fuel' templateStr (end_ + 2) (output ++ text) e
            end
        end
      else (output, e)
  end.

(** The whole loop: it cannot use more than [length + 1] iterations. *)
Definition scan_template (templateStr : string) (e : JsEngine.t) : string * JsEngine.t :=
  EvaluateTemplate_loop (S (String.length templateStr)) templateStr 0 "" e.

(** [JsRuleProcessor::EvaluateTemplate(templateStr, result, baseUrl)];
    [baseUrl] is a [const char*]. *)
Definition EvaluateTemplate (templateStr result : string) (baseUrl : option string)
    (p : t) : string * t :=
  match m_engine p with
  | Some e =>
      if m_initialized p then
        let e := JsEngine.setVariable "result" result e in
        let e :=
          match baseUrl with
          | Some url => JsEngine.setVariable "baseUrl" url e
          | None => e
          end in
        let (output, e) := scan_template templateStr e in
        (output, mk (Some e) (m_lastError p) (m_initialized p))
      else (templateStr, mk (m_engine p) "JS engine not initialized" (m_initialized p))
  | None => (templateStr, mk (m_engine p) "JS engine not initialized" (m_initialized p))
  end.

End Processor.

(** ** Rule execution *)

(** [JsRuleProcessor::RuleContainsJs(rule)]; [rule] is a [const char*]. *)
Definition RuleContainsJs (rule : option string) : bool :=
  match rule with
  | None => false
  | Some rule => if (String.length rule =? 0)%nat then false else JsEngine.ruleContainsJs rule
  end.

Section Execution.
Context {vm : JsVm} {xp : XPathEngine}.

(** [JsRuleProcessor::ExecuteXPath(html, htmlLen, xpath, results)]: the
    stop flag is a local variable that stays [FALSE]. *)
Definition ExecuteXPath (html xpath : string) (results : list string) : Z * list string :=
  if empty xpath then (0%Z, results)
  else HtmlParseByXpath html xpath results (Some (fun _ => false)).

(** [JsRuleProcessor::ExecuteJs(code, input, baseUrl)]. *)
Definition ExecuteJs (code input : string) (baseUrl : option string) (p : t) : string * t :=
  match m_engine p with
  | Some e =>
      if m_initialized p then
        let e := JsEngine.setVariable "result" input e in
        let e :=
          match baseUrl with
          | Some url => JsEngine.setVariable "baseUrl" url e
          | None => e
          end in
        let (result, e) := JsEngine.evaluate code e in
        let lastError :=
          if empty result && negb (empty (JsEngine.m_lastError e))
          then JsEngine.m_lastError e
          else m_lastError p in
        (result, mk (Some e) lastError (m_initialized p))
      else ("", mk (m_engine p) "JS engine not initialized" (m_initialized p))
  | None => ("", mk (m_engine p) "JS engine not initialized" (m_initialized p))
  end.

(** The loop [for (const auto& xpathResult : xpathResults)] of
    [ProcessRule]: a script result is kept when it is not empty. *)
Fixpoint apply_js (jsPart : string) (baseUrl : option string) (xpathResults : list string)
    (results : list string) (p : t) : list string * t :=
  match xpathResults with
  | [] => (results, p)
  | xpathResult :: rest =>
      let (jsResult, p) := ExecuteJs jsPart xpathResult baseUrl p in
      let results := if negb (empty jsResult) then (results ++ [jsResult])%list else results in
      apply_js jsPart baseUrl rest results p
  end.

(** [JsRuleProcessor::ProcessRule(html, htmlLen, rule, results, baseUrl)]:
    the status, the vector [results] and the processor afterwards.
    [ParseRule] returns [true] on every rule, so the branch for its failure
    is not taken. *)
Definition ProcessRule (html : string) (rule : option string) (results : list string)
    (baseUrl : option string) (p : t) : Z * list string * t :=
  let results : list string := [] in
  match rule with
  | None => (0%Z, results, p)
  | Some ruleStr =>
      if (String.length ruleStr =? 0)%nat then (0%Z, results, p)
      else
        let '(xpathPart, jsPart, isTemplate) := ParseRule rule in
        if isTemplate then
          let (processed, p) := EvaluateTemplate jsPart "" baseUrl p in
          (0%Z, if negb (empty processed) then (results ++ [processed])%list else results, p)
        else if empty jsPart then
          let (ret, results) := ExecuteXPath html xpathPart results in
          (ret, results, p)
        else
          let (ret, xpathResults) :=
            if negb (empty xpathPart) then ExecuteXPath html xpathPart [] else (0%Z, []) in
          if negb (ret =? 0)%Z then (ret, results, p)
          else
            match xpathResults with
            | [] =>
                let (jsResult, p) := ExecuteJs jsPart "" baseUrl p in
                (0%Z, if negb (empty jsResult) then (results ++ [jsResult])%list else results, p)
            | _ :: _ =>
                let (results, p) := apply_js jsPart baseUrl xpathResults results p in
                (0%Z, results, p)
            end
  end.

(** [JsRuleProcessor::ProcessTemplate(templateStr, inputResult, baseUrl)];
    the first two arguments are [const char*]. *)
Definition ProcessTemplate (templateStr inputResult : option string)
    (baseUrl : option string) (p : t) : string * t :=
  match templateStr with
  | None => ("", p)
  | Some tpl =>
      EvaluateTemplate tpl
        (match inputResult with Some r => r | None => "" end) baseUrl p
  end.

End Execution.

End JsRuleProcessor.

(* ===================================================================== *)
(** * LegadoRuleParser.cpp *)
(* ===================================================================== *)

Module LegadoRuleParser.

(** ** The rule-chain splitter *)

(** [LegadoRuleParser::SplitRule(rule, baseRule, jsRule)]: two outputs, no
    template flag, and no comparison of the two tag positions. *)
Definition SplitRule (rule : string) : string * string :=
  match find rule "@js:" with
  | Some jsPos => (substr rule 0 (N.of_nat jsPos), substr_from rule (jsPos + 4))
  | None =>
      match find rule "<js>", find rule "</js>" with
      | Some jsStart, Some jsEnd =>
          (substr rule 0 (N.of_nat jsStart),
           substr rule (jsStart + 4)
             (size_t_sub (size_t_sub (N.of_nat jsEnd) (N.of_nat jsStart)) 4))
      | _, _ => (rule, "")
      end
  end.

(** ** The CSS-to-XPath compiler *)

(** [std::isspace] in the "C" locale, the delimiter test of [iss >> part]. *)
Definition isspace (c : ascii) : bool :=
  let n := nat_of_ascii c in
  ((n =? 32) || ((9 <=? n) && (n <=? 13)))%nat.

(** The loop [while (iss >> part) parts.push_back(part)]: the maximal runs
    of non-blank characters, in order.  [cur] is the token being read. *)
Fixpoint tokens_from (cur : string) (s : string) : list string :=
  match s with
  | EmptyString => if empty cur then [] else [cur]
  | String c s' =>
      if isspace c then
        if empty cur then tokens_from "" s' else cur :: tokens_from "" s'
      else tokens_from (cur ++ String c "") s'
  end.

Definition tokens (selector : string) : list string := tokens_from "" selector.

(** A scanning loop [while (pos < len && !stop(p[pos])) { acc += p[pos]; pos++; }].
    The cursor [pos] is represented by the unread suffix [p[pos..]]; the
    result is the text read and the suffix left. *)
Fixpoint scan (stop : ascii -> bool) (rest : string) : string * string :=
  match rest with
  | EmptyString => ("", "")
  | String c rest' =>
      if stop c then ("", rest)
      else let (acc, r) := scan stop rest' in (String c acc, r)
  end.

(** The test [pos < len && p[pos] == c], and the step [pos++] when it holds. *)
Definition at_char (c : ascii) (rest : string) : option string :=
  match rest with
  | String c' rest' => if Ascii.eqb c' c then Some rest' else None
  | EmptyString => None
  end.

Definition is_name_end (c : ascii) : bool :=
  Ascii.eqb c "." || Ascii.eqb c "#" || Ascii.eqb c "[".

Definition is_attr_end (c : ascii) : bool :=
  Ascii.eqb c "=" || Ascii.eqb c "]".

Definition is_quote (c : ascii) : bool :=
  Ascii.eqb c "034" || Ascii.eqb c "'".

Definition is_value_end (c : ascii) : bool :=
  is_quote c || Ascii.eqb c "]".

(** What the body of the loop over [parts] reads from one part. *)
Record Part := mkPart {
  tag : string;
  className : string;
  id : string;
  attr : string;
  attrValue : string
}.

Definition parse_part (p : string) : Part :=
  (* tag *)
  let (name, r1) := scan is_name_end p in
  let tag0 := "*" ++ name in
  let tag := if (tag0 =? "*")%string then "*" else substr_from tag0 1 in
  (* class *)
  let (className, r2) :=
    match at_char "." r1 with
    | Some r => scan is_name_end r
    | None => ("", r1)
    end in
  (* id *)
  let (id, r3) :=
    match at_char "#" r2 with
    | Some r => scan is_name_end r
    | None => ("", r2)
    end in
  (* attribute *)
  let (attr, attrValue) :=
    match at_char "[" r3 with
    | Some r =>
        let (attr, r4) := scan is_attr_end r in
        match at_char "=" r4 with
        | Some r5 =>
            let r6 :=
              match r5 with
              | String c r' => if is_quote c then r' else r5
              | EmptyString => r5
              end in
            (attr, fst (scan is_value_end r6))
        | None => (attr, "")
        end
    | None => ("", "")
    end in
  mkPart tag className id attr attrValue.

(** The bracketed predicate of one part. *)
Definition predicate_of (q : Part) : string :=
  let predicate := "" in
  let predicate :=
    if negb (empty (className q))
    then predicate ++ ("contains(@class,'" ++ className q ++ "')")
    else predicate in
  let predicate :=
    if negb (empty (id q))
    then (if negb (empty predicate) then predicate ++ " and " else predicate)
           ++ ("@id='" ++ id q ++ "'")
    else predicate in
  let predicate :=
    if negb (empty (attr q))
    then
      let predicate := if negb (empty predicate) then predicate ++ " and " else predicate in
      if negb (empty (attrValue q))
      then predicate ++ ("@" ++ attr q ++ "='" ++ attrValue q ++ "'")
      else predicate ++ ("@" ++ attr q)
    else predicate in
  predicate.

(** One iteration of [for (const auto& p : parts)]: what is appended to
    [xpath]. *)
Definition part_xpath (p : string) : string :=
  let q := parse_part p in
  let predicate := predicate_of q in
  "/" ++ (if empty (tag q) then "*" else tag q)
      ++ (if negb (empty predicate) then "[" ++ predicate ++ "]" else "").

(** The attribute-extraction suffix. *)
Definition extract_suffix (attrExtract : string) : string :=
  if negb (empty attrExtract) then
    if (attrExtract =? "text")%string then "/text()"
    else if ((attrExtract =? "html") || (attrExtract =? "innerHtml"))%string then ""
    else "/@" ++ attrExtract
  else "".

(** [LegadoRuleParser::CssToXPath(css)]. *)
Definition CssToXPath (css : string) : string :=
  let (attrExtract, selector) :=
    match find css "@" with
    | Some atPos =>
        if (0 <? atPos)%nat
        then (substr_from css (atPos + 1), substr css 0 (N.of_nat atPos))
        else ("", css)
    | None => ("", css)
    end in
  let parts := tokens selector in
  let xpath := fold_left (fun xpath p => xpath ++ part_xpath p) parts "/" in
  xpath ++ extract_suffix attrExtract.

(** ** The pipeline *)

Section Parser.
Context {vm : JsVm} {xp : XPathEngine}.

(** [m_jsEngine] is a pointer: [None] is null. *)
Record t : Type := mk {
  m_jsEngine : option QuickJsEngine.t;
  m_lastError : string;
  m_hasError : bool
}.

Definition HasError (p : t) : bool := m_hasError p.

Definition GetLastError (p : t) : string := m_lastError p.

(** [LegadoRuleParser::ParseXPathRule]. *)
Definition ParseXPathRule (html xpath : string) (value : list string) (stop : StopFlag)
  : Z * list string :=
  HtmlParseByXpath html xpath value stop.

(** [LegadoRuleParser::ParseCssRule]. *)
Definition ParseCssRule (html css : string) (value : list string) (stop : StopFlag)
    (p : t) : Z * list string * t :=
  let xpath := CssToXPath css in
  if empty xpath then
    (1%Z, value, mk (m_jsEngine p) ("Failed to convert CSS to XPath: " ++ css) true)
  else
    let (ret, value) := ParseXPathRule html xpath value stop in
    (ret, value, p).

(** [LegadoRuleParser::ParseJsonPathRule]. *)
Definition ParseJsonPathRule (json jsonpath : string) (value : list string)
    (stop : StopFlag) (p : t) : Z * list string * t :=
  match m_jsEngine p with
  | None => (1%Z, value, mk None "JS engine not initialized" true)
  | Some e =>
      let content := json in
      let e := QuickJsEngine.setResult content e in
      let jsCode :=
        if find_is_0 jsonpath "$."
        then "var data = JSON.parse(result); data." ++ substr_from jsonpath 2
        else "var data = JSON.parse(result); data." ++ jsonpath in
      let (result, e) := QuickJsEngine.eval jsCode e in
      if QuickJsEngine.hasError e then
        (1%Z, value, mk (Some e) (QuickJsEngine.getLastError e) true)
      else
        (0%Z, (value ++ [result])%list, mk (Some e) (m_lastError p) (m_hasError p))
  end.

(** The base phase of [ParseRule]: what the block guarded by
    [!baseRule.empty()] and its [else] leave in [ret] and [baseResult]. *)
Definition base_phase (html baseRule : string) (stop : StopFlag) (p : t)
  : Z * list string * t :=
  let baseResult : list string := [] in
  if negb (empty baseRule) then
    if find_is_0 baseRule "@css:" then
      ParseCssRule html (substr_from baseRule 5) baseResult stop p
    else if find_is_0 baseRule "@json:" || find_is_0 baseRule "$." then
      let jsonpath := baseRule in
      let jsonpath :=
        if find_is_0 jsonpath "@json:" then substr_from jsonpath 6 else jsonpath in
      ParseJsonPathRule html jsonpath baseResult stop p
    else if find_is_0 baseRule "//" || find_is_0 baseRule "@XPath:" then
      let xpath := baseRule in
      let xpath := if find_is_0 xpath "@XPath:" then substr_from xpath 7 else xpath in
      let (ret, baseResult) := ParseXPathRule html xpath baseResult stop in
      (ret, baseResult, p)
    else
      let xpath := CssToXPath baseRule in
      if negb (empty xpath) then
        let (ret, baseResult) := ParseXPathRule html xpath baseResult stop in
        (ret, baseResult, p)
      else (0%Z, (baseResult ++ [html])%list, p)
  else (0%Z, (baseResult ++ [html])%list, p).

(** The test [stop && *stop] at the [i]-th iteration. *)
Definition stop_requested (stop : StopFlag) (i : nat) : bool :=
  match stop with
  | Some flag => flag i
  | None => false
  end.

(** The loop [for (const auto& item : baseResult)] of the script phase,
    from its [i]-th iteration on; [items] are the elements not yet visited. *)
Fixpoint js_loop (jsRule : string) (stop : StopFlag) (i : nat) (items : list string)
    (e : QuickJsEngine.t) (lastError : string) (hasError : bool) (value : list string)
  : QuickJsEngine.t * string * bool * list string :=
  match items with
  | [] => (e, lastError, hasError, value)
  | item :: rest =>
      if stop_requested stop i then (e, lastError, hasError, value)
      else
        let e := QuickJsEngine.setResult item e in
        let (jsResult, e) := QuickJsEngine.eval jsRule e in
        if QuickJsEngine.hasError e then
          js_loop jsRule stop (S i) rest e (QuickJsEngine.getLastError e) true
            (value ++ [item])%list
        else
          js_loop jsRule stop (S i) rest e lastError hasError (value ++ [jsResult])%list
  end.

(** [LegadoRuleParser::ParseRule(html, len, rule, value, stop)]: the
    returned status, the output vector [value] and the parser afterwards.
    [html] stands for the [len] bytes at [html]. *)
Definition ParseRule (html rule : string) (value : list string) (stop : StopFlag)
    (p : t) : Z * list string * t :=
  let p := mk (m_jsEngine p) "" false in
  if empty rule then (0%Z, value, p)
  else
    let (baseRule, jsRule) := SplitRule rule in
    let '(ret, baseResult, p) := base_phase html baseRule stop p in
    if negb (ret =? 0)%Z then (ret, value, p)
    else
      match m_jsEngine p with
      | Some e =>
          if negb (empty jsRule) then
            let '(e, lastError, hasError, value) :=
              js_loop jsRule stop 0 baseResult e (m_lastError p) (m_hasError p) value in
            (0%Z, value, mk (Some e) lastError hasError)
          else (0%Z, baseResult, p)
      | None => (0%Z, baseResult, p)
      end.

(** [LegadoRuleParser::ParseJsRule(content, len, js, value, stop)]. *)
Definition ParseJsRule (content js : string) (value : list string) (stop : StopFlag)
    (p : t) : Z * list string * t :=
  match m_jsEngine p with
  | None => (1%Z, value, mk None "JS engine not initialized" true)
  | Some e =>
      let e := QuickJsEngine.setResult content e in
      let (result, e) := QuickJsEngine.eval js e in
      if QuickJsEngine.hasError e then
        (1%Z, value, mk (Some e) (QuickJsEngine.getLastError e) true)
      else
        (0%Z, (value ++ [result])%list, mk (Some e) (m_lastError p) (m_hasError p))
  end.

(** [LegadoRuleParser::EvalJs(code)]. *)
Definition EvalJs (code : string) (p : t) : string * t :=
  match m_jsEngine p with
  | None => ("", mk None "JS engine not initialized" true)
  | Some e =>
      let (result, e) := QuickJsEngine.eval code e in
      if QuickJsEngine.hasError e then
        (result, mk (Some e) (QuickJsEngine.getLastError e) true)
      else
        (result, mk (Some e) (m_lastError p) (m_hasError p))
  end.

(** [LegadoRuleParser::SetResult(result)]. *)
Definition SetResult (result : string) (p : t) : t :=
  match m_jsEngine p with
  | None => p
  | Some e => mk (Some (QuickJsEngine.setResult result e)) (m_lastError p) (m_hasError p)
  end.

(** The three functions below reach the variable store of the engine,
    which travels beside the parser as [vars]. *)

(** [LegadoRuleParser::SetVariable(key, value)]. *)
Definition SetVariable (key value : string) (p : t) (vars : StdMap.t) : t * StdMap.t :=
  match m_jsEngine p with
  | None => (p, vars)
  | Some e =>
      let (e, vars) := QuickJsEngine.setVariable key value (e, vars) in
      (mk (Some e) (m_lastError p) (m_hasError p), vars)
  end.



End Parser.

(** [LegadoRuleParser::ContainsJs(rule)]. *)
Definition ContainsJs (rule : string) : bool :=
  if contains rule "@js:" then true
  else if contains rule "<js>" then true
  else if contains rule "{{" && contains rule "}}" then true
  else false.

End LegadoRuleParser.

(* ===================================================================== *)
(** * LegadoConverter.cpp: the rule classifier of the converter *)
(* ===================================================================== *)

Module LegadoConverter.

(** [strncmp(rule, lit, strlen(lit)) == 0] on C strings without NUL. *)
Definition strncmp_eq (rule lit : string) : bool := prefix lit rule.

(** [is_xpath_rule(rule)]; [None] is the null pointer. *)
Definition is_xpath_rule (rule : option string) : bool :=
  match rule with
  | None => false
  | Some rule =>
      if (String.length rule =? 0)%nat then false
      else if strncmp_eq rule "//" then true
      else if strncmp_eq rule "@XPath:" then true
      else if strncmp_eq rule "@xpath:" then true
      else false
  end.

(** The XPath branch of [convert_legado_rule_to_xpath]: the text copied
    to [xpath_out] (before truncation to [max_len - 1] characters). *)
Definition xpath_body (rule_copy : string) : string :=
  if strncmp_eq rule_copy "@XPath:" || strncmp_eq rule_copy "@xpath:"
  then substr_from rule_copy 7
  else rule_copy.

(** ** The other classifiers *)

(** [contains_js(rule)]: of the template spans only the first is looked
    at, and it counts as script when it holds more than ten characters. *)
Definition contains_js (rule : option string) : bool :=
  match rule with
  | None => false
  | Some rule =>
      if (String.length rule =? 0)%nat then false
      else if contains rule "@js:" then true
      else if contains rule "<js>" then true
      else
        match find rule "{{", find rule "}}" with
        | Some start, Some end_ =>
            if (start <? end_)%nat then
              let len := (Z.of_nat end_ - Z.of_nat start - 2)%Z in
              if (10 <? len)%Z then true else false
            else false
        | _, _ => false
        end
  end.

(** [is_jsonpath_rule(rule)]. *)
Definition is_jsonpath_rule (rule : option string) : bool :=
  match rule with
  | None => false
  | Some rule =>
      if (String.length rule =? 0)%nat then false
      else if strncmp_eq rule "$." then true
      else if strncmp_eq rule "@json:" then true
      else false
  end.

(** [is_css_rule(rule)]. *)
Definition is_css_rule (rule : option string) : bool :=
  match rule with
  | None => false
  | Some rule =>
      if (String.length rule =? 0)%nat then false
      else if strncmp_eq rule "@css:" then true
      else false
  end.

(** ** Writing into buffers *)

(** The converters build their result in local arrays with [strcpy],
    [strcat] and [sprintf], none of which checks a bound.  A result is
    [None] where such a call would not fit the array with its terminator
    (the C code then writes past the array), [Some] otherwise. *)

(** [strcpy(dst, src)] or [strncpy(dst, src, strlen(src))] into a zeroed
    array of [cap] bytes. *)
Definition strcpy (cap : nat) (src : string) : option string :=
  if (String.length src <? cap)%nat then Some src else None.

(** [strcat(dst, src)] where [dst] is an array of [cap] bytes. *)
Definition strcat (cap : nat) (dst src : string) : option string :=
  strcpy cap (dst ++ src).

(** [strncpy(xpath_out, temp, max_len - 1); xpath_out[max_len - 1] = 0]
    for [max_len > 0]: the copy is cut to the size of the output. *)
Definition copy_out (temp : string) (max_len : Z) : string :=
  substring 0 (Z.to_nat (max_len - 1)) temp.

(** What a converter returns: its [BOOL], and the contents of
    [xpath_out] afterwards.  [xpath_out] is a buffer of [max_len] bytes
    that the caller owns; its contents before the call are an argument. *)
Definition Conversion : Type := (bool * string)%type.

Definition and_then {A B : Type} (o : option A) (f : A -> option B) : option B :=
  match o with
  | Some a => f a
  | None => None
  end.

(** ** JSONPath rules *)

(** The loop of [convert_jsonpath_to_xpath] over the first [n] characters
    of [start]: a dot becomes a slash.  With [n = 2000] and [temp] starting
    as one character the array of 2048 bytes is never exceeded. *)
Fixpoint dots_to_slashes (n : nat) (start temp : string) : string :=
  match n, start with
  | S n', String c rest =>
      dots_to_slashes n' rest (temp ++ (if Ascii.eqb c "." then "/" else String c ""))
  | _, _ => temp
  end.

(** [convert_jsonpath_to_xpath(json_rule, xpath_out, max_len)]. *)
Definition convert_jsonpath_to_xpath (json_rule : option string) (xpath_out : string)
    (max_len : Z) : Conversion :=
  match json_rule with
  | None => (false, xpath_out)
  | Some json_rule =>
      if (max_len <=? 0)%Z then (false, xpath_out)
      else
        let start := json_rule in
        let start := if strncmp_eq start "@json:" then substr_from start 6 else start in
        let start := if strncmp_eq start "$." then substr_from start 1 else start in
        let temp := dots_to_slashes 2000 start "/" in
        (true, copy_out temp max_len)
  end.

(** ** JSOUP rules *)

(** The tokens that successive calls of [strtok_s(.., delim, ..)] return:
    the maximal runs of characters other than [delim]. *)
Fixpoint strtok_from (delim : ascii) (cur s : string) : list string :=
  match s with
  | EmptyString => if empty cur then [] else [cur]
  | String c s' =>
      if Ascii.eqb c delim then
        if empty cur then strtok_from delim "" s' else cur :: strtok_from delim "" s'
      else strtok_from delim (cur ++ String c "") s'
  end.

Definition strtok_all (delim : ascii) (s : string) : list string := strtok_from delim "" s.

(** The [type.name.index] fields of a token, each in its own array. *)
Definition jsoup_fields (token : string) : option (string * string * string) :=
  match find token "." with
  | Some dot1 =>
      and_then (strcpy 64 (substring 0 dot1 token)) (fun type =>
      let after := substr_from token (dot1 + 1) in
      match find after "." with
      | Some dot2 =>
          and_then (strcpy 256 (substring 0 dot2 after)) (fun name =>
          and_then (strcpy 32 (substr_from after (dot2 + 1))) (fun index =>
          Some (type, name, index)))
      | None =>
          and_then (strcpy 256 after) (fun name => Some (type, name, ""))
      end)
  | None => and_then (strcpy 64 token) (fun type => Some (type, "", ""))
  end.

(** [[index]], appended when [index] is not empty. *)
Definition jsoup_index (temp index : string) : option string :=
  if (0 <? String.length index)%nat then
    and_then (strcat 2048 temp "[") (fun temp =>
    and_then (strcat 2048 temp index) (fun temp => strcat 2048 temp "]"))
  else Some temp.

(** The body of the loop of [convert_jsoup_to_xpath] for one token. *)
Definition jsoup_token (first : bool) (token temp : string) : option string :=
  and_then (jsoup_fields token) (fun '(type, name, index) =>
  if (type =? "class")%string then
    and_then (strcat 2048 temp "*[@class='") (fun temp =>
    and_then (strcat 2048 temp name) (fun temp =>
    and_then (strcat 2048 temp "']") (fun temp => jsoup_index temp index)))
  else if (type =? "id")%string then
    and_then (strcat 2048 temp "*[@id='") (fun temp =>
    and_then (strcat 2048 temp name) (fun temp => strcat 2048 temp "']"))
  else if (type =? "tag")%string then
    and_then (if negb first then strcat 2048 temp "//" else Some temp) (fun temp =>
    and_then (strcat 2048 temp name) (fun temp => jsoup_index temp index))
  else if (type =? "text")%string then strcat 2048 temp "/text()"
  else if (type =? "href")%string then strcat 2048 temp "/@href"
  else if (type =? "src")%string then strcat 2048 temp "/@src"
  else Some temp).

Fixpoint jsoup_loop (first : bool) (tokens : list string) (temp : string) : option string :=
  match tokens with
  | [] => Some temp
  | token :: rest => and_then (jsoup_token first token temp) (jsoup_loop false rest)
  end.

(** [convert_jsoup_to_xpath(jsoup_rule, xpath_out, max_len)]. *)
Definition convert_jsoup_to_xpath (jsoup_rule : option string) (xpath_out : string)
    (max_len : Z) : option Conversion :=
  match jsoup_rule with
  | None => Some (false, xpath_out)
  | Some jsoup_rule =>
      if (max_len <=? 0)%Z then Some (false, xpath_out)
      else
        and_then (jsoup_loop true (strtok_all "@" jsoup_rule) "//") (fun temp =>
        if (2 <? String.length temp)%nat then Some (true, copy_out temp max_len)
        else Some (false, xpath_out))
  end.

(** ** The converter of one rule *)

(** The [sprintf] calls of the CSS branch: the selector is an id, a class
    or anything else, read off its first character. *)
Definition css_selector_xpath (css_start : string) : option string :=
  match css_start with
  | String c rest =>
      if Ascii.eqb c "#" then strcpy 2048 ("//*[@id='" ++ rest ++ "']")
      else if Ascii.eqb c "." then strcpy 2048 ("//*[contains(@class,'" ++ rest ++ "')]")
      else strcpy 2048 ("//" ++ css_start)
  | EmptyString => strcpy 2048 ("//" ++ css_start)
  end.

(** The attribute step of the CSS branch; an attribute other than the
    four below adds nothing. *)
Definition css_attr_xpath (temp attr : string) : option string :=
  if (attr =? "text")%string then strcat 2048 temp "/text()"
  else if (attr =? "href")%string then strcat 2048 temp "/@href"
  else if (attr =? "src")%string then strcat 2048 temp "/@src"
  else if (attr =? "content")%string then strcat 2048 temp "/@content"
  else Some temp.

(** [convert_legado_rule_to_xpath(legado_rule, xpath_out, max_len)]. *)
Definition convert_legado_rule_to_xpath (legado_rule : option string) (xpath_out : string)
    (max_len : Z) : option Conversion :=
  match legado_rule with
  | None => Some (true, if (0 <? max_len)%Z then "" else xpath_out)
  | Some legado_rule =>
      if (max_len <=? 0)%Z then Some (true, xpath_out)
      else if (String.length legado_rule =? 0)%nat then Some (true, "")
      else if contains_js (Some legado_rule) then Some (false, xpath_out)
      else
        (* the part before the first ## *)
        let rule_copy :=
          match find legado_rule "##" with
          | Some regex_part => substring 0 regex_part legado_rule
          | None => legado_rule
          end in
        if is_xpath_rule (Some rule_copy) then
          Some (true, copy_out (xpath_body rule_copy) max_len)
        else if is_jsonpath_rule (Some rule_copy) then
          Some (convert_jsonpath_to_xpath (Some rule_copy) xpath_out max_len)
        else if is_css_rule (Some rule_copy) then
          let css_start := substr_from rule_copy 5 in
          match find css_start "@" with
          | Some attr_sep =>
              let attr := substr_from css_start (attr_sep + 1) in
              let css_start := substring 0 attr_sep css_start in
              and_then (css_selector_xpath css_start) (fun temp =>
              and_then (css_attr_xpath temp attr) (fun temp =>
              Some (true, copy_out temp max_len)))
          | None => Some (false, xpath_out)
          end
        else if contains rule_copy "@" || contains rule_copy "." then
          convert_jsoup_to_xpath (Some rule_copy) xpath_out max_len
        else Some (true, copy_out rule_copy max_len)
  end.

End LegadoConverter.


(* ===================================================================== *)
(** * The specification's side *)
(* ===================================================================== *)

(** Definitions that follow the words of the specification, to be compared
    with the functions above. *)
Module Spec.

(** Section 4.1, rule 2: both tags occur, the opening one first. *)
Definition js_pair (rule : string) : Prop :=
  exists i j, first_at "<js>" rule i /\ first_at "</js>" rule j /\ (i < j)%nat.

(** Section 4.1: the four rules of the splitter, in their order of
    precedence.  Positions are those of the first occurrences. *)
Inductive split (rule : string) : string * string * bool -> Prop :=
| split_at_js (base tail : string) :
    rule = base ++ "@js:" ++ tail ->
    first_at "@js:" rule (String.length base) ->
    split rule (base, tail, false)
| split_js_tags (base body rest : string) :
    absent "@js:" rule ->
    rule = base ++ "<js>" ++ body ++ "</js>" ++ rest ->
    first_at "<js>" rule (String.length base) ->
    first_at "</js>" rule (String.length base + 4 + String.length body) ->
    split rule (base, body, false)
| split_template :
    absent "@js:" rule -> ~ js_pair rule ->
    occurs "{{" rule -> occurs "}}" rule ->
    split rule ("", rule, true)
| split_plain :
    absent "@js:" rule -> ~ js_pair rule ->
    ~ (occurs "{{" rule /\ occurs "}}" rule) ->
    split rule (rule, "", false).

(** Section 4.3: the conditions of one part, in the order in which the
    predicate joins them. *)
Definition conditions (q : LegadoRuleParser.Part) : list string :=
  let class_cond :=
    if empty (LegadoRuleParser.className q) then []
    else ["contains(@class,'" ++ LegadoRuleParser.className q ++ "')"] in
  let id_cond :=
    if empty (LegadoRuleParser.id q) then []
    else ["@id='" ++ LegadoRuleParser.id q ++ "'"] in
  let attr_cond :=
    if empty (LegadoRuleParser.attr q) then []
    else [if empty (LegadoRuleParser.attrValue q) then "@" ++ LegadoRuleParser.attr q
          else "@" ++ LegadoRuleParser.attr q ++ "='" ++ LegadoRuleParser.attrValue q ++ "'"] in
  List.app class_cond (List.app id_cond attr_cond).

(** Section 4.3: a character that can stand in a tag, class, id or
    attribute name or in an attribute value: not a blank and none of the
    delimiters of the grammar. *)
Definition is_plain (c : ascii) : bool :=
  negb (LegadoRuleParser.isspace c || LegadoRuleParser.is_name_end c
        || LegadoRuleParser.is_attr_end c || LegadoRuleParser.is_quote c
        || Ascii.eqb c "@").

(** The bracketed predicate for a list of conditions. *)
Definition bracket (conds : list string) : string :=
  match conds with
  | [] => ""
  | _ => "[" ++ String.concat " and " conds ++ "]"
  end.

Section Tail.
Context {vm : JsVm}.

(** Section 4.4, step 4, for one item: rebind [result], evaluate the tail;
    the output is the script's result, or the item itself when the engine
    fails, together with the engine's error message in that case. *)
Definition apply_tail (tail item : string) (e : QuickJsEngine.t)
  : string * option string * QuickJsEngine.t :=
  let e := QuickJsEngine.setResult item e in
  let (r, e) := QuickJsEngine.eval tail e in
  if QuickJsEngine.hasError e
  then (item, Some (QuickJsEngine.getLastError e), e)
  else (r, None, e).

Definition later_error (first second : option string) : option string :=
  match second with
  | Some m => Some m
  | None => first
  end.

(** Section 4.4, step 4, for all items in order: the outputs, the message
    of the last failure if any item failed, and the engine afterwards. *)
Fixpoint tail_phase (tail : string) (items : list string) (e : QuickJsEngine.t)
  : list string * option string * QuickJsEngine.t :=
  match items with
  | [] => ([], None, e)
  | item :: rest =>
      let '(out, err, e) := apply_tail tail item e in
      let '(outs, err', e) := tail_phase tail rest e in
      (out :: outs, later_error err err', e)
  end.

End Tail.

(** The stop flag is never seen set. *)
Definition never_stops (stop : StopFlag) : Prop :=
  forall i, LegadoRuleParser.stop_requested stop i = false.

(** A lowercase hexadecimal digit. *)
Definition is_lower_hex (c : ascii) : bool :=
  let n := nat_of_ascii c in
  (((48 <=? n) && (n <=? 57)) || ((97 <=? n) && (n <=? 102)))%nat.

Fixpoint all_chars (f : ascii -> bool) (s : string) : bool :=
  match s with
  | EmptyString => true
  | String c rest => f c && all_chars f rest
  end.

End Spec.

(* ===================================================================== *)
(** * Reference functions *)
(* ===================================================================== *)

(** Textbook forms that the proofs below compare the code with.  None of
    them is part of the program. *)
Module Reference.
Import QuickJsEngine.
Local Open Scope Z_scope.

(** The four Base64 characters of three bytes. *)
Definition group3 (a b c : Z) : string :=
  String (base64_char (a / 4))
    (String (base64_char (a mod 4 * 16 + b / 16))
       (String (base64_char (b mod 16 * 4 + c / 64))
          (String (base64_char (c mod 64)) ""))).

(** Base64 by groups of three bytes, with [=] padding. *)
Fixpoint base64 (s : string) : string :=
  match s with
  | EmptyString => ""
  | String a EmptyString =>
      String (base64_char (byte a / 4)) (String (base64_char (byte a mod 4 * 16)) "==")
  | String a (String b EmptyString) =>
      String (base64_char (byte a / 4))
        (String (base64_char (byte a mod 4 * 16 + byte b / 16))
           (String (base64_char (byte b mod 16 * 4)) "="))
  | String a (String b (String c rest)) => group3 (byte a) (byte b) (byte c) ++ base64 rest
  end.

(** Equality of the low 32 bits. *)
Definition eq32 (x y : Z) : Prop := x mod 2 ^ 32 = y mod 2 ^ 32.

(** A path with its dots turned into slashes. *)
Fixpoint dots_as_slashes (s : string) : string :=
  match s with
  | EmptyString => ""
  | String c rest => String (if Ascii.eqb c "." then "/"%char else c) (dots_as_slashes rest)
  end.

(** A character other than the two separators of a JSOUP rule. *)
Definition no_separator (c : ascii) : bool := negb (Ascii.eqb c "@" || Ascii.eqb c ".").

End Reference.

(* ===================================================================== *)
(** * A concrete pair of engines *)
(* ===================================================================== *)

(** A small script engine and a small XPath engine on which the general
    statements below are instantiated. *)
Module Demo.

(** The engine's state is the value of the global [result].  It knows the
    assignment that [setResult] issues, the expression [1+1], and a script
    [check(result)] that throws on the item [B]. *)
Definition eval_script (result code : string) : string * JSOutcome :=
  if prefix "var result = " code then
    (substring 14 (String.length code - 16) code, JSReturn None)
  else if (code =? "1+1")%string then (result, JSReturn (Some "2"))
  else if (code =? "check(result)")%string then
    if (result =? "B")%string then (result, JSThrow (Some "Error: bad item"))
    else (result, JSReturn (Some ("ok:" ++ result)))
  else (result, JSThrow (Some "SyntaxError")).

Definition vm : JsVm := {|
  JSContext := string;
  JS_Eval := eval_script;
  JS_SetGlobalStr := fun ctx name value => if (name =? "result")%string then value else ctx
|}.

(** [//li] selects the items [A] and [B]; [//bad[] fails after one partial
    result; any other path selects the path itself. *)
Definition xpath : XPathEngine := {|
  HtmlParseByXpath := fun html xpath value stop =>
    if (xpath =? "//li")%string then (0%Z, (value ++ ["A"; "B"])%list)
    else if (xpath =? "//bad[")%string then (1%Z, (value ++ ["partial"])%list)
    else (0%Z, (value ++ [xpath])%list)
|}.

Definition engine : @QuickJsEngine.t vm := @QuickJsEngine.mk vm (Some "") "" false.

Definition parser : @LegadoRuleParser.t vm := @LegadoRuleParser.mk vm (Some engine) "" false.

Definition js_engine : @JsEngine.t vm := @JsEngine.mk vm true (Some "") "".

Definition processor : @JsRuleProcessor.t vm :=
  @JsRuleProcessor.mk vm (Some js_engine) "" true.

(** The value of one hexadecimal digit. *)
Definition hex_value (c : ascii) : option Z :=
  let n := Z.of_nat (nat_of_ascii c) in
  if ((48 <=? n) && (n <=? 57))%Z then Some (n - 48)%Z
  else if ((65 <=? n) && (n <=? 70))%Z then Some (n - 55)%Z
  else if ((97 <=? n) && (n <=? 102))%Z then Some (n - 87)%Z
  else None.

(** A hexadecimal extraction that reads exactly two digits. *)
Definition hex_extract (s : string) : option Z :=
  match s with
  | String a (String b EmptyString) =>
      match hex_value a, hex_value b with
      | Some x, Some y => Some (16 * x + y)%Z
      | _, _ => None
      end
  | _ => None
  end.

End Demo.

(* ===================================================================== *)
(** * Facts about the string operations *)
(* ===================================================================== *)

Section StdStringFacts.

Lemma length_substring (s : string) :
  forall i n, String.length (substring i n s) = Nat.min n (String.length s - i).
Proof.
  induction s as [|c s IH]; intros [|i] [|n]; simpl; try reflexivity.
  - now rewrite IH, Nat.sub_0_r.
  - now rewrite IH.
  - now rewrite IH.
Qed.

Lemma length_append (a b : string) :
  String.length (a ++ b) = String.length a + String.length b.
Proof. induction a as [|c a IH]; simpl; [reflexivity | now rewrite IH]. Qed.

Lemma append_nil_r (a : string) : a ++ "" = a.
Proof. induction a as [|c a IH]; simpl; [reflexivity | now rewrite IH]. Qed.

Lemma append_assoc (a b c : string) : (a ++ b) ++ c = a ++ (b ++ c).
Proof. induction a as [|x a IH]; simpl; [reflexivity | now rewrite IH]. Qed.

Lemma substring_0_0 (s : string) : substring 0 0 s = "".
Proof. destruct s; reflexivity. Qed.

Lemma substring_all (s : string) : substring 0 (String.length s) s = s.
Proof. induction s as [|c s IH]; simpl; [reflexivity | now rewrite IH]. Qed.

(** A count that reaches past the end is cut at the end. *)
Lemma substring_long (s : string) :
  forall i n, String.length s - i <= n -> substring i n s = substring i (String.length s - i) s.
Proof.
  induction s as [|c s IH]; intros [|i] [|n] H; simpl in *; try reflexivity.
  - lia.
  - f_equal. rewrite (IH 0 n) by lia. now rewrite Nat.sub_0_r.
  - rewrite (IH i 0) by lia. reflexivity.
  - apply IH. lia.
Qed.

Lemma substring_prefix_app (a b : string) :
  substring 0 (String.length a) (a ++ b) = a.
Proof.
  induction a as [|c a IH]; simpl; [apply substring_0_0 | now rewrite IH].
Qed.

Lemma substring_skip_app (a b : string) :
  forall n m, substring (String.length a + n) m (a ++ b) = substring n m b.
Proof. induction a as [|c a IH]; intros n m; simpl; [reflexivity | apply IH]. Qed.

Lemma substring_skip_app0 (a b : string) (m : nat) :
  substring (String.length a) m (a ++ b) = substring 0 m b.
Proof. rewrite <- (Nat.add_0_r (String.length a)). apply substring_skip_app. Qed.

(** Cutting a string at a position. *)
Lemma substring_cut (s : string) :
  forall i, i <= String.length s ->
  s = substring 0 i s ++ substring i (String.length s - i) s.
Proof.
  induction s as [|c s IH]; intros i H.
  - destruct i; [reflexivity | simpl in H; lia].
  - destruct i as [|i].
    + rewrite substring_0_0, Nat.sub_0_r. simpl. now rewrite substring_all.
    + simpl. f_equal. apply IH. simpl in H. lia.
Qed.

Lemma substring_add (s : string) :
  forall i n m, substring i (n + m) s = substring i n s ++ substring (i + n) m s.
Proof.
  induction s as [|c s IH]; intros i n m.
  - destruct i, n, m; reflexivity.
  - destruct i as [|i].
    + destruct n as [|n]; [reflexivity|].
      simpl. f_equal. apply (IH 0 n m).
    + simpl. apply IH.
Qed.

Lemma occurs_at_app (a p b : string) : occurs_at p (a ++ p ++ b) (String.length a).
Proof.
  unfold occurs_at. rewrite substring_skip_app0. apply substring_prefix_app.
Qed.

Lemma occurs_at_bound (p s : string) (i : nat) :
  occurs_at p s i -> p <> "" -> i + String.length p <= String.length s.
Proof.
  unfold occurs_at. intros H Hp.
  assert (L : String.length (substring i (String.length p) s) = String.length p)
    by now rewrite H.
  rewrite length_substring in L.
  assert (0 < String.length p) by (destruct p; [congruence | simpl; lia]).
  lia.
Qed.

(** An occurrence splits the string around it. *)
Lemma occurs_at_split (p s : string) (i : nat) :
  occurs_at p s i -> p <> "" ->
  s = substring 0 i s ++ p ++ substring (i + String.length p)
                                 (String.length s - (i + String.length p)) s.
Proof.
  intros H Hp. pose proof (occurs_at_bound _ _ _ H Hp) as B.
  rewrite (substring_cut s i) at 1 by lia.
  f_equal.
  replace (String.length s - i)
    with (String.length p + (String.length s - (i + String.length p))) by lia.
  rewrite substring_add. now rewrite H.
Qed.

Lemma index_ge (s p : string) : forall n m, index n p s = Some m -> n <= m.
Proof.
  induction s as [|c s IH]; intros [|n] m; simpl; try lia; try discriminate.
  destruct (index n p s) as [k|] eqn:E; [|discriminate].
  intros [= <-]. apply IH in E. lia.
Qed.

Lemma index_skip_app (a p b : string) :
  forall n, index (String.length a + n) p (a ++ b)
            = option_map (Nat.add (String.length a)) (index n p b).
Proof.
  induction a as [|c a IH]; intros n; simpl.
  - now destruct (index n p b).
  - rewrite IH. now destruct (index n p b).
Qed.

(** [find] returns the first occurrence, and [npos] only when there is none. *)
Lemma index_Some_iff (p s : string) (n m : nat) :
  p <> "" ->
  index n p s = Some m <->
  n <= m /\ occurs_at p s m /\ forall j, n <= j -> j < m -> ~ occurs_at p s j.
Proof.
  intros Hp. split.
  - intros H. repeat split.
    + eapply index_ge; eauto.
    + eapply index_correct1; eauto.
    + intros j Hj Hjm. eapply index_correct2; eauto.
  - intros (Hn & Ho & Hmin).
    destruct (index n p s) as [k|] eqn:E.
    + f_equal.
      destruct (Nat.lt_trichotomy k m) as [Hlt | [Heq | Hgt]]; [| assumption |].
      * exfalso. apply (Hmin k); [eapply index_ge; eauto | assumption |].
        eapply index_correct1; eauto.
      * exfalso. eapply index_correct2; eauto.
    + exfalso. eapply index_correct3; eauto.
Qed.

Lemma index_None_iff (p s : string) (n : nat) :
  p <> "" ->
  index n p s = None <-> forall j, n <= j -> ~ occurs_at p s j.
Proof.
  intros Hp. split.
  - intros H j Hj. eapply index_correct3; eauto.
  - intros H. destruct (index n p s) as [k|] eqn:E; [|reflexivity].
    exfalso. apply (H k); [eapply index_ge; eauto | eapply index_correct1; eauto].
Qed.

Lemma find_Some_iff (p s : string) (i : nat) :
  p <> "" -> find s p = Some i <-> first_at p s i.
Proof.
  intros Hp. unfold find, first_at. rewrite index_Some_iff by assumption.
  split.
  - intros (_ & Ho & Hmin). split; [assumption|]. intros j Hj. apply Hmin; lia.
  - intros (Ho & Hmin). repeat split; [lia | assumption |]. intros j _ Hj. now apply Hmin.
Qed.

Lemma find_None_iff (p s : string) :
  p <> "" -> find s p = None <-> absent p s.
Proof.
  intros Hp. unfold find, absent. rewrite index_None_iff by assumption.
  split; intros H j; [apply H; lia | intros _; apply H].
Qed.

Lemma find_Some_occurs (p s : string) :
  p <> "" -> (exists i, find s p = Some i) <-> occurs p s.
Proof.
  intros Hp. split.
  - intros [i H]. exists i. now apply find_Some_iff in H as [H _].
  - intros [i H]. destruct (find s p) as [k|] eqn:E; [eauto|].
    apply find_None_iff in E; [|assumption]. now apply E in H.
Qed.

Lemma find_from_in_range (s p : string) (pos i : nat) :
  p <> "" -> find_from s p pos = Some i -> i + String.length p <= String.length s.
Proof.
  intros Hp H. apply index_correct1 in H. now apply occurs_at_bound.
Qed.

Lemma find_in_range (s p : string) (i : nat) :
  p <> "" -> find s p = Some i -> i + String.length p <= String.length s.
Proof. apply find_from_in_range. Qed.

Lemma find_is_0_prefix (s p : string) : find_is_0 s p = prefix p s.
Proof.
  unfold find_is_0, find. destruct s as [|c s].
  - now destruct p.
  - cbn [index]. destruct (prefix p (String c s)); [reflexivity|].
    now destruct (index 0 p s).
Qed.

Lemma find_is_0_in_range (s p : string) :
  find_is_0 s p = true -> String.length p <= String.length s.
Proof.
  rewrite find_is_0_prefix. intros H. apply prefix_correct in H.
  assert (L : String.length (substring 0 (String.length p) s) = String.length p)
    by now rewrite H.
  rewrite length_substring in L. lia.
Qed.

Lemma first_at_unique (p s : string) (i j : nat) :
  first_at p s i -> first_at p s j -> i = j.
Proof.
  intros [Hi Mi] [Hj Mj].
  destruct (Nat.lt_trichotomy i j) as [H | [H | H]]; [| assumption |].
  - now apply Mj in H.
  - now apply Mi in H.
Qed.

(** [substr] and [substr_from] in range. *)
Lemma substr_0 (s : string) (n : nat) :
  n <= String.length s -> substr s 0 (N.of_nat n) = substring 0 n s.
Proof.
  intros H. unfold substr. f_equal.
  rewrite Nat.sub_0_r, N.min_l by lia. apply Nat2N.id.
Qed.

Lemma substr_nat (s : string) (pos n : nat) :
  substr s pos (N.of_nat n) = substring pos n s.
Proof.
  unfold substr.
  destruct (Nat.le_gt_cases n (String.length s - pos)) as [H | H].
  - rewrite N.min_l by lia. now rewrite Nat2N.id.
  - rewrite N.min_r by lia. rewrite Nat2N.id. symmetry. apply substring_long. lia.
Qed.

Lemma substr_from_app (a b : string) : substr_from (a ++ b) (String.length a) = b.
Proof.
  unfold substr_from. rewrite substring_skip_app0, length_append.
  replace (String.length a + String.length b - String.length a) with (String.length b) by lia.
  apply substring_all.
Qed.

Lemma size_t_sub_exact (a b : nat) :
  b <= a -> size_t_sub (N.of_nat a) (N.of_nat b) = N.of_nat (a - b).
Proof.
  intros H. unfold size_t_sub.
  destruct (N.leb_spec (N.of_nat b) (N.of_nat a)); lia.
Qed.

(** On operands that fit in 64 bits [size_t_sub] is subtraction modulo [2^64]. *)
Lemma size_t_sub_mod (a b : N) :
  (a < 2 ^ 64)%N -> (b < 2 ^ 64)%N ->
  size_t_sub a b = ((a + 2 ^ 64 - b) mod 2 ^ 64)%N.
Proof.
  intros Ha Hb. unfold size_t_sub.
  destruct (N.leb_spec b a) as [H | H].
  - replace (a + 2 ^ 64 - b)%N with (a - b + 1 * 2 ^ 64)%N by lia.
    rewrite N.Div0.mod_add. symmetry. apply N.mod_small. lia.
  - symmetry. apply N.mod_small. lia.
Qed.

Lemma substring_app_l (a b : string) :
  forall i n, i + n <= String.length a -> substring i n (a ++ b) = substring i n a.
Proof.
  induction a as [|c a IH]; intros i n H; simpl in H.
  - assert (i = 0) by lia. assert (n = 0) by lia. subst. simpl.
    now rewrite substring_0_0.
  - destruct i as [|i].
    + destruct n as [|n]; [reflexivity|]. simpl. f_equal. apply IH. lia.
    + simpl. apply IH. lia.
Qed.

Lemma substring_mid_app (a b c : string) :
  substring (String.length a) (String.length b) (a ++ b ++ c) = b.
Proof. rewrite substring_skip_app0. apply substring_prefix_app. Qed.

Lemma substr_from_skip (a b : string) (pos : nat) :
  substr_from (a ++ b) (String.length a + pos) = substr_from b pos.
Proof.
  unfold substr_from. rewrite substring_skip_app, length_append. f_equal. lia.
Qed.

Lemma substr_skip (a b : string) (pos : nat) (n : N) :
  substr (a ++ b) (String.length a + pos) n = substr b pos n.
Proof.
  unfold substr. rewrite substring_skip_app, length_append. do 3 f_equal. lia.
Qed.

Lemma find_from_skip (a b p : string) (pos : nat) :
  find_from (a ++ b) p (String.length a + pos)
  = option_map (Nat.add (String.length a)) (find_from b p pos).
Proof. apply index_skip_app. Qed.

Lemma find_from_ge (s p : string) (pos m : nat) :
  find_from s p pos = Some m -> pos <= m.
Proof. apply index_ge. Qed.

Lemma size_t_sub_shift (k a b : nat) :
  b <= a ->
  size_t_sub (N.of_nat (k + a)) (N.of_nat (k + b)) = size_t_sub (N.of_nat a) (N.of_nat b).
Proof.
  intros H. rewrite !size_t_sub_exact by lia. f_equal. lia.
Qed.

Lemma index_skip_non_occurrence (p s : string) (n : nat) :
  p <> "" -> ~ occurs_at p s n -> index n p s = index (S n) p s.
Proof.
  intros Hp Hn. destruct (index (S n) p s) as [m|] eqn:E.
  - apply index_Some_iff in E as (Hle & Ho & Hmin); [|assumption].
    apply index_Some_iff; [assumption|]. repeat split; [lia | assumption |].
    intros j Hj Hjm. destruct (Nat.eq_dec j n) as [->|]; [assumption | apply Hmin; lia].
  - apply index_None_iff; [assumption|].
    intros j Hj. destruct (Nat.eq_dec j n) as [->|]; [assumption|].
    eapply index_None_iff in E; [apply E | assumption | lia].
Qed.

Lemma occurs_at_first_char (p s : string) (j : nat) (c : ascii) :
  occurs_at p s j -> get 0 p = Some c -> get j s = Some c.
Proof.
  unfold occurs_at. intros H G.
  destruct p as [|c' p]; [discriminate|].
  rewrite <- H in G.
  rewrite substring_correct1 in G by (simpl; lia). exact G.
Qed.

(** A closing marker cannot start inside the opening marker. *)
Lemma find_close_after_open (pre rest : string) :
  find_from (pre ++ "{{" ++ rest) "}}" (String.length pre)
  = option_map (Nat.add (String.length pre + 2)) (find rest "}}").
Proof.
  assert (G0 : get (String.length pre) (pre ++ "{{" ++ rest) = Some "{"%char).
  { rewrite <- (Nat.add_0_l (String.length pre)), <- append_correct2. reflexivity. }
  assert (G1 : get (S (String.length pre)) (pre ++ "{{" ++ rest) = Some "{"%char).
  { change (S (String.length pre)) with (1 + String.length pre).
    rewrite <- append_correct2. reflexivity. }
  unfold find_from, find.
  rewrite index_skip_non_occurrence; [| discriminate |].
  2:{ intros H. apply occurs_at_first_char with (c := "}"%char) in H; [congruence | reflexivity]. }
  rewrite index_skip_non_occurrence; [| discriminate |].
  2:{ intros H. apply occurs_at_first_char with (c := "}"%char) in H; [congruence | reflexivity]. }
  replace (pre ++ "{{" ++ rest) with ((pre ++ "{{") ++ rest) by apply append_assoc.
  replace (S (S (String.length pre))) with (String.length (pre ++ "{{") + 0)
    by (rewrite length_append; simpl; lia).
  rewrite index_skip_app, length_append. reflexivity.
Qed.

Lemma first_iteration_prefix (pre rest : string) :
  substr (pre ++ rest) 0 (size_t_sub (N.of_nat (String.length pre)) (N.of_nat 0)) = pre.
Proof.
  rewrite size_t_sub_exact, Nat.sub_0_r, substr_0 by (rewrite ?length_append; lia).
  apply substring_prefix_app.
Qed.

Lemma all_chars_app (f : ascii -> bool) (a b : string) :
  Spec.all_chars f (a ++ b) = Spec.all_chars f a && Spec.all_chars f b.
Proof. induction a as [|c a IH]; simpl; [reflexivity | now rewrite IH, andb_assoc]. Qed.

Lemma all_chars_weaken (f g : ascii -> bool) (s : string) :
  (forall c, f c = true -> g c = true) ->
  Spec.all_chars f s = true -> Spec.all_chars g s = true.
Proof.
  intros W. induction s as [|c s IH]; [reflexivity|]. cbn [Spec.all_chars].
  intros H. apply andb_true_iff in H as [Hc Hs]. apply andb_true_iff. auto.
Qed.

End StdStringFacts.

(* ===================================================================== *)
(** * The rule-chain splitters *)
(* ===================================================================== *)

Section SplitterFacts.

Lemma tags_do_not_overlap (s : string) (i j : nat) :
  occurs_at "<js>" s i -> occurs_at "</js>" s j -> i < j -> i + 4 <= j.
Proof.
  unfold occurs_at. intros Hi Hj Hij.
  destruct (Nat.le_gt_cases (i + 4) j) as [H|H]; [assumption|exfalso].
  assert (G : get 0 (substring j (String.length "</js>") s) = Some "<"%char) by now rewrite Hj.
  rewrite substring_correct1 in G by (simpl; lia).
  assert (K : forall k, k < 4 -> get k (substring i (String.length "<js>") s) = get k "<js>")
    by (intros; now rewrite Hi).
  assert (j = 1 + i \/ j = 2 + i \/ j = 3 + i) as [-> | [-> | ->]] by lia.
  - specialize (K 1 ltac:(lia)). rewrite substring_correct1 in K by (simpl; lia). simpl in *. congruence.
  - specialize (K 2 ltac:(lia)). rewrite substring_correct1 in K by (simpl; lia). simpl in *. congruence.
  - specialize (K 3 ltac:(lia)). rewrite substring_correct1 in K by (simpl; lia). simpl in *. congruence.
Qed.

(** Every [<js>] ... [</js>] pair in this order has the shape of rule 2. *)
Lemma js_tags_shape (rule : string) (i j : nat) :
  occurs_at "<js>" rule i -> occurs_at "</js>" rule j -> i < j ->
  exists base body rest,
    rule = base ++ "<js>" ++ body ++ "</js>" ++ rest
    /\ String.length base = i /\ j = i + 4 + String.length body.
Proof.
  intros Hi Hj Hij.
  pose proof (tags_do_not_overlap _ _ _ Hi Hj Hij) as Hsep.
  pose proof (occurs_at_bound _ _ _ Hi ltac:(discriminate)) as Bi.
  pose proof (occurs_at_bound _ _ _ Hj ltac:(discriminate)) as Bj.
  simpl in Bi, Bj.
  pose proof (occurs_at_split _ _ _ Hi ltac:(discriminate)) as Si.
  simpl String.length in Si.
  set (base := substring 0 i rule) in *.
  set (after := substring (i + 4) (String.length rule - (i + 4)) rule) in *.
  assert (Lb : String.length base = i)
    by (unfold base; rewrite length_substring; lia).
  assert (La : String.length after = String.length rule - (i + 4))
    by (unfold after; rewrite length_substring; lia).
  assert (Ha : occurs_at "</js>" after (j - (i + 4))).
  { unfold occurs_at in *.
    rewrite <- (substring_skip_app (base ++ "<js>") after).
    rewrite append_assoc, <- Si.
    replace (String.length (base ++ "<js>") + (j - (i + 4))) with j
      by (rewrite length_append; simpl; lia).
    exact Hj. }
  pose proof (occurs_at_split _ _ _ Ha ltac:(discriminate)) as Sa.
  exists base, (substring 0 (j - (i + 4)) after),
    (substring (j - (i + 4) + String.length "</js>")
       (String.length after - (j - (i + 4) + String.length "</js>")) after).
  split; [| split].
  - rewrite Si at 1. do 2 f_equal. exact Sa.
  - exact Lb.
  - rewrite length_substring. simpl in *. lia.
Qed.

Lemma ParseRule_nonempty (rule : string) :
  rule <> "" ->
  JsRuleProcessor.ParseRule (Some rule) =
    match find rule "@js:" with
    | Some jsPos =>
        (substr rule 0 (N.of_nat jsPos), substr_from rule (jsPos + 4), false)
    | None =>
        match find rule "<js>", find rule "</js>" with
        | Some startTag, Some endTag =>
            if (startTag <? endTag)%nat then
              (substr rule 0 (N.of_nat startTag),
               substr rule (startTag + 4)
                 (size_t_sub (size_t_sub (N.of_nat endTag) (N.of_nat startTag)) 4),
               false)
            else JsRuleProcessor.template_or_plain rule
        | _, _ => JsRuleProcessor.template_or_plain rule
        end
    end.
Proof. destruct rule; [congruence | reflexivity]. Qed.

Lemma ParseRule_at_js (rule base tail : string) :
  rule = base ++ "@js:" ++ tail ->
  first_at "@js:" rule (String.length base) ->
  JsRuleProcessor.ParseRule (Some rule) = (base, tail, false).
Proof.
  intros E F. rewrite ParseRule_nonempty by (subst; destruct base; discriminate).
  apply find_Some_iff in F; [|discriminate]. rewrite F.
  rewrite substr_0 by (subst; rewrite length_append; lia).
  subst rule. rewrite substring_prefix_app.
  replace (base ++ "@js:" ++ tail) with ((base ++ "@js:") ++ tail)
    by apply append_assoc.
  replace (String.length base + 4) with (String.length (base ++ "@js:"))
    by (rewrite length_append; reflexivity).
  now rewrite substr_from_app.
Qed.

Lemma ParseRule_js_tags (rule base body rest : string) :
  absent "@js:" rule ->
  rule = base ++ "<js>" ++ body ++ "</js>" ++ rest ->
  first_at "<js>" rule (String.length base) ->
  first_at "</js>" rule (String.length base + 4 + String.length body) ->
  JsRuleProcessor.ParseRule (Some rule) = (base, body, false).
Proof.
  intros A E F1 F2. rewrite ParseRule_nonempty by (subst; destruct base; discriminate).
  apply find_None_iff in A; [|discriminate]. rewrite A.
  apply find_Some_iff in F1; [|discriminate]. rewrite F1.
  apply find_Some_iff in F2; [|discriminate]. rewrite F2.
  destruct (Nat.ltb_spec (String.length base) (String.length base + 4 + String.length body));
    [|lia].
  rewrite substr_0 by (subst; rewrite length_append; lia).
  rewrite size_t_sub_exact by lia.
  change 4%N with (N.of_nat 4). rewrite size_t_sub_exact by lia.
  rewrite substr_nat.
  replace (String.length base + 4 + String.length body - String.length base - 4)
    with (String.length body) by lia.
  subst rule. rewrite substring_prefix_app.
  replace (base ++ "<js>" ++ body ++ "</js>" ++ rest)
    with ((base ++ "<js>") ++ body ++ "</js>" ++ rest) by apply append_assoc.
  replace (String.length base + 4) with (String.length (base ++ "<js>"))
    by (rewrite length_append; reflexivity).
  now rewrite substring_mid_app.
Qed.

Lemma no_pair_no_split (rule : string) :
  rule <> "" -> absent "@js:" rule -> ~ Spec.js_pair rule ->
  JsRuleProcessor.ParseRule (Some rule) = JsRuleProcessor.template_or_plain rule.
Proof.
  intros N A P. rewrite ParseRule_nonempty by assumption.
  apply find_None_iff in A; [|discriminate]. rewrite A.
  destruct (find rule "<js>") as [i|] eqn:E1; [|reflexivity].
  destruct (find rule "</js>") as [j|] eqn:E2; [|reflexivity].
  destruct (Nat.ltb_spec i j) as [H|H]; [|reflexivity].
  exfalso. apply P. exists i, j.
  apply find_Some_iff in E1; [|discriminate].
  apply find_Some_iff in E2; [|discriminate]. auto.
Qed.

Lemma template_or_plain_template (rule : string) :
  occurs "{{" rule -> occurs "}}" rule ->
  JsRuleProcessor.template_or_plain rule = ("", rule, true).
Proof.
  intros O1 O2. unfold JsRuleProcessor.template_or_plain.
  apply find_Some_occurs in O1 as [i ->]; [|discriminate].
  apply find_Some_occurs in O2 as [j ->]; [|discriminate]. reflexivity.
Qed.

Lemma template_or_plain_plain (rule : string) :
  ~ (occurs "{{" rule /\ occurs "}}" rule) ->
  JsRuleProcessor.template_or_plain rule = (rule, "", false).
Proof.
  intros N. unfold JsRuleProcessor.template_or_plain.
  destruct (find rule "{{") as [i|] eqn:E1; [|reflexivity].
  destruct (find rule "}}") as [j|] eqn:E2; [|reflexivity].
  exfalso. apply N. split; apply find_Some_occurs; try discriminate; eauto.
Qed.

Lemma split_sound (rule : string) (r : string * string * bool) :
  Spec.split rule r -> JsRuleProcessor.ParseRule (Some rule) = r.
Proof.
  intros [base tail E F | base body rest A E F1 F2 | A P O1 O2 | A P N].
  - now apply ParseRule_at_js.
  - eapply ParseRule_js_tags; eauto.
  - destruct rule as [|c rule].
    + destruct O1 as [i O1]. apply occurs_at_bound in O1; [simpl in O1; lia | discriminate].
    + rewrite no_pair_no_split by (auto; discriminate).
      now apply template_or_plain_template.
  - destruct rule as [|c rule]; [reflexivity|].
    rewrite no_pair_no_split by (auto; discriminate).
    now apply template_or_plain_plain.
Qed.

Lemma split_no_pair (rule : string) :
  absent "@js:" rule -> ~ Spec.js_pair rule ->
  Spec.split rule (JsRuleProcessor.ParseRule (Some rule)).
Proof.
  intros A P.
  destruct rule as [|c rule].
  - apply Spec.split_plain; auto.
    intros [[i O] _]. apply occurs_at_bound in O; [simpl in O; lia | discriminate].
  - rewrite no_pair_no_split by (auto; discriminate).
    destruct (find (String c rule) "{{") as [i|] eqn:E1.
    + destruct (find (String c rule) "}}") as [j|] eqn:E2.
      * assert (O1 : occurs "{{" (String c rule))
          by (apply find_Some_occurs; [discriminate | eauto]).
        assert (O2 : occurs "}}" (String c rule))
          by (apply find_Some_occurs; [discriminate | eauto]).
        rewrite template_or_plain_template by assumption.
        now apply Spec.split_template.
      * assert (N : ~ (occurs "{{" (String c rule) /\ occurs "}}" (String c rule))).
        { intros [_ O]. apply find_Some_occurs in O as [j O]; [congruence | discriminate]. }
        rewrite template_or_plain_plain by assumption.
        now apply Spec.split_plain.
    + assert (N : ~ (occurs "{{" (String c rule) /\ occurs "}}" (String c rule))).
      { intros [O _]. apply find_Some_occurs in O as [j O]; [congruence | discriminate]. }
      rewrite template_or_plain_plain by assumption.
      now apply Spec.split_plain.
Qed.

Lemma split_total (rule : string) :
  Spec.split rule (JsRuleProcessor.ParseRule (Some rule)).
Proof.
  destruct (find rule "@js:") as [pos|] eqn:E.
  - apply find_Some_iff in E; [|discriminate].
    pose proof E as [Ho _].
    pose proof (occurs_at_split _ _ _ Ho ltac:(discriminate)) as S.
    pose proof (occurs_at_bound _ _ _ Ho ltac:(discriminate)) as B. simpl in B.
    assert (L : String.length (substring 0 pos rule) = pos)
      by (rewrite length_substring; lia).
    rewrite <- L in E.
    rewrite (ParseRule_at_js _ _ _ S E).
    now apply Spec.split_at_js.
  - apply find_None_iff in E; [|discriminate].
    destruct (find rule "<js>") as [i|] eqn:E1.
    + destruct (find rule "</js>") as [j|] eqn:E2.
      * apply find_Some_iff in E1; [|discriminate].
        apply find_Some_iff in E2; [|discriminate].
        destruct (Nat.lt_ge_cases i j) as [H|H].
        -- destruct (js_tags_shape rule i j (proj1 E1) (proj1 E2) H)
             as (base & body & rest & S & Lb & Lj).
           subst i j.
           rewrite (ParseRule_js_tags _ _ _ _ E S E1 E2).
           now apply Spec.split_js_tags with rest.
        -- apply split_no_pair; [assumption|].
           intros (i' & j' & F1 & F2 & Hlt).
           rewrite (first_at_unique _ _ _ _ F1 E1) in Hlt.
           rewrite (first_at_unique _ _ _ _ F2 E2) in Hlt. lia.
      * apply split_no_pair; [assumption|].
        intros (i' & j' & F1 & F2 & Hlt).
        apply find_Some_iff in F2; [congruence | discriminate].
    + apply split_no_pair; [assumption|].
      intros (i' & j' & F1 & F2 & Hlt).
      apply find_Some_iff in F1; [congruence | discriminate].
Qed.


Lemma ParseRule_split_iff (rule : string) (r : string * string * bool) :
  Spec.split rule r <-> JsRuleProcessor.ParseRule (Some rule) = r.
Proof.
  split.
  - apply split_sound.
  - intros <-. apply split_total.
Qed.

Lemma SplitRule_at_js (rule : string) :
  occurs "@js:" rule ->
  LegadoRuleParser.SplitRule rule = fst (JsRuleProcessor.ParseRule (Some rule)).
Proof.
  intros O.
  assert (N : rule <> "").
  { intros ->. destruct O as [i O].
    apply occurs_at_bound in O; [simpl in O; lia | discriminate]. }
  rewrite ParseRule_nonempty by assumption. unfold LegadoRuleParser.SplitRule.
  apply find_Some_occurs in O as [i ->]; [reflexivity | discriminate].
Qed.

Lemma SplitRule_js_tags (rule : string) :
  absent "@js:" rule -> Spec.js_pair rule ->
  LegadoRuleParser.SplitRule rule = fst (JsRuleProcessor.ParseRule (Some rule)).
Proof.
  intros A (i & j & F1 & F2 & Hlt).
  assert (N : rule <> "").
  { intros ->. destruct F1 as [O _].
    apply occurs_at_bound in O; [simpl in O; lia | discriminate]. }
  rewrite ParseRule_nonempty by assumption. unfold LegadoRuleParser.SplitRule.
  apply find_None_iff in A; [|discriminate]. rewrite A.
  apply find_Some_iff in F1; [|discriminate]. rewrite F1.
  apply find_Some_iff in F2; [|discriminate]. rewrite F2.
  destruct (Nat.ltb_spec i j); [reflexivity | lia].
Qed.

Lemma SplitRule_no_tags (rule : string) :
  absent "@js:" rule -> absent "<js>" rule \/ absent "</js>" rule ->
  LegadoRuleParser.SplitRule rule = (rule, "").
Proof.
  intros A T. unfold LegadoRuleParser.SplitRule.
  apply find_None_iff in A; [|discriminate]. rewrite A.
  destruct T as [T | T]; apply find_None_iff in T; try discriminate; rewrite T.
  - reflexivity.
  - now destruct (find rule "<js>").
Qed.

(** C1, as the code has it.  [JsRuleProcessor::ParseRule] obeys the
    precedence of section 4.1 on every rule: its result is the one, and the
    only one, that the four rules allow (an [@js:] marker wins and splits
    at its first occurrence; otherwise an opening [<js>] placed before the
    closing [</js>] gives the text before and the text between; otherwise a
    rule holding both [{{] and [}}] is a template, whole in the tail;
    otherwise the rule is the base), and the four examples hold.
    [LegadoRuleParser::SplitRule], which has two outputs, gives the same
    base and tail on a rule that holds [@js:] or has [<js>] before
    [</js>], and returns the whole rule as the base when a tag is missing,
    also when the rule holds [{{] and [}}]: it has no template rule. *)
Theorem splitters_obey_precedence :
  (forall rule r, Spec.split rule r <-> JsRuleProcessor.ParseRule (Some rule) = r)
  /\ JsRuleProcessor.ParseRule (Some "a@js:b") = ("a", "b", false)
  /\ JsRuleProcessor.ParseRule (Some "<js>x</js>") = ("", "x", false)
  /\ JsRuleProcessor.ParseRule (Some "{{x}}") = ("", "{{x}}", true)
  /\ JsRuleProcessor.ParseRule (Some "") = ("", "", false)
  /\ (forall rule, occurs "@js:" rule ->
        LegadoRuleParser.SplitRule rule = fst (JsRuleProcessor.ParseRule (Some rule)))
  /\ (forall rule, absent "@js:" rule -> Spec.js_pair rule ->
        LegadoRuleParser.SplitRule rule = fst (JsRuleProcessor.ParseRule (Some rule)))
  /\ (forall rule, absent "@js:" rule -> absent "<js>" rule \/ absent "</js>" rule ->
        LegadoRuleParser.SplitRule rule = (rule, ""))
  /\ LegadoRuleParser.SplitRule "a@js:b" = ("a", "b")
  /\ LegadoRuleParser.SplitRule "<js>x</js>" = ("", "x")
  /\ LegadoRuleParser.SplitRule "{{x}}" = ("{{x}}", "")
  /\ LegadoRuleParser.SplitRule "" = ("", "").
Proof.
  split; [exact ParseRule_split_iff|].
  do 4 (split; [reflexivity|]).
  split; [exact SplitRule_at_js|].
  split; [exact SplitRule_js_tags|].
  split; [exact SplitRule_no_tags|].
  repeat split.
Qed.

(** C1 as the claim states it fails for [LegadoRuleParser::SplitRule]: the
    rule [{{x}}] is not split as a template, it is returned as the base. *)
Lemma SplitRule_has_no_template_rule :
  LegadoRuleParser.SplitRule "{{x}}" = ("{{x}}", "")
  /\ LegadoRuleParser.SplitRule "{{x}}" <> ("", "{{x}}").
Proof. split; [reflexivity | discriminate]. Qed.

(** [SplitRule] does not compare the positions of the two tags: when
    [</js>] comes first the length it passes to [substr] wraps around, and
    the tail is everything after [<js>]. *)
Lemma SplitRule_ignores_tag_order :
  LegadoRuleParser.SplitRule "</js>a<js>bc" = ("</js>a", "bc")
  /\ JsRuleProcessor.ParseRule (Some "</js>a<js>bc") = ("</js>a<js>bc", "", false).
Proof. split; reflexivity. Qed.

End SplitterFacts.

(* ===================================================================== *)
(** * The CSS-to-XPath compiler *)
(* ===================================================================== *)

Section CssFacts.
Import LegadoRuleParser.

Lemma fold_left_append (f : string -> string) (l : list string) :
  forall init, fold_left (fun xpath p => xpath ++ f p) l init
               = init ++ String.concat "" (map f l).
Proof.
  induction l as [|p l IH]; intros init; simpl.
  - now rewrite append_nil_r.
  - rewrite IH, append_assoc. destruct l; simpl; [now rewrite append_nil_r | reflexivity].
Qed.

(** The selector and the extraction suffix that [CssToXPath] separates. *)
Lemma CssToXPath_no_at (selector : string) :
  absent "@" selector ->
  CssToXPath selector = "/" ++ String.concat "" (map part_xpath (tokens selector)).
Proof.
  intros A. unfold CssToXPath.
  apply find_None_iff in A; [|discriminate]. rewrite A.
  rewrite fold_left_append. unfold extract_suffix. simpl. now rewrite append_nil_r.
Qed.

Lemma CssToXPath_suffix (selector attrName : string) :
  selector <> "" -> absent "@" selector ->
  CssToXPath (selector ++ "@" ++ attrName) = CssToXPath selector ++ extract_suffix attrName.
Proof.
  intros N A.
  rewrite (CssToXPath_no_at selector A).
  unfold CssToXPath.
  assert (F : find (selector ++ "@" ++ attrName) "@" = Some (String.length selector)).
  { apply find_Some_iff; [discriminate|]. split.
    - apply occurs_at_app.
    - intros j Hj Ho. apply (A j). unfold occurs_at in *. simpl String.length in *.
      rewrite <- Ho. symmetry. apply substring_app_l. lia. }
  rewrite F.
  destruct (Nat.ltb_spec 0 (String.length selector)) as [H|H];
    [| destruct selector; [congruence | simpl in H; lia]].
  rewrite substr_0 by (rewrite length_append; lia).
  rewrite substring_prefix_app.
  replace (selector ++ "@" ++ attrName) with ((selector ++ "@") ++ attrName)
    by apply append_assoc.
  replace (String.length selector + 1) with (String.length (selector ++ "@"))
    by (rewrite length_append; reflexivity).
  rewrite substr_from_app, fold_left_append. reflexivity.
Qed.

Ltac normalize_appends :=
  simpl; repeat (rewrite append_assoc; simpl); rewrite ?append_nil_r.

Lemma predicate_of_conditions (q : Part) :
  predicate_of q = String.concat " and " (Spec.conditions q).
Proof.
  destruct q as [t c i a v]. unfold predicate_of, Spec.conditions. cbn [className id attr attrValue].
  destruct (empty c), (empty i), (empty a), (empty v); normalize_appends; reflexivity.
Qed.

Lemma part_xpath_shape (p : string) :
  part_xpath p =
    "/" ++ (if empty (tag (parse_part p)) then "*" else tag (parse_part p))
        ++ Spec.bracket (Spec.conditions (parse_part p)).
Proof.
  unfold part_xpath, Spec.bracket. rewrite predicate_of_conditions.
  destruct (parse_part p) as [t c i a v]. unfold Spec.conditions. cbn [className id attr attrValue tag].
  destruct (empty c), (empty i), (empty a), (empty v); reflexivity.
Qed.

Lemma CssToXPath_never_empty (css : string) : CssToXPath css <> "".
Proof.
  unfold CssToXPath.
  destruct (match find css "@" with
            | Some atPos => if (0 <? atPos)%nat then _ else _
            | None => _ end) as [a sel].
  rewrite fold_left_append. discriminate.
Qed.

(** A non-empty string without blanks is one part. *)
Lemma tokens_from_no_blank (p : string) :
  forall cur, Spec.all_chars (fun c => negb (isspace c)) p = true ->
  tokens_from cur p = if empty (cur ++ p) then [] else [cur ++ p].
Proof.
  induction p as [|c p IH]; intros cur H.
  - cbn [tokens_from]. now rewrite append_nil_r.
  - cbn [Spec.all_chars] in H. apply andb_true_iff in H as [Hc Hp].
    cbn [tokens_from]. apply negb_true_iff in Hc. rewrite Hc.
    rewrite IH by assumption. now rewrite append_assoc.
Qed.

Lemma tokens_single (p : string) :
  p <> "" -> Spec.all_chars (fun c => negb (isspace c)) p = true -> tokens p = [p].
Proof.
  intros N H. unfold tokens. rewrite tokens_from_no_blank by assumption.
  destruct p; [congruence | reflexivity].
Qed.

Lemma CssToXPath_single_part (p : string) :
  p <> "" -> Spec.all_chars (fun c => negb (isspace c)) p = true -> absent "@" p ->
  CssToXPath p =
    "//" ++ (if empty (tag (parse_part p)) then "*" else tag (parse_part p))
         ++ Spec.bracket (Spec.conditions (parse_part p)).
Proof.
  intros N B A. rewrite CssToXPath_no_at by assumption. rewrite tokens_single by assumption.
  cbn [map String.concat]. now rewrite part_xpath_shape.
Qed.

Lemma is_plain_inv (c : ascii) :
  Spec.is_plain c = true ->
  isspace c = false /\ is_name_end c = false /\ is_attr_end c = false
  /\ is_quote c = false /\ Ascii.eqb c "@" = false.
Proof.
  unfold Spec.is_plain. rewrite negb_true_iff, !orb_false_iff. tauto.
Qed.

Lemma scan_stops (stop : ascii -> bool) (a : string) (c : ascii) (r : string) :
  Spec.all_chars (fun x => negb (stop x)) a = true -> stop c = true ->
  scan stop (a ++ String c r) = (a, String c r).
Proof.
  intros H Hc. induction a as [|x a IH]; cbn [append scan].
  - now rewrite Hc.
  - cbn [Spec.all_chars] in H. apply andb_true_iff in H as [Hx Ha].
    apply negb_true_iff in Hx. rewrite Hx, IH by assumption. reflexivity.
Qed.

Lemma absent_at_sign (s : string) :
  Spec.all_chars (fun c => negb (Ascii.eqb c "@")) s = true -> absent "@" s.
Proof.
  intros H i O. unfold occurs_at in O. cbn [String.length] in O.
  revert i O. induction s as [|c s IH]; intros i O.
  - destruct i; discriminate.
  - cbn [Spec.all_chars] in H. apply andb_true_iff in H as [Hc Hs].
    destruct i as [|i].
    + cbn [substring] in O. injection O as E _. subst c. discriminate.
    + cbn [substring] in O. now apply (IH Hs i).
Qed.

Lemma at_char_here (c : ascii) (r : string) : at_char c (String c r) = Some r.
Proof. unfold at_char. now rewrite Ascii.eqb_refl. Qed.

Lemma parse_part_full (tagName cls idn attrName val : string) :
  Spec.all_chars Spec.is_plain tagName = true ->
  Spec.all_chars Spec.is_plain cls = true ->
  Spec.all_chars Spec.is_plain idn = true ->
  Spec.all_chars Spec.is_plain attrName = true ->
  Spec.all_chars Spec.is_plain val = true ->
  parse_part (tagName ++ "." ++ cls ++ "#" ++ idn ++ "[" ++ attrName ++ "=" ++ val ++ "]")
  = mkPart (if empty tagName then "*" else tagName) cls idn attrName val.
Proof.
  intros Ht Hc Hi Ha Hv.
  assert (N : forall s, Spec.all_chars Spec.is_plain s = true ->
                        Spec.all_chars (fun x => negb (is_name_end x)) s = true).
  { intros s. apply all_chars_weaken. intros c H.
    apply is_plain_inv in H as (_ & H & _). now rewrite H. }
  assert (A : Spec.all_chars (fun x => negb (is_attr_end x)) attrName = true).
  { revert Ha. apply all_chars_weaken. intros c H.
    apply is_plain_inv in H as (_ & _ & H & _). now rewrite H. }
  assert (V : Spec.all_chars (fun x => negb (is_value_end x)) val = true).
  { revert Hv. apply all_chars_weaken. intros c H.
    apply is_plain_inv in H as (_ & _ & H1 & H2 & _).
    unfold is_value_end. rewrite H2. unfold is_attr_end in H1.
    apply orb_false_iff in H1 as [_ H1]. now rewrite H1. }
  unfold parse_part.
  change (tagName ++ "." ++ cls ++ "#" ++ idn ++ "[" ++ attrName ++ "=" ++ val ++ "]")
    with (tagName ++ String "." (cls ++ "#" ++ idn ++ "[" ++ attrName ++ "=" ++ val ++ "]")).
  rewrite (scan_stops is_name_end tagName) by (auto; reflexivity).
  rewrite at_char_here.
  change (cls ++ "#" ++ idn ++ "[" ++ attrName ++ "=" ++ val ++ "]")
    with (cls ++ String "#" (idn ++ "[" ++ attrName ++ "=" ++ val ++ "]")).
  rewrite (scan_stops is_name_end cls) by (auto; reflexivity).
  rewrite at_char_here.
  change (idn ++ "[" ++ attrName ++ "=" ++ val ++ "]")
    with (idn ++ String "[" (attrName ++ "=" ++ val ++ "]")).
  rewrite (scan_stops is_name_end idn) by (auto; reflexivity).
  rewrite at_char_here.
  change (attrName ++ "=" ++ val ++ "]") with (attrName ++ String "=" (val ++ "]")).
  rewrite (scan_stops is_attr_end attrName) by (auto; reflexivity).
  rewrite at_char_here.
  assert (Q : match val ++ "]" with
              | String c r' => if is_quote c then r' else val ++ "]"
              | EmptyString => val ++ "]"
              end = val ++ "]").
  { destruct val as [|c v]; [reflexivity|]. cbn [append].
    cbn [Spec.all_chars] in Hv. apply andb_true_iff in Hv as [Hq _].
    apply is_plain_inv in Hq as (_ & _ & _ & Hq & _). now rewrite Hq. }
  rewrite Q.
  change (val ++ "]") with (val ++ String "]" "").
  rewrite (scan_stops is_value_end val) by (auto; reflexivity).
  cbn [fst]. f_equal.
  destruct tagName as [|c t]; [reflexivity|].
  cbn [empty]. 
  replace (("*" ++ String c t =? "*")%string) with false
    by (symmetry; apply String.eqb_neq; cbn; congruence).
  apply (substr_from_app "*" (String c t)).
Qed.

Lemma plain_no_blank (s : string) :
  Spec.all_chars Spec.is_plain s = true ->
  Spec.all_chars (fun c => negb (isspace c)) s = true.
Proof.
  apply all_chars_weaken. intros c H. apply is_plain_inv in H as (H & _). now rewrite H.
Qed.

Lemma plain_no_at (s : string) :
  Spec.all_chars Spec.is_plain s = true ->
  Spec.all_chars (fun c => negb (Ascii.eqb c "@")) s = true.
Proof.
  apply all_chars_weaken. intros c H.
  apply is_plain_inv in H as (_ & _ & _ & _ & H). now rewrite H.
Qed.

Ltac split_all_chars :=
  repeat (rewrite all_chars_app; apply andb_true_iff; split); try reflexivity.

Lemma CssToXPath_full_part (tagName cls idn attrName val : string) :
  Spec.all_chars Spec.is_plain tagName = true ->
  Spec.all_chars Spec.is_plain cls = true ->
  Spec.all_chars Spec.is_plain idn = true ->
  Spec.all_chars Spec.is_plain attrName = true ->
  Spec.all_chars Spec.is_plain val = true ->
  CssToXPath (tagName ++ "." ++ cls ++ "#" ++ idn ++ "[" ++ attrName ++ "=" ++ val ++ "]")
  = "//" ++ (if empty tagName then "*" else tagName)
         ++ Spec.bracket (Spec.conditions (mkPart "" cls idn attrName val)).
Proof.
  intros Ht Hc Hi Ha Hv.
  rewrite CssToXPath_single_part.
  - rewrite parse_part_full by assumption. cbn [tag].
    replace (empty (if empty tagName then "*" else tagName)) with false
      by (now destruct tagName).
    reflexivity.
  - destruct tagName; discriminate.
  - split_all_chars; now apply plain_no_blank.
  - apply absent_at_sign. split_all_chars; now apply plain_no_at.
Qed.

Lemma CssToXPath_full_part_text (tagName cls idn attrName val : string) :
  tagName <> "" -> cls <> "" -> idn <> "" -> attrName <> "" -> val <> "" ->
  Spec.all_chars Spec.is_plain tagName = true ->
  Spec.all_chars Spec.is_plain cls = true ->
  Spec.all_chars Spec.is_plain idn = true ->
  Spec.all_chars Spec.is_plain attrName = true ->
  Spec.all_chars Spec.is_plain val = true ->
  CssToXPath (tagName ++ "." ++ cls ++ "#" ++ idn ++ "[" ++ attrName ++ "=" ++ val ++ "]@text")
  = "//" ++ tagName ++ "[contains(@class,'" ++ cls ++ "') and @id='" ++ idn
         ++ "' and @" ++ attrName ++ "='" ++ val ++ "']/text()".
Proof.
  intros Nt Nc Ni Na Nv Ht Hc Hi Ha Hv.
  replace (tagName ++ "." ++ cls ++ "#" ++ idn ++ "[" ++ attrName ++ "=" ++ val ++ "]@text")
    with ((tagName ++ "." ++ cls ++ "#" ++ idn ++ "[" ++ attrName ++ "=" ++ val ++ "]")
            ++ "@" ++ "text")
    by (now rewrite !append_assoc).
  rewrite CssToXPath_suffix.
  - rewrite CssToXPath_full_part by assumption.
    unfold Spec.bracket, Spec.conditions. cbn [className id attr attrValue].
    destruct tagName, cls, idn, attrName, val; try congruence.
    cbn [empty List.app String.concat extract_suffix negb String.eqb Ascii.eqb Bool.eqb].
    normalize_appends. reflexivity.
  - destruct tagName; discriminate.
  - apply absent_at_sign. split_all_chars; now apply plain_no_at.
Qed.

(** C3.  The compiler maps the three selectors of the specification to the
    XPath strings it gives; a selector made of one part compiles to [//],
    the tag (or [*]) and one bracketed predicate that joins the class, the
    id and the attribute condition with [ and ], in this order, as the
    third example does for every tag, class, id, attribute and value made
    of plain characters; and an [@attrName] after a selector appends
    [/text()] for [text], nothing for [html] and [innerHtml], and
    [/@attrName] for any other name. *)
Theorem CssToXPath_exact :
  CssToXPath "#id" = "//*[@id='id']"
  /\ CssToXPath ".cls" = "//*[contains(@class,'cls')]"
  /\ CssToXPath "div.cls#id[data-x=1]@text"
     = "//div[contains(@class,'cls') and @id='id' and @data-x='1']/text()"
  /\ (forall p,
        p <> "" -> Spec.all_chars (fun c => negb (isspace c)) p = true -> absent "@" p ->
        CssToXPath p =
          "//" ++ (if empty (tag (parse_part p)) then "*" else tag (parse_part p))
               ++ Spec.bracket (Spec.conditions (parse_part p)))
  /\ (forall tagName cls idn attrName val,
        tagName <> "" -> cls <> "" -> idn <> "" -> attrName <> "" -> val <> "" ->
        Spec.all_chars Spec.is_plain tagName = true ->
        Spec.all_chars Spec.is_plain cls = true ->
        Spec.all_chars Spec.is_plain idn = true ->
        Spec.all_chars Spec.is_plain attrName = true ->
        Spec.all_chars Spec.is_plain val = true ->
        CssToXPath
          (tagName ++ "." ++ cls ++ "#" ++ idn ++ "[" ++ attrName ++ "=" ++ val ++ "]@text")
        = "//" ++ tagName ++ "[contains(@class,'" ++ cls ++ "') and @id='" ++ idn
               ++ "' and @" ++ attrName ++ "='" ++ val ++ "']/text()")
  /\ (forall selector, selector <> "" -> absent "@" selector ->
        CssToXPath (selector ++ "@text") = CssToXPath selector ++ "/text()"
        /\ CssToXPath (selector ++ "@html") = CssToXPath selector
        /\ CssToXPath (selector ++ "@innerHtml") = CssToXPath selector
        /\ forall attrName,
             attrName <> "" -> attrName <> "text" ->
             attrName <> "html" -> attrName <> "innerHtml" ->
             CssToXPath (selector ++ "@" ++ attrName)
             = CssToXPath selector ++ "/@" ++ attrName).
Proof.
  split; [reflexivity|]. split; [reflexivity|]. split; [reflexivity|].
  split; [exact CssToXPath_single_part|].
  split; [exact CssToXPath_full_part_text|].
  intros selector N A. repeat split.
  - change (selector ++ "@text") with (selector ++ "@" ++ "text").
    now rewrite CssToXPath_suffix.
  - change (selector ++ "@html") with (selector ++ "@" ++ "html").
    rewrite CssToXPath_suffix by assumption. apply append_nil_r.
  - change (selector ++ "@innerHtml") with (selector ++ "@" ++ "innerHtml").
    rewrite CssToXPath_suffix by assumption. apply append_nil_r.
  - intros attrName H0 H1 H2 H3. rewrite CssToXPath_suffix by assumption.
    f_equal. unfold extract_suffix.
    destruct attrName as [|c a]; [congruence|]. cbn [empty negb].
    destruct (String.eqb_spec (String c a) "text"); [congruence|].
    destruct (String.eqb_spec (String c a) "html"); [congruence|].
    destruct (String.eqb_spec (String c a) "innerHtml"); [congruence|].
    reflexivity.
Qed.

(** C4 (the code departs from the claim).  The parts of a selector are
    joined by a single [/]: only the first part is introduced by [//].  The
    selector [a b] compiles to [//a/b], a child step, where the claim and
    the conversion table of the documentation have [//a//b]. *)
Theorem CssToXPath_joins_parts_with_one_slash :
  CssToXPath "a b" = "//a/b"
  /\ CssToXPath "div.list li.item" = "//div[contains(@class,'list')]/li[contains(@class,'item')]"
  /\ (forall selector, absent "@" selector ->
        CssToXPath selector
        = "/" ++ String.concat "" (map part_xpath (tokens selector)))
  /\ (forall p, part_xpath p =
        "/" ++ (if empty (tag (parse_part p)) then "*" else tag (parse_part p))
            ++ Spec.bracket (Spec.conditions (parse_part p))).
Proof.
  split; [reflexivity|]. split; [reflexivity|].
  split; [exact CssToXPath_no_at | exact part_xpath_shape].
Qed.

End CssFacts.

(* ===================================================================== *)
(** * The pipeline *)
(* ===================================================================== *)

Section PipelineFacts.
Context {vm : JsVm} {xp : XPathEngine}.
Import LegadoRuleParser.

Lemma js_loop_tail_phase (jsRule : string) (stop : StopFlag) (items : list string) :
  Spec.never_stops stop ->
  forall i e lastError hasError value,
  js_loop jsRule stop i items e lastError hasError value =
    let '(outs, err, e') := Spec.tail_phase jsRule items e in
    (e',
     match err with Some m => m | None => lastError end,
     match err with Some _ => true | None => hasError end,
     (value ++ outs)%list).
Proof.
  intros Hs. induction items as [|item rest IH]; intros i e lastError hasError value.
  - simpl. now rewrite app_nil_r.
  - simpl. rewrite Hs. unfold Spec.apply_tail.
    destruct (QuickJsEngine.eval jsRule (QuickJsEngine.setResult item e)) as [r e1].
    destruct (QuickJsEngine.hasError e1) eqn:He.
    + rewrite IH.
      destruct (Spec.tail_phase jsRule rest e1) as [[outs err'] e2].
      rewrite <- app_assoc. simpl. now destruct err'.
    + rewrite IH.
      destruct (Spec.tail_phase jsRule rest e1) as [[outs err'] e2].
      rewrite <- app_assoc. simpl. now destruct err'.
Qed.

Lemma tail_phase_length (tail : string) (items : list string) :
  forall e, List.length (fst (fst (Spec.tail_phase tail items e))) = List.length items.
Proof.
  induction items as [|item rest IH]; intros e; simpl; [reflexivity|].
  destruct (Spec.apply_tail tail item e) as [[out err] e1].
  specialize (IH e1).
  destruct (Spec.tail_phase tail rest e1) as [[outs err'] e2]. simpl in *. now rewrite IH.
Qed.


Lemma ParseRule_unfold (html rule : string) (value : list string) (stop : StopFlag) (p : t) :
  rule <> "" ->
  ParseRule html rule value stop p =
    let p := mk (m_jsEngine p) "" false in
    let (baseRule, jsRule) := SplitRule rule in
    let '(ret, baseResult, p) := base_phase html baseRule stop p in
    if negb (ret =? 0)%Z then (ret, value, p)
    else
      match m_jsEngine p with
      | Some e =>
          if negb (empty jsRule) then
            let '(e, lastError, hasError, value) :=
              js_loop jsRule stop 0 baseResult e (m_lastError p) (m_hasError p) value in
            (0%Z, value, mk (Some e) lastError hasError)
          else (0%Z, baseResult, p)
      | None => (0%Z, baseResult, p)
      end.
Proof. intros N. unfold ParseRule. destruct rule; [congruence | reflexivity]. Qed.


(** Without a stop flag the loop does not depend on the iteration count. *)
Lemma js_loop_no_flag (jsRule : string) (items : list string) :
  forall i j e lastError hasError value,
  js_loop jsRule None i items e lastError hasError value
  = js_loop jsRule None j items e lastError hasError value.
Proof.
  induction items as [|item rest IH]; intros i j e lastError hasError value; [reflexivity|].
  cbn [js_loop stop_requested].
  destruct (QuickJsEngine.eval jsRule (QuickJsEngine.setResult item e)) as [r e1].
  destruct (QuickJsEngine.hasError e1); apply IH.
Qed.

(** When the stop flag is first seen set at the [k]-th iteration, the loop
    has processed the first [k] items, and only them. *)
Theorem js_loop_stops_early (jsRule : string) (flag : nat -> bool) (k : nat) :
  forall items i e lastError hasError value,
  (forall j, i <= j -> j < i + k -> flag j = false) ->
  flag (i + k) = true ->
  js_loop jsRule (Some flag) i items e lastError hasError value
  = js_loop jsRule None 0 (firstn k items) e lastError hasError value.
Proof.
  induction k as [|k IH]; intros items i e lastError hasError value Hbefore Hat.
  - rewrite Nat.add_0_r in Hat. destruct items as [|item rest]; [reflexivity|].
    cbn [js_loop stop_requested firstn]. now rewrite Hat.
  - destruct items as [|item rest]; [reflexivity|].
    cbn [js_loop stop_requested firstn].
    rewrite Hbefore by lia.
    destruct (QuickJsEngine.eval jsRule (QuickJsEngine.setResult item e)) as [r e1].
    destruct (QuickJsEngine.hasError e1).
    + rewrite (js_loop_no_flag jsRule (firstn k rest) 1 0).
      apply IH; [intros j H1 H2; apply Hbefore; lia |].
      now replace (S i + k) with (i + S k) by lia.
    + rewrite (js_loop_no_flag jsRule (firstn k rest) 1 0).
      apply IH; [intros j H1 H2; apply Hbefore; lia |].
      now replace (S i + k) with (i + S k) by lia.
Qed.

Lemma tail_phase_two_items (jsRule a b : string) (e1 eA eB : QuickJsEngine.t) :
  QuickJsEngine.eval jsRule (QuickJsEngine.setResult "A" e1) = (a, eA) ->
  QuickJsEngine.hasError eA = false ->
  QuickJsEngine.eval jsRule (QuickJsEngine.setResult "B" eA) = (b, eB) ->
  QuickJsEngine.hasError eB = true ->
  Spec.tail_phase jsRule ["A"; "B"] e1
  = ([a; "B"], Some (QuickJsEngine.getLastError eB), eB).
Proof.
  intros EA HA EB HB. cbn [Spec.tail_phase]. unfold Spec.apply_tail.
  rewrite EA, HA, EB, HB. reflexivity.
Qed.

(** C2.  When the base phase succeeds and the rule has a script tail, the
    pipeline applies the tail to every base result in order, [result] being
    rebound to the element first; an element on which the engine fails is
    appended unprocessed, the engine's message becomes the last error and
    the had-error flag is set.  With the base results [A] and [B] and a
    tail that fails only on [B], the output is the transformed [A] followed
    by [B], and [HasError] holds afterwards. *)
Theorem ParseRule_degrades_on_script_error
    (html rule baseRule jsRule : string) (value items outs : list string)
    (err : option string) (stop : StopFlag) (p p1 : t) (e1 e' : QuickJsEngine.t) :
  rule <> "" ->
  SplitRule rule = (baseRule, jsRule) ->
  jsRule <> "" ->
  base_phase html baseRule stop (mk (m_jsEngine p) "" false) = (0%Z, items, p1) ->
  m_jsEngine p1 = Some e1 ->
  Spec.never_stops stop ->
  Spec.tail_phase jsRule items e1 = (outs, err, e') ->
  ParseRule html rule value stop p =
    (0%Z, (value ++ outs)%list,
     mk (Some e')
        (match err with Some m => m | None => m_lastError p1 end)
        (match err with Some _ => true | None => m_hasError p1 end))
  /\ List.length outs = List.length items
  /\ (forall a b eA eB,
        items = ["A"; "B"] ->
        QuickJsEngine.eval jsRule (QuickJsEngine.setResult "A" e1) = (a, eA) ->
        QuickJsEngine.hasError eA = false ->
        QuickJsEngine.eval jsRule (QuickJsEngine.setResult "B" eA) = (b, eB) ->
        QuickJsEngine.hasError eB = true ->
        outs = [a; "B"] /\ err = Some (QuickJsEngine.getLastError eB)
        /\ HasError (snd (ParseRule html rule value stop p)) = true).
Proof.
  intros N S J B E Hs T.
  assert (R : ParseRule html rule value stop p =
    (0%Z, (value ++ outs)%list,
     mk (Some e')
        (match err with Some m => m | None => m_lastError p1 end)
        (match err with Some _ => true | None => m_hasError p1 end))).
  { rewrite ParseRule_unfold by assumption. cbv zeta. rewrite S, B. simpl negb. cbv iota.
    rewrite E. destruct jsRule; [congruence|]. cbn [empty negb].
    rewrite js_loop_tail_phase by assumption. now rewrite T. }
  split; [exact R|]. split.
  - pose proof (tail_phase_length jsRule items e1) as L. now rewrite T in L.
  - intros a b eA eB -> EA HA EB HB.
    rewrite (tail_phase_two_items _ _ _ _ _ _ EA HA EB HB) in T.
    injection T as <- <- <-. rewrite R. repeat split.
Qed.

(** C5.  When the base phase fails, [ParseRule] returns its status, leaves
    the output vector as it was passed in, whatever partial results the
    base phase had collected, and leaves the parser and its engine as the
    base phase left them: the script tail is not run. *)
Theorem base_failure_is_fatal
    (html rule baseRule jsRule : string) (value partial : list string)
    (stop : StopFlag) (p p1 : t) (ret : Z) :
  rule <> "" ->
  SplitRule rule = (baseRule, jsRule) ->
  base_phase html baseRule stop (mk (m_jsEngine p) "" false) = (ret, partial, p1) ->
  ret <> 0%Z ->
  ParseRule html rule value stop p = (ret, value, p1).
Proof.
  intros N S B R. rewrite ParseRule_unfold by assumption. cbv zeta. rewrite S, B.
  destruct (Z.eqb_spec ret 0); [congruence | reflexivity].
Qed.

(** C6, as the code has it.  An empty base makes the whole content the one
    base result, and a non-empty rule with an empty base runs its script on
    that one element; the entirely empty rule returns at once, with status
    0 and the output vector untouched. *)
Theorem empty_base_yields_content :
  (forall html stop p, base_phase html "" stop p = (0%Z, [html], p))
  /\ (forall html rule jsRule value stop p,
        rule <> "" -> SplitRule rule = ("", jsRule) ->
        ParseRule html rule value stop p =
          let p0 := mk (m_jsEngine p) "" false in
          match m_jsEngine p with
          | Some e =>
              if negb (empty jsRule) then
                let '(e, lastError, hasError, value) :=
                  js_loop jsRule stop 0 [html] e "" false value in
                (0%Z, value, mk (Some e) lastError hasError)
              else (0%Z, [html], p0)
          | None => (0%Z, [html], p0)
          end)
  /\ (forall html value stop p,
        ParseRule html "" value stop p = (0%Z, value, mk (m_jsEngine p) "" false)).
Proof.
  split; [reflexivity|]. split; [|reflexivity].
  intros html rule jsRule value stop p N S.
  rewrite ParseRule_unfold by assumption. cbv zeta. rewrite S. reflexivity.
Qed.

Lemma base_phase_XPath_prefix (html body : string) (stop : StopFlag) (p : t) :
  base_phase html ("@XPath:" ++ body) stop p =
    let (ret, baseResult) := HtmlParseByXpath html body [] stop in (ret, baseResult, p).
Proof.
  set (b := "@XPath:" ++ body).
  assert (E : empty b = false) by reflexivity.
  assert (H1 : prefix "@css:" b = false) by reflexivity.
  assert (H2 : prefix "@json:" b = false) by reflexivity.
  assert (H3 : prefix "$." b = false) by reflexivity.
  assert (H4 : prefix "//" b = false) by reflexivity.
  assert (H5 : prefix "@XPath:" b = true) by (unfold b; destruct body; reflexivity).
  assert (S7 : substr_from b 7 = body) by apply (substr_from_app "@XPath:" body).
  unfold base_phase. rewrite !find_is_0_prefix, E, H1, H2, H3, H4, H5, S7.
  reflexivity.
Qed.

Lemma base_phase_double_slash (html body : string) (stop : StopFlag) (p : t) :
  base_phase html ("//" ++ body) stop p =
    let (ret, baseResult) := HtmlParseByXpath html ("//" ++ body) [] stop in
    (ret, baseResult, p).
Proof.
  set (b := "//" ++ body).
  assert (E : empty b = false) by reflexivity.
  assert (H1 : prefix "@css:" b = false) by reflexivity.
  assert (H2 : prefix "@json:" b = false) by reflexivity.
  assert (H3 : prefix "$." b = false) by reflexivity.
  assert (H4 : prefix "//" b = true) by (unfold b; destruct body; reflexivity).
  assert (H5 : prefix "@XPath:" b = false) by reflexivity.
  unfold base_phase. rewrite !find_is_0_prefix, E, H1, H2, H3, H4, H5.
  reflexivity.
Qed.

(** C7 (the code departs from the claim).  [ParseRule] sends a base that
    starts with [//] or with [@XPath:] to the XPath engine, the prefix
    [@XPath:] removed.  A base that starts with the lowercase [@xpath:] is
    not recognised: it goes through [CssToXPath], and the engine receives
    [//@xpath://div] for [@xpath://div].  The converter's [is_xpath_rule]
    accepts both spellings and strips either. *)
Theorem lowercase_xpath_prefix_is_not_dispatched :
  (forall html stop p,
     base_phase html "@xpath://div" stop p =
       let (ret, baseResult) := HtmlParseByXpath html "//@xpath://div" [] stop in
       (ret, baseResult, p))
  /\ (forall html body stop p,
     base_phase html ("@XPath:" ++ body) stop p =
       let (ret, baseResult) := HtmlParseByXpath html body [] stop in (ret, baseResult, p))
  /\ (forall html body stop p,
     base_phase html ("//" ++ body) stop p =
       let (ret, baseResult) := HtmlParseByXpath html ("//" ++ body) [] stop in
       (ret, baseResult, p))
  /\ LegadoConverter.is_xpath_rule (Some "@xpath://div") = true
  /\ LegadoConverter.xpath_body "@xpath://div" = "//div"
  /\ LegadoConverter.xpath_body "@XPath://div" = "//div".
Proof.
  split; [reflexivity|].
  split; [exact base_phase_XPath_prefix|].
  split; [exact base_phase_double_slash|].
  repeat split.
Qed.

(** C9 (the code departs from the claim).  [CssToXPath] never returns the
    empty string, which is the only failure [ParseCssRule] looks for: for
    the empty selector, and for a blank one, it returns [/], and
    [ParseCssRule] passes that to the XPath engine without raising its
    conversion error. *)
Theorem CssToXPath_never_fails :
  CssToXPath "" = "/"
  /\ CssToXPath "   " = "/"
  /\ (forall css, CssToXPath css <> "")
  /\ (forall html css value stop p,
        ParseCssRule html css value stop p =
          let (ret, value) := HtmlParseByXpath html (CssToXPath css) value stop in
          (ret, value, p))
  /\ (forall html stop p,
        base_phase html "@css:" stop p =
          let (ret, value) := HtmlParseByXpath html "/" [] stop in (ret, value, p)).
Proof.
  split; [reflexivity|]. split; [reflexivity|].
  split; [exact CssToXPath_never_empty|].
  split; [|reflexivity].
  intros html css value stop p. unfold ParseCssRule, ParseXPathRule.
  pose proof (CssToXPath_never_empty css) as N.
  destruct (CssToXPath css); [congruence | reflexivity].
Qed.

End PipelineFacts.

(** The scenario of C2 on the demonstration engines: [//li] selects [A] and
    [B], and the script fails on [B]. *)
Lemma ParseRule_degrades_on_demo :
  LegadoRuleParser.ParseRule (vm := Demo.vm) (xp := Demo.xpath)
    "<ul/>" "//li@js:check(result)" [] None Demo.parser
  = (0%Z, ["ok:A"; "B"],
     @LegadoRuleParser.mk Demo.vm
       (Some (@QuickJsEngine.mk Demo.vm (Some "B") "JS Error: Error: bad item" true))
       "JS Error: Error: bad item" true).
Proof.
  refine (proj1 (ParseRule_degrades_on_script_error (vm := Demo.vm) (xp := Demo.xpath)
            "<ul/>" "//li@js:check(result)" "//li" "check(result)" [] ["A"; "B"] ["ok:A"; "B"]
            (Some "JS Error: Error: bad item") None Demo.parser Demo.parser Demo.engine
            (@QuickJsEngine.mk Demo.vm (Some "B") "JS Error: Error: bad item" true)
            _ _ _ _ _ _ _)).
  - discriminate.
  - reflexivity.
  - discriminate.
  - reflexivity.
  - reflexivity.
  - intros i. reflexivity.
  - reflexivity.
Defined.

(** A stop request seen at the second iteration, on the demonstration
    engines: only [A] is processed. *)
Lemma js_loop_stops_early_on_demo :
  LegadoRuleParser.js_loop (vm := Demo.vm) "check(result)" (Some (Nat.leb 1)) 0
    ["A"; "B"] Demo.engine "" false []
  = LegadoRuleParser.js_loop (vm := Demo.vm) "check(result)" None 0
      ["A"] Demo.engine "" false [].
Proof.
  refine (js_loop_stops_early (vm := Demo.vm) "check(result)" (Nat.leb 1) 1
            ["A"; "B"] 0 Demo.engine "" false [] _ _).
  - intros j H0 H1. assert (j = 0) as -> by lia. reflexivity.
  - reflexivity.
Defined.

(** A failing base phase on the demonstration engines: the partial result
    of [//bad[] is dropped and the vector passed in is returned. *)
Lemma base_failure_on_demo :
  LegadoRuleParser.ParseRule (vm := Demo.vm) (xp := Demo.xpath)
    "<ul/>" "//bad[@js:check(result)" ["kept"] None Demo.parser
  = (1%Z, ["kept"], Demo.parser).
Proof.
  refine (base_failure_is_fatal (vm := Demo.vm) (xp := Demo.xpath)
            "<ul/>" "//bad[@js:check(result)" "//bad[" "check(result)" ["kept"] ["partial"]
            None Demo.parser Demo.parser 1%Z _ _ _ _).
  - discriminate.
  - reflexivity.
  - reflexivity.
  - discriminate.
Defined.

(** C6 as the claim states it fails on the empty rule: its base part is
    empty, and the run yields no result at all instead of the content. *)
Lemma empty_rule_yields_no_result :
  fst (LegadoRuleParser.SplitRule "") = ""
  /\ snd (fst (LegadoRuleParser.ParseRule (vm := Demo.vm) (xp := Demo.xpath)
                 "<p>x</p>" "" [] None Demo.parser)) = []
  /\ snd (fst (LegadoRuleParser.ParseRule (vm := Demo.vm) (xp := Demo.xpath)
                 "<p>x</p>" "" [] None Demo.parser)) <> ["<p>x</p>"].
Proof. repeat split. discriminate. Qed.

(* ===================================================================== *)
(** * The template expanders *)
(* ===================================================================== *)

Section TemplateFacts.
Context {vm : JsVm}.
Import QuickJsEngine.

Lemma processTemplate_loop_acc (fuel : nat) (tpl : string) :
  forall pos r e,
  processTemplate_loop fuel tpl pos r e =
    let (out, e') := processTemplate_loop fuel tpl pos "" e in (r ++ out, e').
Proof.
  induction fuel as [|fuel IH]; intros pos r e; simpl.
  - now rewrite append_nil_r.
  - destruct (pos <? String.length tpl)%nat; [|now rewrite append_nil_r].
    destruct (find_from tpl "{{" pos) as [start|]; [|reflexivity].
    destruct (find_from tpl "}}" start) as [end_|]; [|now rewrite append_assoc].
    destruct (eval _ e) as [value e1].
    rewrite IH. rewrite (IH _ (_ ++ value)).
    destruct (processTemplate_loop fuel tpl (end_ + 2) "" e1) as [out e2].
    now rewrite !append_assoc.
Qed.

Lemma processTemplate_loop_shift (fuel : nat) (a b : string) :
  forall pos r e,
  processTemplate_loop fuel (a ++ b) (String.length a + pos) r e
  = processTemplate_loop fuel b pos r e.
Proof.
  induction fuel as [|fuel IH]; intros pos r e; [reflexivity|].
  cbn [processTemplate_loop].
  rewrite length_append.
  replace (String.length a + pos <? String.length a + String.length b)%nat
    with (pos <? String.length b)%nat
    by (destruct (Nat.ltb_spec pos (String.length b));
        destruct (Nat.ltb_spec (String.length a + pos) (String.length a + String.length b)); lia).
  destruct (pos <? String.length b)%nat; [|reflexivity].
  rewrite find_from_skip.
  destruct (find_from b "{{" pos) as [start|] eqn:E1; cbn [option_map].
  - rewrite find_from_skip.
    rewrite size_t_sub_shift by (apply find_from_ge in E1; exact E1).
    rewrite substr_skip.
    destruct (find_from b "}}" start) as [end_|] eqn:E2; cbn [option_map].
    + apply find_from_ge in E2.
      rewrite size_t_sub_shift by assumption.
      rewrite <- Nat.add_assoc, substr_skip.
      destruct (eval _ e) as [value e1].
      rewrite <- Nat.add_assoc. apply IH.
    + now rewrite substr_from_skip.
  - now rewrite substr_from_skip.
Qed.

Lemma processTemplate_loop_fuel (tpl : string) :
  forall fuel fuel' pos r e,
  String.length tpl - pos < fuel -> String.length tpl - pos < fuel' ->
  processTemplate_loop fuel tpl pos r e = processTemplate_loop fuel' tpl pos r e.
Proof.
  induction fuel as [|fuel IH]; intros fuel' pos r e H H'; [lia|].
  destruct fuel' as [|fuel']; [lia|].
  cbn [processTemplate_loop].
  destruct (Nat.ltb_spec pos (String.length tpl)) as [Hp|Hp]; [|reflexivity].
  destruct (find_from tpl "{{" pos) as [start|] eqn:E1; [|reflexivity].
  destruct (find_from tpl "}}" start) as [end_|] eqn:E2; [|reflexivity].
  apply find_from_ge in E1. apply find_from_ge in E2.
  destruct (eval _ e) as [value e1].
  apply IH; lia.
Qed.

Lemma processTemplate_no_marker (tpl : string) (e : QuickJsEngine.t) :
  absent "{{" tpl -> processTemplate tpl e = (tpl, e).
Proof.
  intros A. unfold processTemplate. cbn [processTemplate_loop].
  destruct (Nat.ltb_spec 0 (String.length tpl)) as [H|H].
  - apply find_None_iff in A; [|discriminate]. unfold find in A. unfold find_from. rewrite A.
    unfold substr_from. now rewrite Nat.sub_0_r, substring_all.
  - destruct tpl; [reflexivity | simpl in H; lia].
Qed.

Lemma processTemplate_unterminated (pre rest : string) (e : QuickJsEngine.t) :
  first_at "{{" (pre ++ "{{" ++ rest) (String.length pre) ->
  absent "}}" rest ->
  processTemplate (pre ++ "{{" ++ rest) e = (pre ++ "{{" ++ rest, e).
Proof.
  intros F A. unfold processTemplate. cbn [processTemplate_loop].
  destruct (Nat.ltb_spec 0 (String.length (pre ++ "{{" ++ rest))) as [H|H];
    [| rewrite !length_append in H; simpl in H; lia].
  apply find_Some_iff in F; [|discriminate]. unfold find in F. unfold find_from at 1.
  rewrite F, find_close_after_open.
  apply find_None_iff in A; [|discriminate]. rewrite A. cbn [option_map].
  rewrite first_iteration_prefix.
  rewrite <- (Nat.add_0_r (String.length pre)) at 1. rewrite substr_from_skip.
  unfold substr_from. now rewrite Nat.sub_0_r, substring_all.
Qed.

Lemma processTemplate_span (pre expr rest : string) (e : QuickJsEngine.t) :
  first_at "{{" (pre ++ "{{" ++ expr ++ "}}" ++ rest) (String.length pre) ->
  first_at "}}" (expr ++ "}}" ++ rest) (String.length expr) ->
  processTemplate (pre ++ "{{" ++ expr ++ "}}" ++ rest) e =
    let (value, e1) := eval expr e in
    let (out, e2) := processTemplate rest e1 in
    (pre ++ value ++ out, e2).
Proof.
  intros F1 F2.
  remember (pre ++ "{{" ++ expr ++ "}}" ++ rest) as tpl eqn:Et.
  assert (L : String.length tpl
              = String.length pre + 2 + String.length expr + 2 + String.length rest)
    by (subst tpl; rewrite !length_append; simpl; lia).
  assert (Hopen : find_from tpl "{{" 0 = Some (String.length pre))
    by (apply find_Some_iff in F1; [exact F1 | discriminate]).
  assert (Hclose : find_from tpl "}}" (String.length pre)
                   = Some (String.length pre + 2 + String.length expr)).
  { subst tpl. rewrite find_close_after_open.
    apply find_Some_iff in F2; [|discriminate]. now rewrite F2. }
  assert (Hpre : substr tpl 0 (size_t_sub (N.of_nat (String.length pre)) (N.of_nat 0)) = pre)
    by (subst tpl; apply first_iteration_prefix).
  assert (Hexpr : substr tpl (String.length pre + 2)
                    (size_t_sub (size_t_sub (N.of_nat (String.length pre + 2 + String.length expr))
                                            (N.of_nat (String.length pre))) 2) = expr).
  { rewrite size_t_sub_exact by lia.
    change 2%N with (N.of_nat 2). rewrite size_t_sub_exact by lia. rewrite substr_nat.
    replace (String.length pre + 2 + String.length expr - String.length pre - 2)
      with (String.length expr) by lia.
    subst tpl. replace (pre ++ "{{" ++ expr ++ "}}" ++ rest)
      with ((pre ++ "{{") ++ expr ++ "}}" ++ rest) by apply append_assoc.
    replace (String.length pre + 2) with (String.length (pre ++ "{{"))
      by (rewrite length_append; reflexivity).
    rewrite substring_skip_app0. apply substring_prefix_app. }
  assert (T : tpl = (pre ++ "{{" ++ expr ++ "}}") ++ rest)
    by (subst tpl; now rewrite !append_assoc).
  unfold processTemplate at 1. cbn [processTemplate_loop].
  destruct (Nat.ltb_spec 0 (String.length tpl)) as [H|H]; [|lia].
  rewrite Hopen, Hclose, Hpre, Hexpr.
  destruct (eval expr e) as [value e1].
  rewrite (processTemplate_loop_fuel tpl (String.length tpl) (S (String.length rest))) by lia.
  rewrite T.
  replace (String.length pre + 2 + String.length expr + 2)
    with (String.length (pre ++ "{{" ++ expr ++ "}}") + 0)
    by (rewrite !length_append; simpl; lia).
  rewrite processTemplate_loop_shift, processTemplate_loop_acc.
  unfold processTemplate.
  destruct (processTemplate_loop (S (String.length rest)) rest 0 "" e1) as [out e2].
  now rewrite append_assoc.
Qed.


(** The loop of [processTemplate] never runs out of the iterations it is
    given: more of them change nothing. *)
Lemma processTemplate_fuel (tpl : string) (n : nat) (e : QuickJsEngine.t) :
  processTemplate_loop (S (String.length tpl) + n) tpl 0 "" e = processTemplate tpl e.
Proof. apply processTemplate_loop_fuel; lia. Qed.

Lemma processTemplate_example (e e1 : QuickJsEngine.t) :
  eval "1+1" e = ("2", e1) -> processTemplate "a{{1+1}}b" e = ("a2b", e1).
Proof.
  intros E.
  change "a{{1+1}}b" with ("a" ++ "{{" ++ "1+1" ++ "}}" ++ "b").
  rewrite processTemplate_span, E.
  - rewrite processTemplate_no_marker; [reflexivity|].
    apply find_None_iff; [discriminate | reflexivity].
  - apply find_Some_iff; [discriminate | reflexivity].
  - apply find_Some_iff; [discriminate | reflexivity].
Qed.

Lemma processTemplate_lone_marker (e : QuickJsEngine.t) :
  processTemplate "a{{x" e = ("a{{x", e).
Proof.
  change "a{{x" with ("a" ++ "{{" ++ "x").
  apply processTemplate_unterminated.
  - apply find_Some_iff; [discriminate | reflexivity].
  - apply find_None_iff; [discriminate | reflexivity].
Qed.

End TemplateFacts.

Section EvaluateTemplateFacts.
Context {vm : JsVm}.
Import JsRuleProcessor.

Lemma EvaluateTemplate_loop_step (fuel : nat) (tpl : string) (pos : nat)
    (output : string) (e : JsEngine.t) :
  EvaluateTemplate_loop (S fuel) tpl pos output e =
    if (pos <? String.length tpl)%nat then
      match find_from tpl "{{" pos with
      | None => (output ++ substr_from tpl pos, e)
      | Some start =>
          let output :=
            output ++ substr tpl pos (size_t_sub (N.of_nat start) (N.of_nat pos)) in
          match find_from tpl "}}" (start + 2) with
          | None => (output ++ substr_from tpl start, e)
          | Some end_ =>
              let (text, e) :=
                span_text
                  (substr tpl (start + 2)
                     (size_t_sub (size_t_sub (N.of_nat end_) (N.of_nat start)) 2)) e in
              EvaluateTemplate_loop fuel tpl (end_ + 2) (output ++ text) e
          end
      end
    else (output, e).
Proof. reflexivity. Qed.

Lemma EvaluateTemplate_loop_acc (fuel : nat) (tpl : string) :
  forall pos r e,
  EvaluateTemplate_loop fuel tpl pos r e =
    let (out, e') := EvaluateTemplate_loop fuel tpl pos "" e in (r ++ out, e').
Proof.
  induction fuel as [|fuel IH]; intros pos r e.
  - simpl. now rewrite append_nil_r.
  - rewrite !EvaluateTemplate_loop_step.
    destruct (pos <? String.length tpl)%nat; [|now rewrite append_nil_r].
    destruct (find_from tpl "{{" pos) as [start|]; [|reflexivity].
    cbv zeta.
    destruct (find_from tpl "}}" (start + 2)) as [end_|]; [|now rewrite append_assoc].
    destruct (span_text _ e) as [text e1].
    rewrite IH. rewrite (IH _ (_ ++ text)).
    destruct (EvaluateTemplate_loop fuel tpl (end_ + 2) "" e1) as [out e2].
    now rewrite !append_assoc.
Qed.

Lemma EvaluateTemplate_loop_shift (fuel : nat) (a b : string) :
  forall pos r e,
  EvaluateTemplate_loop fuel (a ++ b) (String.length a + pos) r e
  = EvaluateTemplate_loop fuel b pos r e.
Proof.
  induction fuel as [|fuel IH]; intros pos r e; [reflexivity|].
  rewrite !EvaluateTemplate_loop_step.
  rewrite length_append.
  replace (String.length a + pos <? String.length a + String.length b)%nat
    with (pos <? String.length b)%nat
    by (destruct (Nat.ltb_spec pos (String.length b));
        destruct (Nat.ltb_spec (String.length a + pos) (String.length a + String.length b)); lia).
  destruct (pos <? String.length b)%nat; [|reflexivity].
  rewrite find_from_skip.
  destruct (find_from b "{{" pos) as [start|] eqn:E1; cbn [option_map].
  - cbv zeta. rewrite <- Nat.add_assoc, find_from_skip.
    rewrite size_t_sub_shift by (apply find_from_ge in E1; exact E1).
    rewrite substr_skip.
    destruct (find_from b "}}" (start + 2)) as [end_|] eqn:E2; cbn [option_map].
    + apply find_from_ge in E2.
      rewrite size_t_sub_shift by lia.
      rewrite substr_skip.
      destruct (span_text _ e) as [text e1].
      rewrite <- Nat.add_assoc. apply IH.
    + now rewrite substr_from_skip.
  - now rewrite substr_from_skip.
Qed.

Lemma EvaluateTemplate_loop_fuel (tpl : string) :
  forall fuel fuel' pos r e,
  String.length tpl - pos < fuel -> String.length tpl - pos < fuel' ->
  EvaluateTemplate_loop fuel tpl pos r e = EvaluateTemplate_loop fuel' tpl pos r e.
Proof.
  induction fuel as [|fuel IH]; intros fuel' pos r e H H'; [lia|].
  destruct fuel' as [|fuel']; [lia|].
  rewrite !EvaluateTemplate_loop_step.
  destruct (Nat.ltb_spec pos (String.length tpl)) as [Hp|Hp]; [|reflexivity].
  destruct (find_from tpl "{{" pos) as [start|] eqn:E1; [|reflexivity].
  cbv zeta.
  destruct (find_from tpl "}}" (start + 2)) as [end_|] eqn:E2; [|reflexivity].
  apply find_from_ge in E1. apply find_from_ge in E2.
  destruct (span_text _ e) as [text e1].
  apply IH; lia.
Qed.

Lemma find_close_past_open (pre rest : string) :
  find_from (pre ++ "{{" ++ rest) "}}" (String.length pre + 2)
  = option_map (Nat.add (String.length pre + 2)) (find rest "}}").
Proof.
  replace (pre ++ "{{" ++ rest) with ((pre ++ "{{") ++ rest) by apply append_assoc.
  replace (String.length pre + 2) with (String.length (pre ++ "{{") + 0) at 1
    by (rewrite length_append; simpl; lia).
  rewrite find_from_skip, length_append. reflexivity.
Qed.

Lemma scan_template_no_marker (tpl : string) (e : JsEngine.t) :
  absent "{{" tpl -> scan_template tpl e = (tpl, e).
Proof.
  intros A. unfold scan_template. rewrite EvaluateTemplate_loop_step.
  destruct (Nat.ltb_spec 0 (String.length tpl)) as [H|H].
  - apply find_None_iff in A; [|discriminate]. unfold find in A. unfold find_from. rewrite A.
    unfold substr_from. now rewrite Nat.sub_0_r, substring_all.
  - destruct tpl; [reflexivity | simpl in H; lia].
Qed.

Lemma scan_template_unterminated (pre rest : string) (e : JsEngine.t) :
  first_at "{{" (pre ++ "{{" ++ rest) (String.length pre) ->
  absent "}}" rest ->
  scan_template (pre ++ "{{" ++ rest) e = (pre ++ "{{" ++ rest, e).
Proof.
  intros F A. unfold scan_template. rewrite EvaluateTemplate_loop_step.
  destruct (Nat.ltb_spec 0 (String.length (pre ++ "{{" ++ rest))) as [H|H];
    [| rewrite !length_append in H; simpl in H; lia].
  apply find_Some_iff in F; [|discriminate]. unfold find in F. unfold find_from at 1.
  rewrite F. cbv zeta. rewrite find_close_past_open.
  apply find_None_iff in A; [|discriminate]. rewrite A. cbn [option_map].
  rewrite first_iteration_prefix.
  rewrite <- (Nat.add_0_r (String.length pre)) at 1. rewrite substr_from_skip.
  unfold substr_from. now rewrite Nat.sub_0_r, substring_all.
Qed.

Lemma scan_template_span (pre expr rest : string) (e : JsEngine.t) :
  first_at "{{" (pre ++ "{{" ++ expr ++ "}}" ++ rest) (String.length pre) ->
  first_at "}}" (expr ++ "}}" ++ rest) (String.length expr) ->
  scan_template (pre ++ "{{" ++ expr ++ "}}" ++ rest) e =
    let (text, e1) := span_text expr e in
    let (out, e2) := scan_template rest e1 in
    (pre ++ text ++ out, e2).
Proof.
  intros F1 F2.
  remember (pre ++ "{{" ++ expr ++ "}}" ++ rest) as tpl eqn:Et.
  assert (L : String.length tpl
              = String.length pre + 2 + String.length expr + 2 + String.length rest)
    by (subst tpl; rewrite !length_append; simpl; lia).
  assert (Hopen : find_from tpl "{{" 0 = Some (String.length pre))
    by (apply find_Some_iff in F1; [exact F1 | discriminate]).
  assert (Hclose : find_from tpl "}}" (String.length pre + 2)
                   = Some (String.length pre + 2 + String.length expr)).
  { subst tpl. rewrite find_close_past_open.
    apply find_Some_iff in F2; [|discriminate]. now rewrite F2. }
  assert (Hpre : substr tpl 0 (size_t_sub (N.of_nat (String.length pre)) (N.of_nat 0)) = pre)
    by (subst tpl; apply first_iteration_prefix).
  assert (Hexpr : substr tpl (String.length pre + 2)
                    (size_t_sub (size_t_sub (N.of_nat (String.length pre + 2 + String.length expr))
                                            (N.of_nat (String.length pre))) 2) = expr).
  { rewrite size_t_sub_exact by lia.
    change 2%N with (N.of_nat 2). rewrite size_t_sub_exact by lia. rewrite substr_nat.
    replace (String.length pre + 2 + String.length expr - String.length pre - 2)
      with (String.length expr) by lia.
    subst tpl. replace (pre ++ "{{" ++ expr ++ "}}" ++ rest)
      with ((pre ++ "{{") ++ expr ++ "}}" ++ rest) by apply append_assoc.
    replace (String.length pre + 2) with (String.length (pre ++ "{{"))
      by (rewrite length_append; reflexivity).
    rewrite substring_skip_app0. apply substring_prefix_app. }
  assert (T : tpl = (pre ++ "{{" ++ expr ++ "}}") ++ rest)
    by (subst tpl; now rewrite !append_assoc).
  unfold scan_template at 1. rewrite EvaluateTemplate_loop_step.
  destruct (Nat.ltb_spec 0 (String.length tpl)) as [H|H]; [|lia].
  rewrite Hopen. cbv zeta. rewrite Hclose, Hpre, Hexpr.
  destruct (span_text expr e) as [text e1].
  rewrite (EvaluateTemplate_loop_fuel tpl (String.length tpl) (S (String.length rest))) by lia.
  rewrite T.
  replace (String.length pre + 2 + String.length expr + 2)
    with (String.length (pre ++ "{{" ++ expr ++ "}}") + 0)
    by (rewrite !length_append; simpl; lia).
  rewrite EvaluateTemplate_loop_shift, EvaluateTemplate_loop_acc.
  unfold scan_template.
  destruct (EvaluateTemplate_loop (S (String.length rest)) rest 0 "" e1) as [out e2].
  now rewrite append_assoc.
Qed.


Lemma EvaluateTemplate_initialized (tpl result : string) (baseUrl : option string)
    (p : JsRuleProcessor.t) (e : JsEngine.t) :
  m_engine p = Some e -> m_initialized p = true ->
  EvaluateTemplate tpl result baseUrl p =
    let e0 := JsEngine.setVariable "result" result e in
    let e0 :=
      match baseUrl with
      | Some url => JsEngine.setVariable "baseUrl" url e0
      | None => e0
      end in
    let (output, e') := scan_template tpl e0 in
    (output, JsRuleProcessor.mk (Some e') (m_lastError p) true).
Proof. intros E I. unfold EvaluateTemplate. now rewrite E, I. Qed.

Lemma EvaluateTemplate_not_initialized (tpl result : string) (baseUrl : option string)
    (p : JsRuleProcessor.t) :
  m_engine p = None \/ m_initialized p = false ->
  fst (EvaluateTemplate tpl result baseUrl p) = tpl.
Proof.
  intros H. unfold EvaluateTemplate.
  destruct (m_engine p); [|reflexivity].
  destruct H as [H | H]; [discriminate|]. now rewrite H.
Qed.

End EvaluateTemplateFacts.

Section ExpanderFacts.
Context {vm : JsVm}.

(** C8, as the code has it.  [QuickJsEngine::processTemplate] returns a
    template without [{{] unchanged and leaves the engine alone; it
    replaces the first [{{expr}}] span by the engine's string result for
    [expr] and goes on, from left to right, with the text after the span;
    and when no [}}] follows a [{{] it copies the text from there on, marker
    included.  So [a{{1+1}}b] expands to [a2b] when the engine evaluates
    [1+1] to [2], and [a{{x] to itself.  The scan of
    [JsRuleProcessor::EvaluateTemplate] obeys the same three laws, except
    that it copies a span whose expression starts with [@css:] or [@XPath:]
    instead of evaluating it ([span_text]); without an initialized engine
    [EvaluateTemplate] returns the template as it is. *)
Theorem template_expanders_expand :
  (forall tpl e, absent "{{" tpl -> QuickJsEngine.processTemplate tpl e = (tpl, e))
  /\ (forall pre expr rest e,
        first_at "{{" (pre ++ "{{" ++ expr ++ "}}" ++ rest) (String.length pre) ->
        first_at "}}" (expr ++ "}}" ++ rest) (String.length expr) ->
        QuickJsEngine.processTemplate (pre ++ "{{" ++ expr ++ "}}" ++ rest) e =
          let (value, e1) := QuickJsEngine.eval expr e in
          let (out, e2) := QuickJsEngine.processTemplate rest e1 in
          (pre ++ value ++ out, e2))
  /\ (forall pre rest e,
        first_at "{{" (pre ++ "{{" ++ rest) (String.length pre) ->
        absent "}}" rest ->
        QuickJsEngine.processTemplate (pre ++ "{{" ++ rest) e = (pre ++ "{{" ++ rest, e))
  /\ (forall e e1, QuickJsEngine.eval "1+1" e = ("2", e1) ->
        QuickJsEngine.processTemplate "a{{1+1}}b" e = ("a2b", e1))
  /\ (forall e, QuickJsEngine.processTemplate "a{{x" e = ("a{{x", e))
  /\ (forall tpl e, absent "{{" tpl -> JsRuleProcessor.scan_template tpl e = (tpl, e))
  /\ (forall pre expr rest e,
        first_at "{{" (pre ++ "{{" ++ expr ++ "}}" ++ rest) (String.length pre) ->
        first_at "}}" (expr ++ "}}" ++ rest) (String.length expr) ->
        JsRuleProcessor.scan_template (pre ++ "{{" ++ expr ++ "}}" ++ rest) e =
          let (text, e1) := JsRuleProcessor.span_text expr e in
          let (out, e2) := JsRuleProcessor.scan_template rest e1 in
          (pre ++ text ++ out, e2))
  /\ (forall pre rest e,
        first_at "{{" (pre ++ "{{" ++ rest) (String.length pre) ->
        absent "}}" rest ->
        JsRuleProcessor.scan_template (pre ++ "{{" ++ rest) e = (pre ++ "{{" ++ rest, e))
  /\ (forall tpl result baseUrl p e,
        JsRuleProcessor.m_engine p = Some e -> JsRuleProcessor.m_initialized p = true ->
        JsRuleProcessor.EvaluateTemplate tpl result baseUrl p =
          let e0 := JsEngine.setVariable "result" result e in
          let e0 :=
            match baseUrl with
            | Some url => JsEngine.setVariable "baseUrl" url e0
            | None => e0
            end in
          let (output, e') := JsRuleProcessor.scan_template tpl e0 in
          (output, JsRuleProcessor.mk (Some e') (JsRuleProcessor.m_lastError p) true))
  /\ (forall tpl result baseUrl p,
        JsRuleProcessor.m_engine p = None \/ JsRuleProcessor.m_initialized p = false ->
        fst (JsRuleProcessor.EvaluateTemplate tpl result baseUrl p) = tpl).
Proof.
  split; [exact processTemplate_no_marker|].
  split; [exact processTemplate_span|].
  split; [exact processTemplate_unterminated|].
  split; [exact processTemplate_example|].
  split; [exact processTemplate_lone_marker|].
  split; [exact scan_template_no_marker|].
  split; [exact scan_template_span|].
  split; [exact scan_template_unterminated|].
  split; [exact EvaluateTemplate_initialized | exact EvaluateTemplate_not_initialized].
Qed.

End ExpanderFacts.

(** C8 on the demonstration engine, which evaluates [1+1] to [2]. *)
Lemma processTemplate_on_demo :
  QuickJsEngine.processTemplate (vm := Demo.vm) "a{{1+1}}b" Demo.engine
  = ("a2b", Demo.engine).
Proof.
  refine (proj1 (proj2 (proj2 (proj2 (template_expanders_expand (vm := Demo.vm)))))
            Demo.engine Demo.engine _).
  reflexivity.
Defined.

(** C8 as the claim states it fails for [JsRuleProcessor::EvaluateTemplate]:
    the span [{{@css:a}}] is not replaced by what the engine gives for its
    expression (here the empty string), it is copied. *)
Lemma EvaluateTemplate_copies_selector_span :
  fst (JsRuleProcessor.EvaluateTemplate (vm := Demo.vm) "{{@css:a}}" "" None Demo.processor)
  = "{{@css:a}}"
  /\ fst (JsEngine.evaluate (vm := Demo.vm) "@css:a" Demo.js_engine) = ""
  /\ fst (JsRuleProcessor.EvaluateTemplate (vm := Demo.vm) "{{@css:a}}" "" None Demo.processor)
     <> fst (JsEngine.evaluate (vm := Demo.vm) "@css:a" Demo.js_engine).
Proof. repeat split. discriminate. Qed.

(* ===================================================================== *)
(** * The MD5 bridge functions *)
(* ===================================================================== *)

Section Md5Facts.
Import QuickJsEngine.

Lemma hex_digit_lower (v : Z) :
  (0 <= v < 16)%Z -> Spec.is_lower_hex (hex_digit v) = true.
Proof.
  intros H.
  assert (v = 0 \/ v = 1 \/ v = 2 \/ v = 3 \/ v = 4 \/ v = 5 \/ v = 6 \/ v = 7 \/ v = 8
          \/ v = 9 \/ v = 10 \/ v = 11 \/ v = 12 \/ v = 13 \/ v = 14 \/ v = 15)%Z as C by lia.
  repeat (destruct C as [-> | C]; [reflexivity|]). subst. reflexivity.
Qed.

Lemma hex2_lower (x : Z) : Spec.all_chars Spec.is_lower_hex (hex2 (Z.land x 0xff)) = true.
Proof.
  assert (B : (0 <= Z.land x 0xff < 256)%Z).
  { change 0xff%Z with (Z.ones 8). rewrite Z.land_ones by lia.
    apply Z.mod_pos_bound. reflexivity. }
  unfold hex2. cbn [Spec.all_chars].
  rewrite !hex_digit_lower; [reflexivity | |].
  - apply Z.mod_pos_bound. reflexivity.
  - split; [apply Z.div_pos; lia | apply Z.div_lt_upper_bound; lia].
Qed.

Lemma state_hex_length (st : State) : String.length (state_hex st) = 32.
Proof. destruct st as [[[s0 s1] s2] s3]. reflexivity. Qed.

Lemma state_hex_lower (st : State) : Spec.all_chars Spec.is_lower_hex (state_hex st) = true.
Proof.
  destruct st as [[[s0 s1] s2] s3].
  unfold state_hex. cbn [flat_map map seq List.app String.concat].
  rewrite !all_chars_app, !hex2_lower. reflexivity.
Qed.


(** The digests of the standard test inputs. *)
Lemma md5_encode_test_vectors :
  md5_encode "" = "d41d8cd98f00b204e9800998ecf8427e"
  /\ md5_encode "abc" = "900150983cd24fb0d6963f7d28e17f72"
  /\ md5_encode "The quick brown fox jumps over the lazy dog"
     = "9e107d9d372bb6826bd81d3542a419d6"
  /\ md5_encode "abcdefghijklmnopqrstuvwxyzABCDEFGHIJKLMNOPQRSTUVWXYZ0123456789"
     = "76658de2ac7d406f93dfbe8bb6d9f549"
  /\ md5_encode
       "12345678901234567890123456789012345678901234567890123456789012345678901234567890"
     = "57edf4a22be3c955ac49da2e2107b67a".
Proof. repeat split; vm_compute; reflexivity. Qed.

Lemma JsEngine_md5Encode16_long (md5_hash : string -> string) (s : string)
    (rest : list (option string)) :
  24 <= String.length (md5_hash (of_c_str s)) ->
  JsEngine.js_md5Encode16 md5_hash (Some s :: rest)
  = substring 8 16 (JsEngine.js_md5Encode md5_hash (Some s :: rest)).
Proof.
  intros H. unfold JsEngine.js_md5Encode16, JsEngine.js_md5Encode.
  destruct (Nat.leb_spec 24 (String.length (md5_hash (of_c_str s)))) as [_|H']; [|lia].
  unfold substr. f_equal. rewrite N.min_l by lia. reflexivity.
Qed.



Lemma JsEngine_md5Encode16_digest (md5_hash : string -> string) (s : string)
    (rest : list (option string)) :
  String.length (md5_hash (of_c_str s)) = 32 \/ md5_hash (of_c_str s) = "" ->
  JsEngine.js_md5Encode16 md5_hash (Some s :: rest)
  = substring 8 16 (JsEngine.js_md5Encode md5_hash (Some s :: rest)).
Proof.
  intros [L | E].
  - apply JsEngine_md5Encode16_long. lia.
  - unfold JsEngine.js_md5Encode16, JsEngine.js_md5Encode. now rewrite E.
Qed.

(** C10.  For every first argument [s], [md5Encode16] returns the 16
    characters at offset 8 of what [md5Encode] returns.  In
    QuickJsEngine.cpp that is a string of 32 lowercase hexadecimal digits;
    in JsEngine.cpp the relation holds for every platform digest function
    that returns 32 characters (or nothing, when the platform call fails). *)
Theorem md5Encode16_is_middle_of_md5Encode (s : string) (rest : list (option string)) :
  js_java_md5Encode16 (Some s :: rest) = substring 8 16 (js_java_md5Encode (Some s :: rest))
  /\ String.length (js_java_md5Encode (Some s :: rest)) = 32
  /\ String.length (js_java_md5Encode16 (Some s :: rest)) = 16
  /\ Spec.all_chars Spec.is_lower_hex (js_java_md5Encode (Some s :: rest)) = true
  /\ (forall md5_hash : string -> string,
        String.length (md5_hash (of_c_str s)) = 32 \/ md5_hash (of_c_str s) = "" ->
        JsEngine.js_md5Encode16 md5_hash (Some s :: rest)
        = substring 8 16 (JsEngine.js_md5Encode md5_hash (Some s :: rest))).
Proof.
  unfold js_java_md5Encode16, js_java_md5Encode, md5_encode.
  pose proof (state_hex_length (md5_state (of_c_str s))) as L.
  assert (E : substr (state_hex (md5_state (of_c_str s))) 8 16
              = substring 8 16 (state_hex (md5_state (of_c_str s)))).
  { unfold substr. rewrite L. reflexivity. }
  split; [exact E|]. split; [exact L|].
  split; [rewrite E, length_substring, L; reflexivity|].
  split; [apply state_hex_lower|].
  intros md5_hash. apply JsEngine_md5Encode16_digest.
Qed.

End Md5Facts.

(* ===================================================================== *)
(** * Further facts about strings *)
(* ===================================================================== *)

Section MoreStringFacts.

Lemma contains_true_iff (s p : string) :
  p <> "" -> contains s p = true <-> occurs p s.
Proof.
  intros Hp. unfold contains. rewrite <- (find_Some_occurs p s Hp).
  destruct (find s p) as [i|]; split; intros H; try discriminate; eauto.
  destruct H as [i H]. discriminate.
Qed.

Lemma contains_false_iff (s p : string) :
  p <> "" -> contains s p = false <-> absent p s.
Proof.
  intros Hp. unfold contains. rewrite <- (find_None_iff p s Hp).
  destruct (find s p); split; intros H; congruence.
Qed.

Lemma prefix_app (a b : string) : prefix a (a ++ b) = true.
Proof. apply prefix_correct. apply substring_prefix_app. Qed.

Lemma empty_false_iff (s : string) : empty s = false <-> s <> "".
Proof. destruct s; simpl; split; congruence. Qed.

End MoreStringFacts.

(* ===================================================================== *)
(** * The tests for script in a rule *)
(* ===================================================================== *)

Section DetectorFacts.

(** [extractJsFromRule] and [JsRuleProcessor::ParseRule] split a rule in
    the same way: when the former finds script, its outputs [preRule] and
    [jsCode] are the parts [xpathPart] and [jsPart] of the latter; when it
    finds none, it leaves both outputs empty and the latter returns the
    whole rule as [xpathPart]. *)
Theorem extractJsFromRule_splits_as_ParseRule (rule : string) :
  match JsEngine.extractJsFromRule rule with
  | (true, jsCode, preRule) =>
      exists isTemplate,
        JsRuleProcessor.ParseRule (Some rule) = (preRule, jsCode, isTemplate)
  | (false, jsCode, preRule) =>
      jsCode = "" /\ preRule = ""
      /\ JsRuleProcessor.ParseRule (Some rule) = (rule, "", false)
  end.
Proof.
  assert (T : match JsEngine.template_or_none rule with
              | (true, jsCode, preRule) =>
                  exists isTemplate,
                    JsRuleProcessor.template_or_plain rule = (preRule, jsCode, isTemplate)
              | (false, jsCode, preRule) =>
                  jsCode = "" /\ preRule = ""
                  /\ JsRuleProcessor.template_or_plain rule = (rule, "", false)
              end).
  { unfold JsEngine.template_or_none, JsRuleProcessor.template_or_plain, contains.
    destruct (find rule "{{"), (find rule "}}"); simpl; eauto. }
  destruct rule as [|c rule']; [simpl; auto|].
  set (rule := String c rule') in *.
  unfold JsEngine.extractJsFromRule, JsRuleProcessor.ParseRule.
  change (empty rule) with false. cbv iota.
  destruct (find rule "@js:"); [eauto|].
  destruct (find rule "<js>") as [i|]; [|exact T].
  destruct (find rule "</js>") as [j|]; [|exact T].
  destruct (i <? j)%nat; [eauto | exact T].
Qed.

(** The four tests for script in a rule are ordered: what the converter's
    [contains_js] accepts, [ruleContainsJs] accepts;
    [LegadoRuleParser::ContainsJs] is [ruleContainsJs]; what
    [ruleContainsJs] accepts, [QuickJsEngine::containsJs] accepts; and
    [extractJsFromRule] finds script only where [ruleContainsJs] holds.
    None of the three implications can be turned around. *)
Theorem js_detectors_are_ordered :
  (forall rule,
     LegadoConverter.contains_js (Some rule) = true -> JsEngine.ruleContainsJs rule = true)
  /\ (forall rule, LegadoRuleParser.ContainsJs rule = JsEngine.ruleContainsJs rule)
  /\ (forall rule,
        JsEngine.ruleContainsJs rule = true -> QuickJsEngine.containsJs rule = true)
  /\ (forall rule,
        fst (fst (JsEngine.extractJsFromRule rule)) = true ->
        JsEngine.ruleContainsJs rule = true)
  /\ (LegadoConverter.contains_js (Some "{{key}}") = false
      /\ JsEngine.ruleContainsJs "{{key}}" = true)
  /\ (JsEngine.ruleContainsJs "{{key" = false /\ QuickJsEngine.containsJs "{{key" = true)
  /\ (fst (fst (JsEngine.extractJsFromRule "<js>1+1")) = false
      /\ JsEngine.ruleContainsJs "<js>1+1" = true).
Proof.
  split; [|split; [|split; [|split; [|repeat split]]]].
  - intros rule. unfold LegadoConverter.contains_js, JsEngine.ruleContainsJs, contains.
    destruct (String.length rule =? 0)%nat; [discriminate|].
    destruct (find rule "@js:"); [reflexivity|].
    destruct (find rule "<js>"); [reflexivity|].
    destruct (find rule "{{"); [|discriminate].
    destruct (find rule "}}"); [reflexivity | discriminate].
  - intros rule. unfold LegadoRuleParser.ContainsJs, JsEngine.ruleContainsJs.
    destruct (contains rule "@js:"), (contains rule "<js>"),
      (contains rule "{{"), (contains rule "}}"); reflexivity.
  - intros rule. unfold JsEngine.ruleContainsJs, QuickJsEngine.containsJs.
    destruct (contains rule "@js:"), (contains rule "<js>"),
      (contains rule "{{"), (contains rule "}}"); simpl; congruence.
  - intros rule. unfold JsEngine.extractJsFromRule, JsEngine.ruleContainsJs,
      JsEngine.template_or_none, contains.
    destruct (find rule "@js:"); [reflexivity|].
    destruct (find rule "<js>"); [reflexivity|].
    destruct (find rule "</js>"); simpl;
      destruct (find rule "{{"), (find rule "}}"); simpl; congruence.
Qed.

End DetectorFacts.

(* ===================================================================== *)
(** * Variables, the error flag and the rule kinds of LegadoRuleParser *)
(* ===================================================================== *)

Section VariableFacts.
Context {vm : JsVm}.



Lemma of_c_str_idempotent (s : string) :
  QuickJsEngine.of_c_str (QuickJsEngine.of_c_str s) = QuickJsEngine.of_c_str s.
Proof.
  induction s as [|c s IH]; [reflexivity|]. simpl.
  destruct (Ascii.eqb c "000") eqn:E; [reflexivity|]. simpl. now rewrite E, IH.
Qed.


End VariableFacts.

Section ParserFacts.
Context {vm : JsVm} {xp : XPathEngine}.
Import LegadoRuleParser.

Lemma js_loop_accumulates (jsRule : string) (stop : StopFlag) (items : list string) :
  forall i e lastError hasError value,
  js_loop jsRule stop i items e lastError hasError value =
    let '(e', lastError', hasError', out) :=
      js_loop jsRule stop i items e lastError hasError [] in
    (e', lastError', hasError', (value ++ out)%list).
Proof.
  induction items as [|item rest IH]; intros i e lastError hasError value.
  - simpl. now rewrite app_nil_r.
  - cbn [js_loop]. destruct (stop_requested stop i); [now rewrite app_nil_r|].
    destruct (QuickJsEngine.eval jsRule (QuickJsEngine.setResult item e)) as [r e1].
    destruct (QuickJsEngine.hasError e1).
    + rewrite IH. rewrite (IH _ _ _ _ ([] ++ [item])%list).
      destruct (js_loop jsRule stop (S i) rest e1 (QuickJsEngine.getLastError e1) true [])
        as [[[e2 l2] h2] out]. now rewrite <- app_assoc.
    + rewrite IH. rewrite (IH _ _ _ _ ([] ++ [r])%list).
      destruct (js_loop jsRule stop (S i) rest e1 lastError hasError [])
        as [[[e2 l2] h2] out]. now rewrite <- app_assoc.
Qed.

(** What [ParseRule] does with the vector it is given depends on the
    rule: with a script tail (and a script engine) the outputs are appended
    to the vector; without one the base results replace its contents; and
    when the base phase fails the vector is left as it is. *)
Theorem ParseRule_appends_or_replaces
    (html rule : string) (value : list string) (stop : StopFlag) (p : t) :
  rule <> "" ->
  let '(ret, out, p') := ParseRule html rule [] stop p in
  ParseRule html rule value stop p =
    (ret,
     if negb (ret =? 0)%Z then value
     else
       match m_jsEngine p' with
       | Some _ => if empty (snd (SplitRule rule)) then out else (value ++ out)%list
       | None => out
       end,
     p').
Proof.
  intros N. unfold ParseRule. destruct rule as [|c r]; [congruence|].
  change (empty (String c r)) with false. cbv iota.
  destruct (SplitRule (String c r)) as [baseRule jsRule]. cbn [snd].
  destruct (base_phase html baseRule stop (mk (m_jsEngine p) "" false))
    as [[ret baseResult] p1].
  destruct (ret =? 0)%Z eqn:Hret; cbn [negb].
  - destruct (m_jsEngine p1) as [e|] eqn:He.
    + destruct (empty jsRule) eqn:Hj; cbn [negb].
      * rewrite He. reflexivity.
      * rewrite (js_loop_accumulates jsRule stop baseResult 0 e _ _ value).
        destruct (js_loop jsRule stop 0 baseResult e (m_lastError p1) (m_hasError p1) [])
          as [[[e2 l2] h2] out].
        reflexivity.
    + rewrite He. reflexivity.
  - rewrite Hret. reflexivity.
Qed.

(** [EvalJs], [ParseJsRule] and [ParseJsonPathRule] can raise the
    parser's error flag and never lower it, and [SetResult] leaves it
    alone: once [HasError] holds it holds after any of these calls, also
    after a script that succeeds.  (Only [ParseRule] resets the flag, at
    its start.) *)
Theorem error_flag_is_sticky (p : t) :
  HasError p = true ->
  (forall code, HasError (snd (EvalJs code p)) = true)
  /\ (forall content js value stop, HasError (snd (ParseJsRule content js value stop p)) = true)
  /\ (forall json jsonpath value stop,
        HasError (snd (ParseJsonPathRule json jsonpath value stop p)) = true)
  /\ (forall result, HasError (SetResult result p) = true)
  /\ (forall html value stop, HasError (snd (ParseRule html "" value stop p)) = false).
Proof.
  intros H. unfold HasError in *.
  split; [|split; [|split; [|split]]].
  - intros code. unfold EvalJs. destruct (m_jsEngine p) as [e|]; [|reflexivity].
    destruct (QuickJsEngine.eval code e) as [r e1].
    destruct (QuickJsEngine.hasError e1); [reflexivity | exact H].
  - intros content js value stop. unfold ParseJsRule.
    destruct (m_jsEngine p) as [e|]; [|reflexivity].
    destruct (QuickJsEngine.eval js (QuickJsEngine.setResult content e)) as [r e1].
    destruct (QuickJsEngine.hasError e1); [reflexivity | exact H].
  - intros json jsonpath value stop. unfold ParseJsonPathRule.
    destruct (m_jsEngine p) as [e|]; [|reflexivity].
    destruct (QuickJsEngine.eval _ (QuickJsEngine.setResult json e)) as [r e1].
    destruct (QuickJsEngine.hasError e1); [reflexivity | exact H].
  - intros result. unfold SetResult. destruct (m_jsEngine p); exact H.
  - reflexivity.
Qed.

(** In a JSONPath rule the markers [@json:] and [$.] are optional and
    interchangeable: for a path that does not itself begin with [$.], the base
    rules [@json:$.path], [$.path] and [@json:path] run
    the same script on the content. *)
Theorem jsonpath_markers_are_optional
    (html path : string) (stop : StopFlag) (p : t) :
  prefix "$." path = false ->
  base_phase html ("@json:" ++ "$." ++ path) stop p
    = ParseJsonPathRule html path [] stop p
  /\ base_phase html ("$." ++ path) stop p = ParseJsonPathRule html path [] stop p
  /\ base_phase html ("@json:" ++ path) stop p = ParseJsonPathRule html path [] stop p.
Proof.
  intros H1.
  assert (D : forall q, ParseJsonPathRule html ("$." ++ q) [] stop p
                        = ParseJsonPathRule html q [] stop p
                          \/ prefix "$." q = true).
  { intros q. destruct (prefix "$." q) eqn:E; [now right|left].
    unfold ParseJsonPathRule. rewrite !find_is_0_prefix, E.
    rewrite (prefix_app "$." q).
    change 2 with (String.length "$."). now rewrite (substr_from_app "$." q). }
  destruct (D path) as [D1|D1]; [|congruence].
  unfold base_phase. rewrite !find_is_0_prefix.
  repeat split.
  - change (prefix "@css:" ("@json:" ++ "$." ++ path)) with false.
    rewrite (prefix_app "@json:" ("$." ++ path)).
    change (empty ("@json:" ++ "$." ++ path)) with false. cbn [negb orb].
    change 6 with (String.length "@json:").
    rewrite (substr_from_app "@json:" ("$." ++ path)). exact D1.
  - change (prefix "@css:" ("$." ++ path)) with false.
    change (prefix "@json:" ("$." ++ path)) with false.
    rewrite (prefix_app "$." path).
    change (empty ("$." ++ path)) with false. cbn [negb orb]. exact D1.
  - change (prefix "@css:" ("@json:" ++ path)) with false.
    rewrite (prefix_app "@json:" path).
    change (empty ("@json:" ++ path)) with false. cbn [negb orb].
    change 6 with (String.length "@json:").
    now rewrite (substr_from_app "@json:" path).
Qed.

End ParserFacts.

(* ===================================================================== *)
(** * The rule reader of QuickJsEngine and the search URL *)
(* ===================================================================== *)

Section ProcessRuleFacts.
Context {vm : JsVm}.
Import QuickJsEngine.

Lemma script_prefix_test (rule : string) :
  (substr rule 0 4 =? "@js:") = prefix "@js:" rule.
Proof.
  change 4%N with (N.of_nat 4). rewrite substr_nat.
  destruct (prefix "@js:" rule) eqn:E.
  - apply prefix_correct in E. simpl String.length in E. rewrite E. reflexivity.
  - apply String.eqb_neq. intros H.
    assert (prefix "@js:" rule = true) by (apply prefix_correct; exact H). congruence.
Qed.

(** How [processRule] reads a rule.  [e'] is the engine after the
    optional [setResult]: with an empty [result] the variable is not
    rebound and the script sees the value of an earlier call.
    - A rule that begins with [@js:] is the script after the marker.
    - Otherwise, with [<js>] before [</js>], the script is the text between
      the tags; what stands before and after them is not looked at.
    - With [<js>] and no closing tag the empty script is evaluated.
    - A rule that does not begin with [@js:] and holds neither [<js>] nor
      [{{] is returned as it is, also when [@js:] occurs further in. *)
Theorem processRule_reads_rule (result : string) (e : t) :
  let e' := if empty result then e else setResult result e in
  (forall code, processRule ("@js:" ++ code) result e = eval code e')
  /\ (forall pre body rest,
        let rule := pre ++ "<js>" ++ body ++ "</js>" ++ rest in
        prefix "@js:" rule = false ->
        first_at "<js>" rule (String.length pre) ->
        first_at "</js>" rule (String.length pre + 4 + String.length body) ->
        processRule rule result e = eval body e')
  /\ (forall rule,
        prefix "@js:" rule = false -> occurs "<js>" rule -> absent "</js>" rule ->
        processRule rule result e = eval "" e')
  /\ (forall rule,
        rule <> "" -> prefix "@js:" rule = false ->
        absent "<js>" rule -> absent "{{" rule ->
        processRule rule result e = (rule, e')).
Proof.
  intros e'.
  assert (E' : (if negb (empty result) then setResult result e else e) = e').
  { subst e'. now destruct (empty result). }
  split; [|split; [|split]].
  - intros code. unfold processRule. change (empty ("@js:" ++ code)) with false. cbv iota.
    rewrite E', script_prefix_test, prefix_app.
    change 4 with (String.length "@js:"). now rewrite substr_from_app.
  - intros pre body rest rule P F1 F2. unfold processRule.
    assert (N : empty rule = false) by (subst rule; now destruct pre).
    rewrite N, E', script_prefix_test, P.
    apply find_Some_iff in F1; [|discriminate]. rewrite F1.
    apply find_Some_iff in F2; [|discriminate]. rewrite F2.
    rewrite size_t_sub_exact by lia. rewrite substr_nat.
    replace (String.length pre + 4 + String.length body - (String.length pre + 4))
      with (String.length body) by lia.
    subst rule.
    replace (pre ++ "<js>" ++ body ++ "</js>" ++ rest)
      with ((pre ++ "<js>") ++ body ++ "</js>" ++ rest) by apply append_assoc.
    replace (String.length pre + 4) with (String.length (pre ++ "<js>"))
      by (rewrite length_append; reflexivity).
    now rewrite substring_mid_app.
  - intros rule P O A. unfold processRule.
    assert (N : empty rule = false).
    { destruct rule; [|reflexivity]. destruct O as [i O]. unfold occurs_at in O.
      destruct i; discriminate. }
    rewrite N, E', script_prefix_test, P.
    apply find_Some_occurs in O; [|discriminate]. destruct O as [i O]. rewrite O.
    apply find_None_iff in A; [|discriminate]. now rewrite A.
  - intros rule N P A1 A2. unfold processRule.
    destruct rule as [|c r]; [congruence|]. change (empty (String c r)) with false. cbv iota.
    rewrite E', script_prefix_test, P.
    apply find_None_iff in A1; [|discriminate]. rewrite A1.
    apply contains_false_iff in A2; [|discriminate]. now rewrite A2.
Qed.

Lemma eval_consistent (code : string) (e : t) :
  hasError (snd (eval code e)) = negb (empty (getLastError (snd (eval code e))))
  /\ (hasError (snd (eval code e)) = true -> fst (eval code e) = "").
Proof.
  unfold eval. cbn [clearError m_context].
  destruct (m_context e) as [ctx|]; [|split; reflexivity].
  destruct (JS_Eval ctx code) as [ctx' [v|[str|]]]; cbn; split; try reflexivity.
  discriminate.
Qed.

Lemma processTemplate_loop_consistent (fuel : nat) (tpl : string) :
  forall pos result e,
  hasError e = negb (empty (getLastError e)) ->
  hasError (snd (processTemplate_loop fuel tpl pos result e))
  = negb (empty (getLastError (snd (processTemplate_loop fuel tpl pos result e)))).
Proof.
  induction fuel as [|fuel IH]; intros pos result e H; [exact H|].
  cbn [processTemplate_loop].
  destruct (pos <? String.length tpl)%nat; [|exact H].
  destruct (find_from tpl "{{" pos) as [start|]; [|exact H].
  destruct (find_from tpl "}}" start) as [end_|]; [|exact H].
  pose proof (eval_consistent
                (substr tpl (start + 2)
                   (size_t_sub (size_t_sub (N.of_nat end_) (N.of_nat start)) 2)) e) as [C _].
  destruct (eval _ e) as [value e1]. apply IH. exact C.
Qed.

(** The error state of the engine is consistent.  After [eval] the flag
    [hasError] is set exactly when [getLastError] is not empty, whatever
    the state was before, and a call that sets the flag returns the empty
    string; the same holds after [setResult].  [processTemplate] and
    [processRule], which may run no script at all, keep the property when
    it held before the call. *)
Theorem error_state_is_consistent :
  (forall code e,
     hasError (snd (eval code e)) = negb (empty (getLastError (snd (eval code e))))
     /\ (hasError (snd (eval code e)) = true -> fst (eval code e) = ""))
  /\ (forall value e,
        hasError (setResult value e) = negb (empty (getLastError (setResult value e))))
  /\ (forall tpl e,
        hasError e = negb (empty (getLastError e)) ->
        hasError (snd (processTemplate tpl e))
        = negb (empty (getLastError (snd (processTemplate tpl e)))))
  /\ (forall rule result e,
        hasError e = negb (empty (getLastError e)) ->
        hasError (snd (processRule rule result e))
        = negb (empty (getLastError (snd (processRule rule result e))))).
Proof.
  split; [exact eval_consistent|].
  split; [intros value e; unfold setResult; apply eval_consistent|].
  split; [intros tpl e; apply processTemplate_loop_consistent|].
  intros rule result e H. unfold processRule.
  destruct (empty rule); [exact H|].
  assert (H' : let e' := if negb (empty result) then setResult result e else e in
               hasError e' = negb (empty (getLastError e'))).
  { destruct (empty result); cbn [negb]; [exact H|].
    unfold setResult. apply eval_consistent. }
  cbv zeta in H'. set (e' := if negb (empty result) then setResult result e else e) in *.
  destruct (substr rule 0 4 =? "@js:"); [apply eval_consistent|].
  destruct (find rule "<js>"); [apply eval_consistent|].
  destruct (contains rule "{{"); [|exact H'].
  apply processTemplate_loop_consistent. exact H'.
Qed.

End ProcessRuleFacts.

Section SearchUrlFacts.
Context {vm : JsVm} {xp : XPathEngine}.
Import LegadoRuleParser.


End SearchUrlFacts.

(* ===================================================================== *)
(** * Running a rule in JsRuleProcessor *)
(* ===================================================================== *)

Section ExecutionFacts.
Context {vm : JsVm} {xp : XPathEngine}.
Import JsRuleProcessor.



Lemma ParseRule_without_script (rule : string) :
  JsEngine.ruleContainsJs rule = false -> ParseRule (Some rule) = (rule, "", false).
Proof.
  unfold JsEngine.ruleContainsJs, contains. intros H.
  destruct rule as [|c r]; [reflexivity|]. set (rule := String c r) in *.
  unfold ParseRule. change (empty rule) with false. cbv iota.
  destruct (find rule "@js:"); [discriminate|].
  destruct (find rule "<js>"); [discriminate|].
  unfold template_or_plain.
  destruct (find rule "{{"), (find rule "}}"); try discriminate;
    now destruct (find rule "</js>").
Qed.

(** A rule in which [RuleContainsJs] finds no script is run as one XPath
    expression: [ProcessRule] returns the status and the results of
    [ExecuteXPath] on the whole rule, discards what the vector held, and
    leaves the processor as it is. *)
Theorem ProcessRule_without_script
    (html rule : string) (results : list string) (baseUrl : option string) (p : t) :
  RuleContainsJs (Some rule) = false ->
  ProcessRule html (Some rule) results baseUrl p
  = (fst (ExecuteXPath html rule []), snd (ExecuteXPath html rule []), p).
Proof.
  intros H. unfold ProcessRule. destruct rule as [|c r]; [reflexivity|].
  unfold RuleContainsJs in H.
  change (String.length (String c r) =? 0)%nat with false in *. cbv iota in *.
  rewrite (ParseRule_without_script _ H). cbn [empty].
  now destruct (ExecuteXPath html (String c r) []).
Qed.

(** A call that returns a non-empty result leaves the error message
    alone: [JsEngine::evaluate] does not clear [m_lastError] when it
    succeeds, and neither does [ExecuteJs]; the message of an earlier
    failure is still what [getLastError] returns. *)
Theorem success_keeps_the_last_error :
  (forall (code : string) (e : JsEngine.t),
     fst (JsEngine.evaluate code e) <> "" ->
     JsEngine.m_lastError (snd (JsEngine.evaluate code e)) = JsEngine.m_lastError e)
  /\ (forall (code input : string) (baseUrl : option string) (p : t),
        fst (ExecuteJs code input baseUrl p) <> "" ->
        m_lastError (snd (ExecuteJs code input baseUrl p)) = m_lastError p).
Proof.
  split.
  - intros code e. unfold JsEngine.evaluate.
    destruct (JsEngine.m_initialized e); cbn [negb]; [|simpl; congruence].
    destruct (JsEngine.m_context e) as [ctx|]; [|simpl; congruence].
    destruct (JS_Eval ctx _) as [ctx' [v|exn]]; simpl; congruence.
  - intros code input baseUrl p. unfold ExecuteJs.
    destruct (m_engine p) as [e|]; [|simpl; congruence].
    destruct (m_initialized p); [|simpl; congruence].
    destruct (JsEngine.evaluate code _) as [r e1]. cbn [fst snd m_lastError].
    intros N. apply empty_false_iff in N. now rewrite N.
Qed.

End ExecutionFacts.

(* ===================================================================== *)
(** * Base64 *)
(* ===================================================================== *)

Section Base64Facts.
Import QuickJsEngine Reference.
Local Open Scope Z_scope.

Lemma byte_range (c : ascii) : 0 <= byte c < 256.
Proof.
  unfold byte. pose proof (nat_ascii_bounded c). lia.
Qed.

Lemma char_of_byte (c : ascii) : char_of (byte c) = c.
Proof.
  unfold char_of, byte. rewrite Z.mod_small by (pose proof (nat_ascii_bounded c); lia).
  rewrite Nat2Z.id. apply ascii_nat_embedding.
Qed.

(** Two numbers with the same 32 low bits. *)
Lemma eq32_int32 (x : Z) : eq32 (int32 x) x.
Proof.
  unfold eq32, int32.
  replace ((x + 2 ^ 31) mod 2 ^ 32 - 2 ^ 31) with (x - 2 ^ 32 * ((x + 2 ^ 31) / 2 ^ 32)).
  - rewrite <- Zminus_mod_idemp_r. rewrite Z.mul_comm, Z_mod_mult. now rewrite Z.sub_0_r.
  - rewrite (Z.mod_eq (x + 2 ^ 31)) by lia. lia.
Qed.

Lemma eq32_trans (x y z : Z) : eq32 x y -> eq32 y z -> eq32 x z.
Proof. unfold eq32. congruence. Qed.

Lemma eq32_add (x y a : Z) : eq32 x y -> eq32 (x + a) (y + a).
Proof. unfold eq32. intros H. rewrite <- Zplus_mod_idemp_l, H, Zplus_mod_idemp_l. reflexivity. Qed.

Lemma eq32_mul (x y k : Z) : eq32 x y -> eq32 (x * k) (y * k).
Proof. unfold eq32. intros H. rewrite <- Zmult_mod_idemp_l, H, Zmult_mod_idemp_l. reflexivity. Qed.

(** The step [val = (val << n) + d] keeps the low bits of the exact sum. *)
Lemma eq32_step (val ideal d : Z) (n : Z) :
  0 <= n -> eq32 val ideal ->
  eq32 (int32 (int32 (Z.shiftl val n) + d)) (ideal * 2 ^ n + d).
Proof.
  intros Hn H. eapply eq32_trans; [apply eq32_int32|].
  apply eq32_add. eapply eq32_trans; [apply eq32_int32|].
  rewrite Z.shiftl_mul_pow2 by exact Hn. now apply eq32_mul.
Qed.

(** Bits [k .. k+m) of a number, for [k + m <= 32], only depend on its 32
    low bits. *)
Lemma field_eq32 (x y k m : Z) :
  0 <= k -> 0 <= m -> k + m <= 32 -> eq32 x y ->
  Z.land (Z.shiftr x k) (Z.ones m) = (y / 2 ^ k) mod 2 ^ m.
Proof.
  intros Hk Hm Hkm H.
  rewrite <- (Z.land_ones (y / 2 ^ k)) by exact Hm.
  rewrite <- Z.shiftr_div_pow2 by exact Hk.
  apply Z.bits_inj'. intros i Hi.
  rewrite !Z.land_spec, !Z.shiftr_spec by exact Hi.
  rewrite Z.testbit_ones_nonneg by lia.
  destruct (Z.ltb_spec i m) as [L|L]; [|now rewrite !andb_false_r].
  rewrite !andb_true_r.
  rewrite <- (Z.mod_pow2_bits_low x 32 (i + k)) by lia.
  rewrite <- (Z.mod_pow2_bits_low y 32 (i + k)) by lia.
  unfold eq32 in H. now rewrite H.
Qed.

Lemma eq32_refl (x : Z) : eq32 x x.
Proof. reflexivity. Qed.

Lemma encode_step (c : ascii) (rest : string) (v valb : Z) (out : string) :
  base64_encode_loop (String c rest) v valb out
  = let v' := int32 (int32 (Z.shiftl v 8) + byte c) in
    let (out', valb') := base64_emit (S (Z.to_nat ((valb + 8) / 6))) v' (valb + 8) out in
    base64_encode_loop rest v' valb' out'.
Proof. reflexivity. Qed.

Lemma emit_2 (v : Z) (out : string) :
  base64_emit (S (Z.to_nat ((-6 + 8) / 6))) v (-6 + 8) out
  = (out ++ String (base64_char (Z.land (Z.shiftr v 2) (Z.ones 6))) "", -4).
Proof. reflexivity. Qed.

Lemma emit_4 (v : Z) (out : string) :
  base64_emit (S (Z.to_nat ((-4 + 8) / 6))) v (-4 + 8) out
  = (out ++ String (base64_char (Z.land (Z.shiftr v 4) (Z.ones 6))) "", -2).
Proof. reflexivity. Qed.

Lemma emit_6 (v : Z) (out : string) :
  base64_emit (S (Z.to_nat ((-2 + 8) / 6))) v (-2 + 8) out
  = ((out ++ String (base64_char (Z.land (Z.shiftr v 6) (Z.ones 6))) "")
       ++ String (base64_char (Z.land (Z.shiftr v 0) (Z.ones 6))) "", -6).
Proof. reflexivity. Qed.

(** The indices that the encoder emits for bytes [a], [b], [c], whatever
    the accumulator held before. *)
Lemma sextet_0 (v a : Z) : 0 <= a < 256 -> ((v * 2 ^ 8 + a) / 2 ^ 2) mod 2 ^ 6 = a / 4.
Proof. intros H. change (2 ^ 8) with 256. change (2 ^ 2) with 4. change (2 ^ 6) with 64.
  Z.div_mod_to_equations. lia. Qed.

Lemma sextet_1 (v a b : Z) :
  0 <= a < 256 -> 0 <= b < 256 ->
  (((v * 2 ^ 8 + a) * 2 ^ 8 + b) / 2 ^ 4) mod 2 ^ 6 = a mod 4 * 16 + b / 16.
Proof. intros Ha Hb. change (2 ^ 8) with 256. change (2 ^ 4) with 16. change (2 ^ 6) with 64.
  Z.div_mod_to_equations. lia. Qed.

Lemma sextet_2 (v b c : Z) :
  0 <= b < 256 -> 0 <= c < 256 ->
  (((v * 2 ^ 8 + b) * 2 ^ 8 + c) / 2 ^ 6) mod 2 ^ 6 = b mod 16 * 4 + c / 64.
Proof. intros Hb Hc. change (2 ^ 8) with 256. change (2 ^ 6) with 64.
  Z.div_mod_to_equations. lia. Qed.

Lemma sextet_3 (v c : Z) : 0 <= c < 256 -> ((v * 2 ^ 8 + c) / 2 ^ 0) mod 2 ^ 6 = c mod 64.
Proof. intros H. change (2 ^ 8) with 256. change (2 ^ 0) with 1. change (2 ^ 6) with 64.
  Z.div_mod_to_equations. lia. Qed.

Lemma string_ind3 (P : string -> Prop) :
  P EmptyString ->
  (forall a, P (String a EmptyString)) ->
  (forall a b, P (String a (String b EmptyString))) ->
  (forall a b c s, P s -> P (String a (String b (String c s)))) ->
  forall s, P s.
Proof.
  intros H0 H1 H2 H3.
  assert (A : forall s, P s /\ (forall a, P (String a s)) /\ (forall a b, P (String a (String b s)))).
  { induction s as [|c s (IH0 & IH1 & IH2)].
    - repeat split; auto.
    - repeat split; auto. }
  intros s. apply A.
Qed.

Lemma encode_group (a b c : ascii) (rest : string) (v : Z) (out : string) :
  exists v',
    base64_encode_loop (String a (String b (String c rest))) v (-6) out
    = base64_encode_loop rest v' (-6) (out ++ Reference.group3 (byte a) (byte b) (byte c)).
Proof.
  pose proof (byte_range a) as Ha. pose proof (byte_range b) as Hb.
  pose proof (byte_range c) as Hc.
  eexists. rewrite encode_step. cbv zeta. rewrite emit_2.
  rewrite encode_step. cbv zeta. rewrite emit_4.
  rewrite encode_step. cbv zeta. rewrite emit_6.
  set (v1 := int32 (int32 (Z.shiftl v 8) + byte a)).
  set (v2 := int32 (int32 (Z.shiftl v1 8) + byte b)).
  set (v3 := int32 (int32 (Z.shiftl v2 8) + byte c)).
  assert (E1 : eq32 v1 (v * 2 ^ 8 + byte a)) by (apply eq32_step; [lia | apply eq32_refl]).
  assert (E2 : eq32 v2 ((v * 2 ^ 8 + byte a) * 2 ^ 8 + byte b))
    by (apply eq32_step; [lia | exact E1]).
  assert (E3 : eq32 v3 (((v * 2 ^ 8 + byte a) * 2 ^ 8 + byte b) * 2 ^ 8 + byte c))
    by (apply eq32_step; [lia | exact E2]).
  rewrite (field_eq32 v1 _ 2 6 ltac:(lia) ltac:(lia) ltac:(lia) E1), sextet_0 by exact Ha.
  rewrite (field_eq32 v2 _ 4 6 ltac:(lia) ltac:(lia) ltac:(lia) E2), sextet_1 by assumption.
  rewrite (field_eq32 v3 _ 6 6 ltac:(lia) ltac:(lia) ltac:(lia) E3), sextet_2 by assumption.
  rewrite (field_eq32 v3 _ 0 6 ltac:(lia) ltac:(lia) ltac:(lia) E3), sextet_3 by assumption.
  unfold Reference.group3. rewrite !append_assoc. reflexivity.
Qed.

Lemma pad_step (n : nat) (o : string) :
  base64_pad (S n) o
  = if (String.length o mod 4 =? 0)%nat then o else base64_pad n (o ++ "=").
Proof. reflexivity. Qed.

Lemma pad_0 (s : string) : (String.length s mod 4 = 0)%nat -> base64_pad 3 s = s.
Proof. intros H. rewrite pad_step. now rewrite H. Qed.

Lemma length_mod4_app (s t : string) :
  (String.length s mod 4 = 0)%nat ->
  (String.length (s ++ t) mod 4 = String.length t mod 4)%nat.
Proof.
  intros H. rewrite length_append, Nat.Div0.add_mod, H. cbn [Nat.add].
  now rewrite Nat.Div0.mod_mod.
Qed.

Lemma pad_2 (s : string) (x y : ascii) :
  (String.length s mod 4 = 0)%nat ->
  base64_pad 3 (s ++ String x (String y "")) = s ++ String x (String y "==").
Proof.
  intros H.
  rewrite pad_step, (length_mod4_app s _ H). cbn [String.length].
  change ((2 mod 4 =? 0)%nat) with false. cbv iota.
  rewrite append_assoc. cbn [append].
  rewrite pad_step, (length_mod4_app s _ H). cbn [String.length].
  change ((3 mod 4 =? 0)%nat) with false. cbv iota.
  rewrite append_assoc. cbn [append].
  rewrite pad_step, (length_mod4_app s _ H). cbn [String.length].
  change ((4 mod 4 =? 0)%nat) with true. cbv iota. reflexivity.
Qed.

Lemma pad_3 (s : string) (x y z : ascii) :
  (String.length s mod 4 = 0)%nat ->
  base64_pad 3 (s ++ String x (String y (String z ""))) = s ++ String x (String y (String z "=")).
Proof.
  intros H.
  rewrite pad_step, (length_mod4_app s _ H). cbn [String.length].
  change ((3 mod 4 =? 0)%nat) with false. cbv iota.
  rewrite append_assoc. cbn [append].
  rewrite pad_step, (length_mod4_app s _ H). cbn [String.length].
  change ((4 mod 4 =? 0)%nat) with true. cbv iota. reflexivity.
Qed.

Lemma sextet_1_last (v a : Z) :
  0 <= a < 256 -> (((v * 2 ^ 8 + a) * 2 ^ 8) / 2 ^ 4) mod 2 ^ 6 = a mod 4 * 16.
Proof. intros Ha. change (2 ^ 8) with 256. change (2 ^ 4) with 16. change (2 ^ 6) with 64.
  Z.div_mod_to_equations. lia. Qed.

Lemma sextet_2_last (v b : Z) :
  0 <= b < 256 -> (((v * 2 ^ 8 + b) * 2 ^ 8) / 2 ^ 6) mod 2 ^ 6 = b mod 16 * 4.
Proof. intros Hb. change (2 ^ 8) with 256. change (2 ^ 6) with 64.
  Z.div_mod_to_equations. lia. Qed.

Lemma eq32_shift (val ideal n : Z) :
  0 <= n -> eq32 val ideal -> eq32 (int32 (Z.shiftl val n)) (ideal * 2 ^ n).
Proof.
  intros Hn H. eapply eq32_trans; [apply eq32_int32|].
  rewrite Z.shiftl_mul_pow2 by exact Hn. now apply eq32_mul.
Qed.

(** The encoder computes Base64 by groups of three bytes. *)
Lemma encode_from (s : string) :
  forall v out, (String.length out mod 4 = 0)%nat ->
  (let '(val, valb, output) := base64_encode_loop s v (-6) out in
   base64_pad 3
     (if -6 <? valb then
        output
        ++ String (base64_char (Z.land (Z.shiftr (int32 (Z.shiftl val 8)) (valb + 8)) 0x3F)) ""
      else output))
  = out ++ Reference.base64 s.
Proof.
  induction s as [|a|a b|a b c s IH] using string_ind3; intros v out L.
  - cbn [base64_encode_loop]. change (-6 <? -6) with false. cbv iota.
    rewrite pad_0 by exact L. now rewrite append_nil_r.
  - pose proof (byte_range a) as Ha.
    rewrite encode_step. cbv zeta. rewrite emit_2. cbn [base64_encode_loop].
    change (-6 <? -4) with true. cbv iota. change (-4 + 8) with 4.
    set (v1 := int32 (int32 (Z.shiftl v 8) + byte a)).
    assert (E1 : eq32 v1 (v * 2 ^ 8 + byte a)) by (apply eq32_step; [lia | apply eq32_refl]).
    rewrite (field_eq32 v1 _ 2 6 ltac:(lia) ltac:(lia) ltac:(lia) E1), sextet_0 by exact Ha.
    change 0x3F with (Z.ones 6).
    rewrite (field_eq32 _ _ 4 6 ltac:(lia) ltac:(lia) ltac:(lia)
               (eq32_shift v1 _ 8 ltac:(lia) E1)), sextet_1_last by exact Ha.
    rewrite append_assoc. cbn [append]. rewrite pad_2 by exact L. reflexivity.
  - pose proof (byte_range a) as Ha. pose proof (byte_range b) as Hb.
    rewrite encode_step. cbv zeta. rewrite emit_2.
    rewrite encode_step. cbv zeta. rewrite emit_4. cbn [base64_encode_loop].
    change (-6 <? -2) with true. cbv iota. change (-2 + 8) with 6.
    set (v1 := int32 (int32 (Z.shiftl v 8) + byte a)).
    set (v2 := int32 (int32 (Z.shiftl v1 8) + byte b)).
    assert (E1 : eq32 v1 (v * 2 ^ 8 + byte a)) by (apply eq32_step; [lia | apply eq32_refl]).
    assert (E2 : eq32 v2 ((v * 2 ^ 8 + byte a) * 2 ^ 8 + byte b))
      by (apply eq32_step; [lia | exact E1]).
    rewrite (field_eq32 v1 _ 2 6 ltac:(lia) ltac:(lia) ltac:(lia) E1), sextet_0 by exact Ha.
    rewrite (field_eq32 v2 _ 4 6 ltac:(lia) ltac:(lia) ltac:(lia) E2), sextet_1 by assumption.
    change 0x3F with (Z.ones 6).
    rewrite (field_eq32 _ _ 6 6 ltac:(lia) ltac:(lia) ltac:(lia)
               (eq32_shift v2 _ 8 ltac:(lia) E2)), sextet_2_last by exact Hb.
    rewrite !append_assoc. cbn [append]. rewrite pad_3 by exact L. reflexivity.
  - destruct (encode_group a b c s v out) as [v' E]. rewrite E.
    rewrite IH.
    + cbn [Reference.base64]. now rewrite append_assoc.
    + rewrite length_append, Nat.Div0.add_mod, L. reflexivity.
Qed.

Lemma base64_encode_reference (s : string) : base64_encode s = Reference.base64 s.
Proof. unfold base64_encode. apply (encode_from s 0 ""). reflexivity. Qed.

Lemma T_of_base64_char (i : Z) :
  0 <= i < 64 -> nth (nat_of_ascii (base64_char i)) base64_T (-1) = i.
Proof.
  intros H.
  assert (A : forall n, (n < 64)%nat ->
                        nth (nat_of_ascii (base64_char (Z.of_nat n))) base64_T (-1) = Z.of_nat n).
  { intros n Hn. do 64 (destruct n as [|n]; [vm_compute; reflexivity|]). lia. }
  rewrite <- (Z2Nat.id i) by lia. apply A. lia.
Qed.

Lemma decode_step (i : Z) (rest : string) (w valb : Z) (out : string) :
  0 <= i < 64 ->
  base64_decode_loop (String (base64_char i) rest) w valb out
  = let w' := int32 (int32 (Z.shiftl w 6) + i) in
    if 0 <=? valb + 6 then
      base64_decode_loop rest w' (valb + 6 - 8)
        (out ++ String (char_of (Z.land (Z.shiftr w' (valb + 6)) (Z.ones 8))) "")
    else base64_decode_loop rest w' (valb + 6) out.
Proof.
  intros H. cbn [base64_decode_loop]. rewrite T_of_base64_char by exact H.
  destruct (Z.eqb_spec i (-1)); [lia | reflexivity].
Qed.

Lemma decode_stop (rest : string) (w valb : Z) (out : string) :
  base64_decode_loop (String "=" rest) w valb out = out.
Proof. reflexivity. Qed.

Lemma octet_0 (w a b : Z) :
  0 <= a < 256 -> 0 <= b < 256 ->
  (((w * 2 ^ 6 + a / 4) * 2 ^ 6 + (a mod 4 * 16 + b / 16)) / 2 ^ 4) mod 2 ^ 8 = a.
Proof. intros Ha Hb. change (2 ^ 6) with 64. change (2 ^ 4) with 16. change (2 ^ 8) with 256.
  Z.div_mod_to_equations. lia. Qed.

Lemma octet_1 (w a b c : Z) :
  0 <= a < 256 -> 0 <= b < 256 -> 0 <= c < 256 ->
  (((w * 2 ^ 6 + (a mod 4 * 16 + b / 16)) * 2 ^ 6 + (b mod 16 * 4 + c / 64)) / 2 ^ 2) mod 2 ^ 8
  = b.
Proof. intros Ha Hb Hc. change (2 ^ 6) with 64. change (2 ^ 2) with 4. change (2 ^ 8) with 256.
  Z.div_mod_to_equations. lia. Qed.

Lemma octet_2 (w b c : Z) :
  0 <= b < 256 -> 0 <= c < 256 ->
  (((w * 2 ^ 6 + (b mod 16 * 4 + c / 64)) * 2 ^ 6 + c mod 64) / 2 ^ 0) mod 2 ^ 8 = c.
Proof. intros Hb Hc. change (2 ^ 6) with 64. change (2 ^ 0) with 1. change (2 ^ 8) with 256.
  Z.div_mod_to_equations. lia. Qed.

Lemma sextet_ranges (a b c : Z) :
  0 <= a < 256 -> 0 <= b < 256 -> 0 <= c < 256 ->
  0 <= a / 4 < 64 /\ 0 <= a mod 4 * 16 + b / 16 < 64
  /\ 0 <= b mod 16 * 4 + c / 64 < 64 /\ 0 <= c mod 64 < 64.
Proof. intros Ha Hb Hc. Z.div_mod_to_equations. lia. Qed.

(** The decoder reads the bytes back from Base64 text. *)
Lemma decode_from (s : string) :
  forall w out, base64_decode_loop (Reference.base64 s) w (-8) out = out ++ s.
Proof.
  induction s as [|a|a b|a b c s IH] using string_ind3; intros w out.
  - cbn. now rewrite append_nil_r.
  - pose proof (byte_range a) as Ha.
    destruct (sextet_ranges (byte a) 0 0 Ha ltac:(lia) ltac:(lia)) as (R0 & R1 & _).
    change (0 / 16) with 0 in R1. rewrite Z.add_0_r in R1.
    cbn [Reference.base64].
    rewrite decode_step by exact R0. cbv zeta. change (0 <=? -8 + 6) with false. cbv iota.
    rewrite decode_step by exact R1. cbv zeta.
    change (0 <=? -8 + 6 + 6) with true. cbv iota. change (-8 + 6 + 6) with 4.
    rewrite decode_stop.
    set (w1 := int32 (int32 (Z.shiftl w 6) + byte a / 4)).
    assert (E1 : eq32 w1 (w * 2 ^ 6 + byte a / 4)) by (apply eq32_step; [lia | apply eq32_refl]).
    rewrite (field_eq32 _ _ 4 8 ltac:(lia) ltac:(lia) ltac:(lia)
               (eq32_step w1 _ (byte a mod 4 * 16) 6 ltac:(lia) E1)).
    pose proof (octet_0 w (byte a) 0 Ha ltac:(lia)) as O.
    change (0 / 16) with 0 in O. rewrite Z.add_0_r in O. rewrite O.
    now rewrite char_of_byte.
  - pose proof (byte_range a) as Ha. pose proof (byte_range b) as Hb.
    destruct (sextet_ranges (byte a) (byte b) 0 Ha Hb ltac:(lia)) as (R0 & R1 & R2 & _).
    change (0 / 64) with 0 in R2. rewrite Z.add_0_r in R2.
    cbn [Reference.base64].
    rewrite decode_step by exact R0. cbv zeta. change (0 <=? -8 + 6) with false. cbv iota.
    rewrite decode_step by exact R1. cbv zeta.
    change (0 <=? -8 + 6 + 6) with true. cbv iota. change (-8 + 6 + 6) with 4.
    rewrite decode_step by exact R2. cbv zeta.
    change (0 <=? 4 - 8 + 6) with true. cbv iota. change (4 - 8 + 6) with 2.
    rewrite decode_stop.
    set (w1 := int32 (int32 (Z.shiftl w 6) + byte a / 4)).
    set (w2 := int32 (int32 (Z.shiftl w1 6) + (byte a mod 4 * 16 + byte b / 16))).
    assert (E1 : eq32 w1 (w * 2 ^ 6 + byte a / 4)) by (apply eq32_step; [lia | apply eq32_refl]).
    assert (E2 : eq32 w2 ((w * 2 ^ 6 + byte a / 4) * 2 ^ 6 + (byte a mod 4 * 16 + byte b / 16)))
      by (apply eq32_step; [lia | exact E1]).
    rewrite (field_eq32 w2 _ 4 8 ltac:(lia) ltac:(lia) ltac:(lia) E2), octet_0 by assumption.
    rewrite (field_eq32 _ _ 2 8 ltac:(lia) ltac:(lia) ltac:(lia)
               (eq32_step w2 _ (byte b mod 16 * 4) 6 ltac:(lia) E2)).
    pose proof (octet_1 (w * 2 ^ 6 + byte a / 4) (byte a) (byte b) 0 Ha Hb ltac:(lia)) as O.
    change (0 / 64) with 0 in O. rewrite Z.add_0_r in O. rewrite O.
    rewrite !char_of_byte, append_assoc. reflexivity.
  - pose proof (byte_range a) as Ha. pose proof (byte_range b) as Hb.
    pose proof (byte_range c) as Hc.
    destruct (sextet_ranges (byte a) (byte b) (byte c) Ha Hb Hc) as (R0 & R1 & R2 & R3).
    cbn [Reference.base64]. unfold Reference.group3. cbn [append].
    rewrite decode_step by exact R0. cbv zeta. change (0 <=? -8 + 6) with false. cbv iota.
    rewrite decode_step by exact R1. cbv zeta.
    change (0 <=? -8 + 6 + 6) with true. cbv iota. change (-8 + 6 + 6) with 4.
    rewrite decode_step by exact R2. cbv zeta.
    change (0 <=? 4 - 8 + 6) with true. cbv iota. change (4 - 8 + 6) with 2.
    rewrite decode_step by exact R3. cbv zeta.
    change (0 <=? 2 - 8 + 6) with true. cbv iota. change (2 - 8 + 6) with 0.
    change (0 - 8) with (-8).
    set (w1 := int32 (int32 (Z.shiftl w 6) + byte a / 4)).
    set (w2 := int32 (int32 (Z.shiftl w1 6) + (byte a mod 4 * 16 + byte b / 16))).
    set (w3 := int32 (int32 (Z.shiftl w2 6) + (byte b mod 16 * 4 + byte c / 64))).
    set (w4 := int32 (int32 (Z.shiftl w3 6) + byte c mod 64)).
    assert (E1 : eq32 w1 (w * 2 ^ 6 + byte a / 4)) by (apply eq32_step; [lia | apply eq32_refl]).
    assert (E2 : eq32 w2 ((w * 2 ^ 6 + byte a / 4) * 2 ^ 6 + (byte a mod 4 * 16 + byte b / 16)))
      by (apply eq32_step; [lia | exact E1]).
    pose proof (eq32_step w2 _ (byte b mod 16 * 4 + byte c / 64) 6 ltac:(lia) E2) as E3.
    fold w3 in E3.
    pose proof (eq32_step w3 _ (byte c mod 64) 6 ltac:(lia) E3) as E4. fold w4 in E4.
    rewrite (field_eq32 w2 _ 4 8 ltac:(lia) ltac:(lia) ltac:(lia) E2), octet_0 by assumption.
    rewrite (field_eq32 w3 _ 2 8 ltac:(lia) ltac:(lia) ltac:(lia) E3).
    rewrite (octet_1 _ (byte a) (byte b) (byte c)) by assumption.
    rewrite (field_eq32 w4 _ 0 8 ltac:(lia) ltac:(lia) ltac:(lia) E4).
    rewrite (octet_2 _ (byte b) (byte c)) by assumption.
    rewrite IH, !char_of_byte, !append_assoc. reflexivity.
Qed.

Lemma base64_decode_reference (s : string) : base64_decode (Reference.base64 s) = s.
Proof. unfold base64_decode. now rewrite decode_from. Qed.

(** ** The Base64 of JsEngine.cpp *)

Lemma for_all_bytes (P : Z -> Prop) :
  (forall c : ascii, P (byte c)) -> forall x, 0 <= x < 256 -> P x.
Proof.
  intros H x Hx. replace x with (byte (ascii_of_nat (Z.to_nat x))); [apply H|].
  unfold byte. rewrite nat_ascii_embedding by lia. lia.
Qed.

Lemma mask_fc (a : ascii) : JsEngine.u8 (Z.shiftr (Z.land (byte a) 0xfc) 2) = byte a / 4.
Proof. destruct a as [[] [] [] [] [] [] [] []]; reflexivity. Qed.

Lemma mask_03 (a : ascii) : Z.shiftl (Z.land (byte a) 0x03) 4 = byte a mod 4 * 16.
Proof. destruct a as [[] [] [] [] [] [] [] []]; reflexivity. Qed.

Lemma mask_f0 (a : ascii) : Z.shiftr (Z.land (byte a) 0xf0) 4 = byte a / 16.
Proof. destruct a as [[] [] [] [] [] [] [] []]; reflexivity. Qed.

Lemma mask_0f (a : ascii) : Z.shiftl (Z.land (byte a) 0x0f) 2 = byte a mod 16 * 4.
Proof. destruct a as [[] [] [] [] [] [] [] []]; reflexivity. Qed.

Lemma mask_c0 (a : ascii) : Z.shiftr (Z.land (byte a) 0xc0) 6 = byte a / 64.
Proof. destruct a as [[] [] [] [] [] [] [] []]; reflexivity. Qed.

Lemma mask_3f (a : ascii) : JsEngine.u8 (Z.land (byte a) 0x3f) = byte a mod 64.
Proof. destruct a as [[] [] [] [] [] [] [] []]; reflexivity. Qed.

Lemma sextets_of_bytes (a b c : ascii) :
  JsEngine.sextets [byte a; byte b; byte c]
  = [byte a / 4; byte a mod 4 * 16 + byte b / 16; byte b mod 16 * 4 + byte c / 64;
     byte c mod 64].
Proof.
  pose proof (byte_range a) as Ha. pose proof (byte_range b) as Hb.
  pose proof (byte_range c) as Hc.
  destruct (sextet_ranges (byte a) (byte b) (byte c) Ha Hb Hc) as (R0 & R1 & R2 & R3).
  unfold JsEngine.sextets. cbn [nth].
  rewrite mask_fc, mask_03, mask_f0, mask_0f, mask_c0, mask_3f.
  unfold JsEngine.u8.
  rewrite (Z.mod_small (byte a mod 4 * 16 + byte b / 16) 256) by lia.
  rewrite (Z.mod_small (byte b mod 16 * 4 + byte c / 64) 256) by lia.
  reflexivity.
Qed.

Lemma js_encode_group (a b c : ascii) (rest : string) (x y z : Z) (ret : string) :
  JsEngine.base64_encode_loop (String a (String b (String c rest))) 0 [x; y; z] ret
  = JsEngine.base64_encode_loop rest 0 [byte a; byte b; byte c]
      (ret ++ Reference.group3 (byte a) (byte b) (byte c)).
Proof.
  cbn [JsEngine.base64_encode_loop vector_set Nat.eqb]. rewrite sextets_of_bytes. reflexivity.
Qed.

Lemma js_encode_from (s : string) :
  forall x y z ret,
  (let '(i, char_array_3, ret) := JsEngine.base64_encode_loop s 0 [x; y; z] ret in
   if (0 <? i)%nat then
     ret
     ++ JsEngine.string_of_indices
          (firstn (i + 1) (JsEngine.sextets (JsEngine.zero_from i char_array_3)))
     ++ string_of_list_ascii (repeat "="%char (3 - i))
   else ret)
  = ret ++ Reference.base64 s.
Proof.
  induction s as [|a|a b|a b c s IH] using string_ind3; intros x y z ret.
  - cbn. now rewrite append_nil_r.
  - cbn [JsEngine.base64_encode_loop vector_set Nat.eqb Nat.ltb Nat.leb].
    change (JsEngine.zero_from 1 [byte a; y; z]) with [byte a; byte "000"; byte "000"].
    rewrite sextets_of_bytes. change (byte "000" / 16) with 0. rewrite Z.add_0_r. reflexivity.
  - cbn [JsEngine.base64_encode_loop vector_set Nat.eqb Nat.ltb Nat.leb].
    change (JsEngine.zero_from 2 [byte a; byte b; z]) with [byte a; byte b; byte "000"].
    rewrite sextets_of_bytes. change (byte "000" / 64) with 0. rewrite Z.add_0_r. reflexivity.
  - rewrite js_encode_group, IH. cbn [Reference.base64]. now rewrite append_assoc.
Qed.

Lemma js_base64_encode_reference (s : string) : JsEngine.base64_encode s = Reference.base64 s.
Proof. unfold JsEngine.base64_encode. apply (js_encode_from s 0 0 0 ""). Qed.

Lemma for_all_sextets (P : Z -> Prop) :
  (forall n, (n < 64)%nat -> P (Z.of_nat n)) -> forall k, 0 <= k < 64 -> P k.
Proof. intros H k Hk. rewrite <- (Z2Nat.id k) by lia. apply H. lia. Qed.

Ltac by_sextets :=
  apply for_all_sextets;
  let n := fresh "n" in let Hn := fresh "Hn" in
  intros n Hn; do 64 (destruct n as [|n]; [vm_compute; repeat split; reflexivity|]); lia.

Lemma strchr_of_base64_char (k : Z) :
  0 <= k < 64 ->
  Ascii.eqb (base64_char k) "=" = false /\ JsEngine.strchr_index (base64_char k) = Some k.
Proof. revert k. by_sextets. Qed.

Lemma masks_of_sextet (k : Z) :
  0 <= k < 64 ->
  Z.shiftr (Z.land k 0x30) 4 = k / 16 /\ Z.shiftl (Z.land k 0xf) 4 = k mod 16 * 16
  /\ Z.shiftr (Z.land k 0x3c) 2 = k / 4 /\ Z.shiftl (Z.land k 0x3) 6 = k mod 4 * 64
  /\ Z.shiftl k 2 = k * 4 /\ JsEngine.u8 k = k.
Proof. revert k. by_sextets. Qed.

Lemma octets_of_sextets (a b c : Z) :
  0 <= a < 256 -> 0 <= b < 256 -> 0 <= c < 256 ->
  JsEngine.octets [a / 4; a mod 4 * 16 + b / 16; b mod 16 * 4 + c / 64; c mod 64] = [a; b; c].
Proof.
  intros Ha Hb Hc.
  destruct (sextet_ranges a b c Ha Hb Hc) as (R0 & R1 & R2 & R3).
  destruct (masks_of_sextet _ R0) as (_ & _ & _ & _ & S0 & _).
  destruct (masks_of_sextet _ R1) as (A1 & B1 & _).
  destruct (masks_of_sextet _ R2) as (_ & _ & C2 & D2 & _).
  unfold JsEngine.octets. cbn [nth]. rewrite S0, A1, B1, C2, D2.
  unfold JsEngine.u8. f_equal; [|f_equal; [|f_equal]]; Z.div_mod_to_equations; lia.
Qed.

Lemma js_decode_char (k : Z) (rest : string) (i : nat) (arr : list Z) (ret : string) :
  0 <= k < 64 ->
  JsEngine.base64_decode_loop (String (base64_char k) rest) i arr ret
  = if (S i =? 4)%nat then
      JsEngine.base64_decode_loop rest 0 (vector_set arr i k)
        (ret ++ JsEngine.string_of_bytes (JsEngine.octets (vector_set arr i k)))
    else JsEngine.base64_decode_loop rest (S i) (vector_set arr i k) ret.
Proof.
  intros H. destruct (strchr_of_base64_char k H) as [E S].
  destruct (masks_of_sextet k H) as (_ & _ & _ & _ & _ & U).
  cbn [JsEngine.base64_decode_loop]. rewrite E, S, U. reflexivity.
Qed.

Lemma string_of_bytes_3 (a b c : ascii) :
  JsEngine.string_of_bytes [byte a; byte b; byte c] = String a (String b (String c "")).
Proof. unfold JsEngine.string_of_bytes. cbn [map string_of_list_ascii]. now rewrite !char_of_byte. Qed.

Lemma js_decode_from (s : string) :
  forall x y z t ret,
  (let '(i, char_array_4, ret) :=
     JsEngine.base64_decode_loop (Reference.base64 s) 0 [x; y; z; t] ret in
   if (0 <? i)%nat then
     ret ++ JsEngine.string_of_bytes
              (firstn (i - 1) (JsEngine.octets (JsEngine.zero_from i char_array_4)))
   else ret)
  = ret ++ s.
Proof.
  induction s as [|a|a b|a b c s IH] using string_ind3; intros x y z t ret.
  - cbn. now rewrite append_nil_r.
  - pose proof (byte_range a) as Ha.
    destruct (sextet_ranges (byte a) 0 0 Ha ltac:(lia) ltac:(lia)) as (R0 & R1 & _).
    pose proof (octets_of_sextets (byte a) 0 0 Ha ltac:(lia) ltac:(lia)) as O.
    change (0 / 16) with 0 in *. change (0 mod 16 * 4 + 0 / 64) with 0 in O.
    change (0 mod 64) with 0 in O. rewrite Z.add_0_r in *.
    cbn [Reference.base64].
    rewrite js_decode_char by exact R0. cbn [Nat.eqb vector_set].
    rewrite js_decode_char by exact R1. cbn [Nat.eqb vector_set].
    cbn [JsEngine.base64_decode_loop Ascii.eqb Bool.eqb Nat.ltb Nat.leb].
    change (JsEngine.zero_from 2 [byte a / 4; byte a mod 4 * 16; z; t])
      with [byte a / 4; byte a mod 4 * 16; 0; 0].
    rewrite O. cbn [firstn Nat.sub]. unfold JsEngine.string_of_bytes.
    cbn [map string_of_list_ascii]. now rewrite char_of_byte.
  - pose proof (byte_range a) as Ha. pose proof (byte_range b) as Hb.
    destruct (sextet_ranges (byte a) (byte b) 0 Ha Hb ltac:(lia)) as (R0 & R1 & R2 & _).
    pose proof (octets_of_sextets (byte a) (byte b) 0 Ha Hb ltac:(lia)) as O.
    change (0 / 64) with 0 in *. change (0 mod 64) with 0 in O. rewrite Z.add_0_r in *.
    cbn [Reference.base64].
    rewrite js_decode_char by exact R0. cbn [Nat.eqb vector_set].
    rewrite js_decode_char by exact R1. cbn [Nat.eqb vector_set].
    rewrite js_decode_char by exact R2. cbn [Nat.eqb vector_set].
    cbn [JsEngine.base64_decode_loop Ascii.eqb Bool.eqb Nat.ltb Nat.leb].
    change (JsEngine.zero_from 3
              [byte a / 4; byte a mod 4 * 16 + byte b / 16; byte b mod 16 * 4; t])
      with [byte a / 4; byte a mod 4 * 16 + byte b / 16; byte b mod 16 * 4; 0].
    rewrite O. cbn [firstn Nat.sub]. unfold JsEngine.string_of_bytes.
    cbn [map string_of_list_ascii]. now rewrite !char_of_byte.
  - pose proof (byte_range a) as Ha. pose proof (byte_range b) as Hb.
    pose proof (byte_range c) as Hc.
    destruct (sextet_ranges (byte a) (byte b) (byte c) Ha Hb Hc) as (R0 & R1 & R2 & R3).
    cbn [Reference.base64]. unfold Reference.group3. cbn [append].
    rewrite js_decode_char by exact R0. cbn [Nat.eqb vector_set].
    rewrite js_decode_char by exact R1. cbn [Nat.eqb vector_set].
    rewrite js_decode_char by exact R2. cbn [Nat.eqb vector_set].
    rewrite js_decode_char by exact R3. cbn [Nat.eqb vector_set].
    rewrite octets_of_sextets by assumption. rewrite string_of_bytes_3.
    rewrite IH, append_assoc. reflexivity.
Qed.

Lemma js_base64_decode_reference (s : string) : JsEngine.base64_decode (Reference.base64 s) = s.
Proof. unfold JsEngine.base64_decode. apply (js_decode_from s 0 0 0 0 ""). Qed.

(** ** Consequences *)

Lemma base64_char_not_nul (k : Z) : 0 <= k < 64 -> Ascii.eqb (base64_char k) "000" = false.
Proof. revert k. by_sextets. Qed.

Lemma of_c_str_reference (s : string) : of_c_str (Reference.base64 s) = Reference.base64 s.
Proof.
  induction s as [|a|a b|a b c s IH] using string_ind3.
  - reflexivity.
  - pose proof (byte_range a) as Ha.
    destruct (sextet_ranges (byte a) 0 0 Ha ltac:(lia) ltac:(lia)) as (R0 & R1 & _).
    change (0 / 16) with 0 in R1. rewrite Z.add_0_r in R1.
    cbn [Reference.base64 of_c_str]. now rewrite !base64_char_not_nul by assumption.
  - pose proof (byte_range a) as Ha. pose proof (byte_range b) as Hb.
    destruct (sextet_ranges (byte a) (byte b) 0 Ha Hb ltac:(lia)) as (R0 & R1 & R2 & _).
    change (0 / 64) with 0 in R2. rewrite Z.add_0_r in R2.
    cbn [Reference.base64 of_c_str]. now rewrite !base64_char_not_nul by assumption.
  - pose proof (byte_range a) as Ha. pose proof (byte_range b) as Hb.
    pose proof (byte_range c) as Hc.
    destruct (sextet_ranges (byte a) (byte b) (byte c) Ha Hb Hc) as (R0 & R1 & R2 & R3).
    cbn [Reference.base64]. unfold Reference.group3. cbn [append of_c_str].
    rewrite !base64_char_not_nul by assumption. now rewrite IH.
Qed.

Lemma length_reference (s : string) :
  String.length (Reference.base64 s) = (4 * ((String.length s + 2) / 3))%nat.
Proof.
  induction s as [|a|a b|a b c s IH] using string_ind3; try reflexivity.
  cbn [Reference.base64]. unfold Reference.group3. cbn [append String.length].
  rewrite IH.
  replace (S (S (S (String.length s))) + 2)%nat with (String.length s + 2 + 1 * 3)%nat by lia.
  rewrite Nat.div_add by lia. lia.
Qed.

(** The decoder of QuickJsEngine.cpp stops at a character that is not in
    its table. *)
Lemma decode_loop_stops (a : string) (c : ascii) (b : string) :
  nth (nat_of_ascii c) base64_T (-1) = -1 ->
  forall w valb out,
  base64_decode_loop (a ++ String c b) w valb out = base64_decode_loop a w valb out.
Proof.
  intros H. induction a as [|x a IH]; intros w valb out.
  - cbn [append base64_decode_loop]. now rewrite H.
  - cbn [append base64_decode_loop].
    destruct (nth (nat_of_ascii x) base64_T (-1) =? -1); [reflexivity|].
    destruct (0 <=? valb + 6); apply IH.
Qed.

(** The decoder of JsEngine.cpp steps over a character that [strchr] does
    not find, and stops at an equals sign. *)
Lemma js_decode_loop_skips (a : string) (c : ascii) (b : string) :
  Ascii.eqb c "=" = false -> JsEngine.strchr_index c = None ->
  forall i arr ret,
  JsEngine.base64_decode_loop (a ++ String c b) i arr ret
  = JsEngine.base64_decode_loop (a ++ b) i arr ret.
Proof.
  intros H1 H2. induction a as [|x a IH]; intros i arr ret.
  - cbn [append JsEngine.base64_decode_loop]. now rewrite H1, H2.
  - cbn [append JsEngine.base64_decode_loop].
    destruct (Ascii.eqb x "="); [reflexivity|].
    destruct (JsEngine.strchr_index x); [|apply IH].
    destruct (S i =? 4)%nat; apply IH.
Qed.

Lemma js_decode_loop_stops (a b : string) :
  forall i arr ret,
  JsEngine.base64_decode_loop (a ++ String "=" b) i arr ret
  = JsEngine.base64_decode_loop a i arr ret.
Proof.
  induction a as [|x a IH]; intros i arr ret.
  - reflexivity.
  - cbn [append JsEngine.base64_decode_loop].
    destruct (Ascii.eqb x "="); [reflexivity|].
    destruct (JsEngine.strchr_index x); [|apply IH].
    destruct (S i =? 4)%nat; apply IH.
Qed.

Lemma not_in_table (c : ascii) :
  JsEngine.strchr_index c = None -> nth (nat_of_ascii c) base64_T (-1) = -1.
Proof. destruct c as [[] [] [] [] [] [] [] []]; vm_compute; congruence. Qed.

(** [base64_decode] of QuickJsEngine.cpp undoes its [base64_encode], for
    every byte string; so do the script functions [java.base64Decode] and
    [java.base64Encode] built on them, up to the first NUL of the argument,
    where the C string that they are given ends. *)
Theorem base64_decode_inverts_encode :
  (forall s, base64_decode (base64_encode s) = s)
  /\ (forall s,
        js_java_base64Decode [Some (js_java_base64Encode [Some s])] = of_c_str s).
Proof.
  split; intros s.
  - now rewrite base64_encode_reference, base64_decode_reference.
  - unfold js_java_base64Decode, js_java_base64Encode.
    rewrite base64_encode_reference, !of_c_str_reference, base64_decode_reference.
    apply of_c_str_idempotent.
Qed.

(** [base64_decode] of JsEngine.cpp undoes its [base64_encode], for every
    byte string; so do the script functions [java.base64Decode] and
    [java.base64Encode] of that engine, up to the first NUL of the
    argument. *)
Theorem JsEngine_base64_decode_inverts_encode :
  (forall s, JsEngine.base64_decode (JsEngine.base64_encode s) = s)
  /\ (forall s,
        JsEngine.js_base64Decode [Some (JsEngine.js_base64Encode [Some s])] = of_c_str s).
Proof.
  split; intros s.
  - now rewrite js_base64_encode_reference, js_base64_decode_reference.
  - unfold JsEngine.js_base64Decode, JsEngine.js_base64Encode.
    rewrite js_base64_encode_reference, !of_c_str_reference, js_base64_decode_reference.
    apply of_c_str_idempotent.
Qed.

(** The two Base64 encoders, one with a bit accumulator and one with
    arrays of three and four bytes, compute the same text, of
    [4 * ((n + 2) / 3)] characters for [n] bytes; each decoder therefore
    reads what the other encoder wrote. *)
Theorem base64_encoders_agree (s : string) :
  base64_encode s = JsEngine.base64_encode s
  /\ String.length (base64_encode s) = (4 * ((String.length s + 2) / 3))%nat
  /\ JsEngine.base64_decode (base64_encode s) = s
  /\ base64_decode (JsEngine.base64_encode s) = s.
Proof.
  rewrite base64_encode_reference, js_base64_encode_reference.
  repeat split.
  - apply length_reference.
  - apply js_base64_decode_reference.
  - apply base64_decode_reference.
Qed.

(** The two decoders treat a character that is outside the alphabet and
    is no equals sign (a line break, say) in different ways: the decoder of
    QuickJsEngine.cpp stops there and drops the rest of the text, the decoder
    of JsEngine.cpp steps over it and goes on.  Both stop at an equals
    sign. *)
Theorem base64_decoders_differ_on_foreign_characters (a b : string) (c : ascii) :
  JsEngine.strchr_index c = None ->
  Ascii.eqb c "=" = false ->
  base64_decode (a ++ String c b) = base64_decode a
  /\ JsEngine.base64_decode (a ++ String c b) = JsEngine.base64_decode (a ++ b)
  /\ base64_decode (a ++ String "=" b) = base64_decode a
  /\ JsEngine.base64_decode (a ++ String "=" b) = JsEngine.base64_decode a.
Proof.
  intros H1 H2. repeat split.
  - unfold base64_decode. apply decode_loop_stops. now apply not_in_table.
  - unfold JsEngine.base64_decode. now rewrite js_decode_loop_skips.
  - unfold base64_decode. apply decode_loop_stops. reflexivity.
  - unfold JsEngine.base64_decode. now rewrite js_decode_loop_stops.
Qed.

End Base64Facts.

Lemma base64_decoders_on_line_break :
  QuickJsEngine.base64_decode ("QUJD" ++ String "010" "REVG")
  = QuickJsEngine.base64_decode "QUJD"
  /\ JsEngine.base64_decode ("QUJD" ++ String "010" "REVG")
     = JsEngine.base64_decode ("QUJD" ++ "REVG")
  /\ QuickJsEngine.base64_decode ("QUJD" ++ String "=" "REVG")
     = QuickJsEngine.base64_decode "QUJD"
  /\ JsEngine.base64_decode ("QUJD" ++ String "=" "REVG") = JsEngine.base64_decode "QUJD".
Proof.
  apply (base64_decoders_differ_on_foreign_characters "QUJD" "REVG" "010"); reflexivity.
Defined.

(* ===================================================================== *)
(** * URL encoding *)
(* ===================================================================== *)

Section UrlEncodeFacts.
Import QuickJsEngine.

Lemma HEX2_is_safe (c : ascii) :
  Spec.all_chars (fun x => is_unreserved x || Ascii.eqb x "%") (HEX2 (byte c)) = true.
Proof. destruct c as [[] [] [] [] [] [] [] []]; reflexivity. Qed.

Lemma hex2_is_safe (c : ascii) :
  Spec.all_chars (fun x => is_unreserved x || Ascii.eqb x "%") (hex2 (byte c)) = true.
Proof. destruct c as [[] [] [] [] [] [] [] []]; reflexivity. Qed.

Lemma url_encode_chars (s : string) :
  Spec.all_chars (fun x => is_unreserved x || Ascii.eqb x "%") (url_encode s) = true.
Proof.
  induction s as [|c s IH]; [reflexivity|].
  cbn [url_encode]. destruct (is_unreserved c) eqn:U.
  - cbn [Spec.all_chars]. now rewrite U, IH.
  - change (String "%" (HEX2 (byte c)) ++ url_encode s)
      with (String "%" (HEX2 (byte c) ++ url_encode s)).
    cbn [Spec.all_chars]. rewrite all_chars_app, HEX2_is_safe, IH.
    now rewrite orb_true_r.
Qed.

(** The output of either [url_encode] (the one of QuickJsEngine.cpp
    writes uppercase hexadecimal digits, the one of JsEngine.cpp lowercase
    ones) holds nothing but letters, digits, [-], [_], [.], [~] and percent
    signs. *)
Theorem url_encode_output_is_safe (s : string) :
  Spec.all_chars (fun x => is_unreserved x || Ascii.eqb x "%") (url_encode s) = true
  /\ Spec.all_chars (fun x => is_unreserved x || Ascii.eqb x "%") (JsEngine.url_encode s)
     = true.
Proof.
  split; [apply url_encode_chars|].
  induction s as [|c s IH]; [reflexivity|].
  cbn [JsEngine.url_encode]. destruct (is_unreserved c) eqn:U.
  - cbn [Spec.all_chars]. now rewrite U, IH.
  - change (String "%" (hex2 (byte c)) ++ JsEngine.url_encode s)
      with (String "%" (hex2 (byte c) ++ JsEngine.url_encode s)).
    cbn [Spec.all_chars]. rewrite all_chars_app, hex2_is_safe, IH.
    now rewrite orb_true_r.
Qed.

Lemma of_c_str_no_nul (s : string) :
  Spec.all_chars (fun x => negb (Ascii.eqb x "000")) s = true -> of_c_str s = s.
Proof.
  induction s as [|c s IH]; [reflexivity|]. cbn [Spec.all_chars of_c_str].
  intros H. apply andb_prop in H as [H1 H2].
  apply negb_true_iff in H1. now rewrite H1, IH.
Qed.

Lemma of_c_str_url_encode (s : string) : of_c_str (url_encode s) = url_encode s.
Proof.
  apply of_c_str_no_nul.
  apply (all_chars_weaken (fun x => is_unreserved x || Ascii.eqb x "%")); [|apply url_encode_chars].
  intros [[] [] [] [] [] [] [] []]; vm_compute; congruence.
Qed.

End UrlEncodeFacts.

Section UrlFacts.
Import QuickJsEngine.

Variable hex_extract : string -> option Z.

(** What the stream library does on two hexadecimal digits. *)
Hypothesis hex_extract_digits :
  forall c : ascii, hex_extract (HEX2 (byte c)) = Some (byte c).

Lemma unreserved_is_literal (c : ascii) :
  is_unreserved c = true -> Ascii.eqb c "%" = false /\ Ascii.eqb c "+" = false.
Proof. destruct c as [[] [] [] [] [] [] [] []]; vm_compute; intuition congruence. Qed.

Lemma url_decode_url_encode (s : string) : url_decode hex_extract (url_encode s) = s.
Proof.
  induction s as [|c s IH]; [reflexivity|].
  cbn [url_encode]. destruct (is_unreserved c) eqn:U.
  - destruct (unreserved_is_literal c U) as [P Q].
    cbn [url_decode]. now rewrite P, Q, IH.
  - unfold HEX2. cbn [append url_decode Ascii.eqb Bool.eqb].
    fold (HEX2 (byte c)). rewrite hex_extract_digits, char_of_byte, IH. reflexivity.
Qed.

(** [url_decode] undoes [url_encode] for every byte string, provided
    that the extraction [iss >> std::hex >> value] reads the two
    hexadecimal digits of a byte as that byte; so do the script functions
    [java.decodeURI] and [java.encodeURI], up to the first NUL of the
    argument. *)
Theorem url_decode_inverts_encode :
  (forall s, url_decode hex_extract (url_encode s) = s)
  /\ (forall s,
        js_java_decodeURI hex_extract [Some (js_java_encodeURI [Some s])] = of_c_str s).
Proof.
  split; [exact url_decode_url_encode|]. intros s.
  unfold js_java_decodeURI, js_java_encodeURI.
  rewrite !of_c_str_url_encode, url_decode_url_encode. apply of_c_str_idempotent.
Qed.

End UrlFacts.

Lemma url_round_trip_on_demo :
  (forall s, QuickJsEngine.url_decode Demo.hex_extract (QuickJsEngine.url_encode s) = s)
  /\ (forall s,
        QuickJsEngine.js_java_decodeURI Demo.hex_extract
          [Some (QuickJsEngine.js_java_encodeURI [Some s])]
        = QuickJsEngine.of_c_str s).
Proof.
  apply (url_decode_inverts_encode Demo.hex_extract).
  intros [[] [] [] [] [] [] [] []]; reflexivity.
Defined.

(* ===================================================================== *)
(** * The text form of HTML *)
(* ===================================================================== *)

Section HtmlFormatFacts.
Import JsEngine.

Lemma replace_at_occurrence (s pat rep : string) (pos : nat) :
  pat <> "" -> occurs_at pat s pos ->
  exists a b, s = a ++ pat ++ b /\ String.length a = pos
              /\ replace s pos (String.length pat) rep = a ++ rep ++ b.
Proof.
  intros Hp H. pose proof (occurs_at_bound pat s pos H Hp) as B.
  exists (substring 0 pos s),
         (substring (pos + String.length pat) (String.length s - (pos + String.length pat)) s).
  split; [now apply occurs_at_split|]. split.
  - rewrite length_substring. lia.
  - reflexivity.
Qed.

Lemma get_substring (s : string) (n m k : nat) :
  k < m -> get k (substring n m s) = get (k + n) s.
Proof. intros H. now apply substring_correct1. Qed.

Lemma get_append_l (a b : string) (k : nat) : k < String.length a -> get k (a ++ b) = get k a.
Proof. intros H. symmetry. now apply append_correct1. Qed.

Lemma get_append_r (a b : string) (k : nat) : get (k + String.length a) (a ++ b) = get k b.
Proof. symmetry. now apply append_correct2. Qed.

(** Replacing an occurrence of [pat] by one character that [q] does not
    hold creates no occurrence of [q]. *)
Lemma replace_creates_nothing (q a pat b : string) (r : ascii) :
  q <> "" -> (forall k, get k q <> Some r) -> absent q (a ++ pat ++ b) -> absent q (a ++ String r "" ++ b).
Proof.
  intros Hq Hr A j O.
  pose proof (occurs_at_bound q _ j O Hq) as B.
  rewrite length_append in B. cbn [append String.length] in B.
  destruct (Nat.le_gt_cases (j + String.length q) (String.length a)) as [L|L].
  - (* inside [a] *)
    apply (A j). unfold occurs_at in *.
    rewrite substring_app_l in O by exact L. now rewrite substring_app_l by exact L.
  - destruct (Nat.le_gt_cases j (String.length a)) as [M|M].
    + (* over the new character *)
      apply (Hr (String.length a - j)).
      unfold occurs_at in O. rewrite <- O at 1.
      rewrite get_substring by lia.
      replace (String.length a - j + j) with (0 + String.length a) by lia.
      rewrite get_append_r. reflexivity.
    + (* inside [b] *)
      apply (A (j - 1 + String.length pat)). unfold occurs_at in *.
      replace j with (String.length a + (j - String.length a)) in O by lia.
      rewrite substring_skip_app in O.
      replace (j - String.length a) with (1 + (j - String.length a - 1)) in O by lia.
      change (String r "" ++ b) with (String r "" ++ b) in O.
      rewrite (substring_skip_app (String r "") b) in O.
      replace (j - 1 + String.length pat)
        with (String.length a + (String.length pat + (j - String.length a - 1))) by lia.
      rewrite substring_skip_app, substring_skip_app. exact O.
Qed.

Lemma absent_in_empty (pat : string) : pat <> "" -> absent pat "".
Proof.
  intros Hp j O. pose proof (occurs_at_bound pat "" j O Hp) as B.
  destruct pat; [congruence | simpl in B; lia].
Qed.

(** A replacement loop ends with no occurrence of its pattern left, when
    the replacement is shorter than the pattern. *)
Lemma replace_loop_removes (pat rep : string) :
  pat <> "" -> String.length rep < String.length pat ->
  forall fuel s, String.length s <= fuel ->
  absent pat (replace_loop fuel s pat (String.length pat) rep).
Proof.
  intros Hp Hr. induction fuel as [|fuel IH]; intros s L.
  - destruct s; [|simpl in L; lia]. now apply absent_in_empty.
  - cbn [replace_loop]. destruct (find s pat) as [pos|] eqn:F.
    + apply find_Some_iff in F as [O _]; [|exact Hp].
      destruct (replace_at_occurrence s pat rep pos Hp O) as (a & b & E & La & R).
      rewrite R. apply IH. subst s. rewrite !length_append in *. lia.
    + now apply find_None_iff in F.
Qed.

(** A loop whose replacement is one character that [q] does not hold
    keeps [q] absent. *)
Lemma replace_loop_keeps_absent (q pat : string) (r : ascii) :
  q <> "" -> pat <> "" -> (forall k, get k q <> Some r) ->
  forall fuel s, absent q s ->
  absent q (replace_loop fuel s pat (String.length pat) (String r "")).
Proof.
  intros Hq Hp Hr. induction fuel as [|fuel IH]; intros s A; [exact A|].
  cbn [replace_loop]. destruct (find s pat) as [pos|] eqn:F; [|exact A].
  apply find_Some_iff in F as [O _]; [|exact Hp].
  destruct (replace_at_occurrence s pat (String r "") pos Hp O) as (a & b & E & La & R).
  rewrite R. apply IH. subst s. now apply (replace_creates_nothing q a pat b r).
Qed.

Ltac no_such_char :=
  let k := fresh "k" in
  intros k; do 8 (destruct k as [|k]; [cbn; congruence|]); cbn; congruence.

(** [js_htmlFormat] leaves no [&amp;], no [&quot;] and no line break tag in
    its result: each of these is removed by its loop, and the loops that
    follow put in characters that cannot rebuild it.  The entities of the
    first three loops can remain, as the text [&amp;lt;] shows, which
    becomes [&lt;]; [&amp;quot;] is decoded twice. *)
Theorem html_format_removes_breaks (s : string) :
  absent "&amp;" (html_format s) /\ absent "&quot;" (html_format s)
  /\ absent "<br>" (html_format s) /\ absent "<br/>" (html_format s)
  /\ absent "<br />" (html_format s)
  /\ html_format "&amp;lt;" = "&lt;"
  /\ html_format "&amp;quot;" = String "034" "".
Proof.
  unfold html_format.
  set (s1 := replace_every s "&nbsp;" 6 " ").
  set (s2 := replace_every s1 "&lt;" 4 "<").
  set (s3 := replace_every s2 "&gt;" 4 ">").
  set (s4 := replace_every s3 "&amp;" 5 "&").
  set (s5 := replace_every s4 "&quot;" 6 (String "034" "")).
  set (s6 := replace_every s5 "<br>" 4 (String "010" "")).
  set (s7 := replace_every s6 "<br/>" 5 (String "010" "")).
  set (s8 := replace_every s7 "<br />" 6 (String "010" "")).
  assert (A4 : absent "&amp;" s4).
  { apply (replace_loop_removes "&amp;" "&"); [discriminate | simpl; lia | lia]. }
  assert (A5 : absent "&quot;" s5).
  { apply (replace_loop_removes "&quot;" (String "034" "")); [discriminate | simpl; lia | lia]. }
  assert (A6 : absent "<br>" s6).
  { apply (replace_loop_removes "<br>" (String "010" "")); [discriminate | simpl; lia | lia]. }
  assert (A7 : absent "<br/>" s7).
  { apply (replace_loop_removes "<br/>" (String "010" "")); [discriminate | simpl; lia | lia]. }
  assert (A8 : absent "<br />" s8).
  { apply (replace_loop_removes "<br />" (String "010" "")); [discriminate | simpl; lia | lia]. }
  assert (K5 : forall q, q <> "" -> (forall k, get k q <> Some "034"%char) ->
                         absent q s4 -> absent q s5).
  { intros q Hq Hr A. apply (replace_loop_keeps_absent q "&quot;" "034"); auto; discriminate. }
  assert (K6 : forall q, q <> "" -> (forall k, get k q <> Some "010"%char) ->
                         absent q s5 -> absent q s6).
  { intros q Hq Hr A. apply (replace_loop_keeps_absent q "<br>" "010"); auto; discriminate. }
  assert (K7 : forall q, q <> "" -> (forall k, get k q <> Some "010"%char) ->
                         absent q s6 -> absent q s7).
  { intros q Hq Hr A. apply (replace_loop_keeps_absent q "<br/>" "010"); auto; discriminate. }
  assert (K8 : forall q, q <> "" -> (forall k, get k q <> Some "010"%char) ->
                         absent q s7 -> absent q s8).
  { intros q Hq Hr A. apply (replace_loop_keeps_absent q "<br />" "010"); auto; discriminate. }
  split; [|split; [|split; [|split; [|split; [|split]]]]].
  - apply K8; [discriminate | no_such_char |]. apply K7; [discriminate | no_such_char |].
    apply K6; [discriminate | no_such_char |]. apply K5; [discriminate | no_such_char |].
    exact A4.
  - apply K8; [discriminate | no_such_char |]. apply K7; [discriminate | no_such_char |].
    apply K6; [discriminate | no_such_char |]. exact A5.
  - apply K8; [discriminate | no_such_char |]. apply K7; [discriminate | no_such_char |].
    exact A6.
  - apply K8; [discriminate | no_such_char |]. exact A7.
  - exact A8.
  - reflexivity.
  - reflexivity.
Qed.

End HtmlFormatFacts.

(* ===================================================================== *)
(** * The converter to XPath *)
(* ===================================================================== *)

Section ConverterFacts.
Import LegadoConverter.





Lemma dots_to_slashes_spec (s : string) :
  forall n temp, String.length s <= n ->
  dots_to_slashes n s temp = temp ++ Reference.dots_as_slashes s.
Proof.
  induction s as [|c s IH]; intros n temp L.
  - destruct n; cbn; now rewrite append_nil_r.
  - destruct n as [|n]; [simpl in L; lia|]. cbn [dots_to_slashes Reference.dots_as_slashes].
    rewrite IH by (simpl in L; lia). rewrite append_assoc.
    now destruct (Ascii.eqb c ".").
Qed.

(** [convert_jsonpath_to_xpath] turns [$.a.b] into [//a/b]: the dot that
    follows the dollar sign is kept and becomes a second slash, and every
    other dot becomes a slash.  The marker [@json:] before the path changes
    nothing. *)
Theorem jsonpath_becomes_descendant_path (path xpath_out : string) (max_len : Z) :
  (0 < max_len)%Z -> String.length path < 2000 ->
  convert_jsonpath_to_xpath (Some ("$." ++ path)) xpath_out max_len
  = (true, copy_out ("//" ++ Reference.dots_as_slashes path) max_len)
  /\ convert_jsonpath_to_xpath (Some ("@json:" ++ "$." ++ path)) xpath_out max_len
     = (true, copy_out ("//" ++ Reference.dots_as_slashes path) max_len).
Proof.
  intros M L.
  assert (D : dots_to_slashes 2000 (String "." path) "/"
              = "//" ++ Reference.dots_as_slashes path).
  { rewrite dots_to_slashes_spec by (cbn [String.length]; lia). reflexivity. }
  unfold convert_jsonpath_to_xpath, strncmp_eq. cbv zeta.
  destruct (Z.leb_spec max_len 0); [lia|]. split.
  - change (prefix "@json:" ("$." ++ path)) with false. cbv iota.
    rewrite (prefix_app "$." path).
    change (substr_from ("$." ++ path) 1) with (substr_from ("$" ++ String "." path) (String.length "$")).
    rewrite substr_from_app.
    exact (f_equal (fun t => (true, copy_out t max_len)) D).
  - rewrite (prefix_app "@json:" ("$." ++ path)).
    change 6 with (String.length "@json:"). rewrite substr_from_app.
    rewrite (prefix_app "$." path).
    change (substr_from ("$." ++ path) 1) with (substr_from ("$" ++ String "." path) (String.length "$")).
    rewrite substr_from_app.
    exact (f_equal (fun t => (true, copy_out t max_len)) D).
Qed.

Lemma strcpy_fits (cap : nat) (src : string) :
  String.length src < cap -> strcpy cap src = Some src.
Proof. intros H. unfold strcpy. apply Nat.ltb_lt in H. now rewrite H. Qed.

Lemma strcat_fits (cap : nat) (dst src : string) :
  String.length dst + String.length src < cap -> strcat cap dst src = Some (dst ++ src).
Proof. intros H. unfold strcat. apply strcpy_fits. now rewrite length_append. Qed.

Lemma find_first_char (a : string) (c : ascii) (rest : string) :
  Spec.all_chars (fun x => negb (Ascii.eqb x c)) a = true ->
  find (a ++ String c rest) (String c "") = Some (String.length a).
Proof.
  intros H. unfold find. induction a as [|x a IH].
  - cbn [append index prefix]. destruct (ascii_dec c c); [|congruence].
    now destruct rest.
  - cbn [Spec.all_chars] in H. apply andb_true_iff in H as [Hx Ha].
    cbn [append index prefix String.length].
    destruct (ascii_dec c x) as [->|N]; [now rewrite Ascii.eqb_refl in Hx|].
    now rewrite (IH Ha).
Qed.

Lemma strtok_from_run (delim : ascii) (p rest : string) :
  Spec.all_chars (fun x => negb (Ascii.eqb x delim)) p = true ->
  forall cur, strtok_from delim cur (p ++ rest) = strtok_from delim (cur ++ p) rest.
Proof.
  induction p as [|x p IH]; intros H cur.
  - cbn [append]. now rewrite append_nil_r.
  - cbn [Spec.all_chars] in H. apply andb_true_iff in H as [Hx Hp].
    cbn [append strtok_from]. apply negb_true_iff in Hx. rewrite Hx.
    rewrite (IH Hp). now rewrite append_assoc.
Qed.

Lemma no_separator_at (s : string) :
  Spec.all_chars Reference.no_separator s = true ->
  Spec.all_chars (fun x => negb (Ascii.eqb x "@")) s = true.
Proof.
  apply all_chars_weaken. intros c H. unfold Reference.no_separator in H.
  apply negb_true_iff, orb_false_iff in H as [H _]. now rewrite H.
Qed.

Lemma no_separator_dot (s : string) :
  Spec.all_chars Reference.no_separator s = true ->
  Spec.all_chars (fun x => negb (Ascii.eqb x ".")) s = true.
Proof.
  apply all_chars_weaken. intros c H. unfold Reference.no_separator in H.
  apply negb_true_iff, orb_false_iff in H as [_ H]. now rewrite H.
Qed.

Lemma jsoup_fields_three (type name index : string) :
  Spec.all_chars Reference.no_separator type = true ->
  Spec.all_chars Reference.no_separator name = true ->
  String.length type < 64 -> String.length name < 256 -> String.length index < 32 ->
  jsoup_fields (type ++ "." ++ name ++ "." ++ index) = Some (type, name, index).
Proof.
  intros Ht Hn Lt Ln Li. unfold jsoup_fields.
  change (type ++ "." ++ name ++ "." ++ index)
    with (type ++ String "." (name ++ String "." index)).
  rewrite (find_first_char type "." _ (no_separator_dot _ Ht)).
  rewrite substring_prefix_app, (strcpy_fits 64 type Lt). cbn [and_then].
  replace (type ++ String "." (name ++ String "." index))
    with ((type ++ ".") ++ name ++ String "." index) by (now rewrite append_assoc).
  replace (String.length type + 1) with (String.length (type ++ "."))
    by (rewrite length_append; reflexivity).
  rewrite substr_from_app.
  rewrite (find_first_char name "." _ (no_separator_dot _ Hn)).
  rewrite substring_prefix_app, (strcpy_fits 256 name Ln). cbn [and_then].
  replace (name ++ String "." index) with ((name ++ ".") ++ index)
    by (now rewrite append_assoc).
  replace (String.length name + 1) with (String.length (name ++ "."))
    by (rewrite length_append; reflexivity).
  rewrite substr_from_app, (strcpy_fits 32 index Li). reflexivity.
Qed.

Lemma jsoup_fields_two (type name : string) :
  Spec.all_chars Reference.no_separator type = true ->
  Spec.all_chars Reference.no_separator name = true ->
  String.length type < 64 -> String.length name < 256 ->
  jsoup_fields (type ++ "." ++ name) = Some (type, name, "").
Proof.
  intros Ht Hn Lt Ln. unfold jsoup_fields.
  change (type ++ "." ++ name) with (type ++ String "." name).
  rewrite (find_first_char type "." _ (no_separator_dot _ Ht)).
  rewrite substring_prefix_app, (strcpy_fits 64 type Lt). cbn [and_then].
  replace (type ++ String "." name) with ((type ++ ".") ++ name)
    by (now rewrite append_assoc).
  replace (String.length type + 1) with (String.length (type ++ "."))
    by (rewrite length_append; reflexivity).
  rewrite substr_from_app.
  assert (A : find name "." = None).
  { apply find_None_iff; [discriminate|]. apply no_separator_dot in Hn.
    clear - Hn. intros j O. unfold occurs_at in O. cbn [String.length] in O.
    revert j O. induction name as [|x name IH]; intros j O.
    - destruct j; discriminate.
    - cbn [Spec.all_chars] in Hn. apply andb_true_iff in Hn as [Hx Hn].
      destruct j as [|j].
      + cbn in O. injection O as ->. discriminate.
      + cbn in O. now apply (IH Hn j). }
  rewrite A, (strcpy_fits 256 name Ln). reflexivity.
Qed.

Lemma strtok_token (delim : ascii) (token rest : string) :
  token <> "" ->
  Spec.all_chars (fun x => negb (Ascii.eqb x delim)) token = true ->
  strtok_from delim "" (token ++ String delim rest) = token :: strtok_from delim "" rest.
Proof.
  intros N H. rewrite (strtok_from_run delim token _ H). cbn [append strtok_from].
  rewrite Ascii.eqb_refl. destruct token; [congruence | reflexivity].
Qed.

Lemma strtok_last (delim : ascii) (token : string) :
  token <> "" ->
  Spec.all_chars (fun x => negb (Ascii.eqb x delim)) token = true ->
  strtok_from delim "" token = [token].
Proof.
  intros N H. rewrite <- (append_nil_r token) at 1.
  rewrite (strtok_from_run delim token "" H). cbn [append strtok_from].
  destruct token; [congruence | reflexivity].
Qed.

Ltac fits := rewrite ?length_append; cbn [String.length]; lia.

(** The index of a JSOUP rule is copied as it stands.  For names and an
    index without separators, and within the sizes of the arrays, the rule
    [class.NAME.INDEX@tag.TAG@text] becomes
    [//*[@class='NAME'][INDEX]//TAG/text()]: the index [0], which selects
    the first element in a JSOUP rule, is written as the XPath position
    [0]. *)
Theorem jsoup_index_is_copied (name index tagName xpath_out : string) (max_len : Z) :
  Spec.all_chars Reference.no_separator name = true ->
  Spec.all_chars Reference.no_separator index = true ->
  Spec.all_chars Reference.no_separator tagName = true ->
  String.length name < 256 -> 0 < String.length index < 32 -> String.length tagName < 256 ->
  (0 < max_len)%Z ->
  convert_jsoup_to_xpath
    (Some ("class." ++ name ++ "." ++ index ++ "@tag." ++ tagName ++ "@text"))
    xpath_out max_len
  = Some (true,
          copy_out ("//*[@class='" ++ name ++ "'][" ++ index ++ "]//" ++ tagName ++ "/text()")
            max_len).
Proof.
  intros Hn Hi Ht Ln Li Lt M.
  unfold convert_jsoup_to_xpath. destruct (Z.leb_spec max_len 0); [lia|].
  set (t1 := "class" ++ "." ++ name ++ "." ++ index).
  set (t2 := "tag" ++ "." ++ tagName).
  assert (T : strtok_all "@" ("class." ++ name ++ "." ++ index ++ "@tag." ++ tagName ++ "@text")
              = [t1; t2; "text"]).
  { unfold strtok_all.
    replace ("class." ++ name ++ "." ++ index ++ "@tag." ++ tagName ++ "@text")
      with (t1 ++ String "@" (t2 ++ String "@" "text")).
    2:{ subst t1 t2. rewrite ?append_assoc. cbn [append]. rewrite ?append_assoc.
        cbn [append]. rewrite ?append_assoc. reflexivity. }
    rewrite strtok_token.
    - rewrite strtok_token.
      + now rewrite strtok_last.
      + discriminate.
      + subst t2. rewrite !all_chars_app, (no_separator_at _ Ht). reflexivity.
    - discriminate.
    - subst t1. rewrite !all_chars_app, (no_separator_at _ Hn), (no_separator_at _ Hi).
      reflexivity. }
  rewrite T. cbn [jsoup_loop].
  (* the class token *)
  unfold jsoup_token at 1. subst t1.
  rewrite (jsoup_fields_three "class" name index) by (auto; cbn; lia).
  cbn [and_then]. cbv iota beta. change ("class" =? "class") with true. cbv iota.
  rewrite strcat_fits by fits. cbn [and_then].
  rewrite strcat_fits by fits. cbn [and_then].
  rewrite strcat_fits by fits. cbn [and_then].
  unfold jsoup_index. destruct (Nat.ltb_spec 0 (String.length index)); [|lia].
  rewrite strcat_fits by fits. cbn [and_then].
  rewrite strcat_fits by fits. cbn [and_then].
  rewrite strcat_fits by fits. cbn [and_then].
  (* the tag token *)
  unfold jsoup_token at 1. subst t2.
  rewrite (jsoup_fields_two "tag" tagName) by (auto; cbn; lia).
  cbn [and_then]. cbv iota beta.
  change ("tag" =? "class") with false. change ("tag" =? "id") with false.
  change ("tag" =? "tag") with true. cbv iota. cbn [negb].
  rewrite strcat_fits by fits. cbn [and_then].
  rewrite strcat_fits by fits. cbn [and_then].
  unfold jsoup_index. change (0 <? String.length "")%nat with false. cbv iota.
  cbn [and_then].
  (* the text token *)
  change (jsoup_token false "text") with (fun temp => strcat 2048 temp "/text()").
  cbv beta. rewrite strcat_fits by fits. cbn [and_then].
  match goal with |- context [(2 <? String.length ?t)%nat] =>
    destruct (Nat.ltb_spec 2 (String.length t)) as [G|G]; [|revert G; fits]
  end.
  f_equal. f_equal. f_equal. rewrite !append_assoc. reflexivity.
Qed.

Lemma scan_to_end (stop : ascii -> bool) (a : string) :
  Spec.all_chars (fun x => negb (stop x)) a = true ->
  LegadoRuleParser.scan stop a = (a, "").
Proof.
  induction a as [|c a IH]; intros H; [reflexivity|].
  cbn [Spec.all_chars] in H. apply andb_true_iff in H as [Hc Ha].
  cbn [LegadoRuleParser.scan]. apply negb_true_iff in Hc. now rewrite Hc, (IH Ha).
Qed.

Lemma plain_no_name_end (s : string) :
  Spec.all_chars Spec.is_plain s = true ->
  Spec.all_chars (fun x => negb (LegadoRuleParser.is_name_end x)) s = true.
Proof.
  apply all_chars_weaken. intros c H. apply is_plain_inv in H as (_ & H & _). now rewrite H.
Qed.

(** [CssToXPath] on the three simple selectors. *)
Lemma CssToXPath_simple (name : string) :
  name <> "" -> Spec.all_chars Spec.is_plain name = true ->
  LegadoRuleParser.CssToXPath name = "//" ++ name
  /\ LegadoRuleParser.CssToXPath ("." ++ name) = "//*[contains(@class,'" ++ name ++ "')]"
  /\ LegadoRuleParser.CssToXPath ("#" ++ name) = "//*[@id='" ++ name ++ "']".
Proof.
  intros N P.
  pose proof (scan_to_end _ name (plain_no_name_end name P)) as S.
  pose proof (plain_no_blank name P) as B.
  pose proof (absent_at_sign name (plain_no_at name P)) as A.
  assert (P1 : LegadoRuleParser.parse_part name = LegadoRuleParser.mkPart name "" "" "" "").
  { unfold LegadoRuleParser.parse_part. rewrite S. cbn [LegadoRuleParser.at_char].
    f_equal. destruct name as [|c n]; [congruence|].
    replace (("*" ++ String c n =? "*")%string) with false
      by (symmetry; apply String.eqb_neq; cbn; congruence).
    apply (substr_from_app "*" (String c n)). }
  assert (P2 : LegadoRuleParser.parse_part ("." ++ name)
               = LegadoRuleParser.mkPart "*" name "" "" "").
  { unfold LegadoRuleParser.parse_part. cbn [append LegadoRuleParser.scan].
    change (LegadoRuleParser.is_name_end ".") with true. cbv iota.
    cbn [LegadoRuleParser.at_char Ascii.eqb Bool.eqb]. rewrite S.
    cbn [LegadoRuleParser.at_char]. reflexivity. }
  assert (P3 : LegadoRuleParser.parse_part ("#" ++ name)
               = LegadoRuleParser.mkPart "*" "" name "" "").
  { unfold LegadoRuleParser.parse_part. cbn [append LegadoRuleParser.scan].
    change (LegadoRuleParser.is_name_end "#") with true. cbv iota.
    cbn [LegadoRuleParser.at_char Ascii.eqb Bool.eqb]. rewrite S.
    cbn [LegadoRuleParser.at_char]. reflexivity. }
  assert (E : empty name = false) by (destruct name; [congruence | reflexivity]).
  split; [|split].
  - rewrite CssToXPath_single_part by assumption. rewrite P1.
    cbn [LegadoRuleParser.tag]. rewrite E. unfold Spec.conditions. cbn.
    rewrite ?append_nil_r. reflexivity.
  - rewrite CssToXPath_single_part.
    + rewrite P2. cbn [LegadoRuleParser.tag empty]. unfold Spec.conditions.
      cbn [LegadoRuleParser.className LegadoRuleParser.id LegadoRuleParser.attr empty].
      rewrite E. cbn. rewrite ?append_nil_r, ?append_assoc. reflexivity.
    + discriminate.
    + cbn [append Spec.all_chars]. now rewrite B.
    + apply absent_at_sign. cbn [append Spec.all_chars]. now rewrite (plain_no_at name P).
  - rewrite CssToXPath_single_part.
    + rewrite P3. cbn [LegadoRuleParser.tag empty]. unfold Spec.conditions.
      cbn [LegadoRuleParser.className LegadoRuleParser.id LegadoRuleParser.attr empty].
      rewrite E. cbn. rewrite ?append_nil_r, ?append_assoc. reflexivity.
    + discriminate.
    + cbn [append Spec.all_chars]. now rewrite B.
    + apply absent_at_sign. cbn [append Spec.all_chars]. now rewrite (plain_no_at name P).
Qed.

Lemma convert_css_rule (sel attr xpath_out : string) (max_len : Z) :
  Spec.all_chars (fun x => negb (Ascii.eqb x "@")) sel = true ->
  (0 < max_len)%Z ->
  contains_js (Some ("@css:" ++ sel ++ "@" ++ attr)) = false ->
  absent "##" ("@css:" ++ sel ++ "@" ++ attr) ->
  convert_legado_rule_to_xpath (Some ("@css:" ++ sel ++ "@" ++ attr)) xpath_out max_len
  = and_then (css_selector_xpath sel) (fun temp =>
    and_then (css_attr_xpath temp attr) (fun temp => Some (true, copy_out temp max_len))).
Proof.
  intros Hs M J R. unfold convert_legado_rule_to_xpath.
  destruct (Z.leb_spec max_len 0); [lia|].
  change (String.length ("@css:" ++ sel ++ "@" ++ attr) =? 0)%nat with false. cbv iota.
  rewrite J. apply find_None_iff in R; [|discriminate]. rewrite R.
  change (is_xpath_rule (Some ("@css:" ++ sel ++ "@" ++ attr))) with false.
  change (is_jsonpath_rule (Some ("@css:" ++ sel ++ "@" ++ attr))) with false.
  cbv iota.
  assert (C : is_css_rule (Some ("@css:" ++ sel ++ "@" ++ attr)) = true).
  { unfold is_css_rule, strncmp_eq.
    change (String.length ("@css:" ++ sel ++ "@" ++ attr) =? 0)%nat with false. cbv iota.
    now rewrite (prefix_app "@css:" (sel ++ "@" ++ attr)). }
  rewrite C. change 5 with (String.length "@css:"). rewrite substr_from_app.
  change (sel ++ "@" ++ attr) with (sel ++ String "@" attr).
  rewrite (find_first_char sel "@" attr Hs).
  replace (sel ++ String "@" attr) with ((sel ++ "@") ++ attr) by (now rewrite append_assoc).
  replace (String.length sel + 1) with (String.length (sel ++ "@"))
    by (rewrite length_append; reflexivity).
  rewrite substr_from_app. rewrite append_assoc, substring_prefix_app. reflexivity.
Qed.

(** On the selectors [#NAME], [.NAME] and [NAME], followed by one of the
    attributes [text], [href], [src] and [content], the CSS branch of the
    converter writes what [LegadoRuleParser::CssToXPath] returns for the
    same selector: the two translations of CSS agree there.  They part on
    other attributes, which the converter drops: for [@css:a@title] it
    writes [//a], where [CssToXPath] gives [//a/@title]. *)
Theorem css_converters_agree (name attr xpath_out : string) (max_len : Z) (sel : string) :
  name <> "" -> Spec.all_chars Spec.is_plain name = true -> String.length name < 2000 ->
  In attr ["text"; "href"; "src"; "content"] ->
  In sel ["#" ++ name; "." ++ name; name] ->
  (0 < max_len)%Z ->
  contains_js (Some ("@css:" ++ sel ++ "@" ++ attr)) = false ->
  absent "##" ("@css:" ++ sel ++ "@" ++ attr) ->
  convert_legado_rule_to_xpath (Some ("@css:" ++ sel ++ "@" ++ attr)) xpath_out max_len
  = Some (true, copy_out (LegadoRuleParser.CssToXPath (sel ++ "@" ++ attr)) max_len)
  /\ convert_legado_rule_to_xpath (Some "@css:a@title") xpath_out max_len
     = Some (true, copy_out "//a" max_len)
  /\ LegadoRuleParser.CssToXPath "a@title" = "//a/@title".
Proof.
  intros N P L Ha Hs M J R.
  destruct (CssToXPath_simple name N P) as (C1 & C2 & C3).
  pose proof (plain_no_at name P) as A.
  split; [|split].
  2:{ unfold convert_legado_rule_to_xpath. destruct (Z.leb_spec max_len 0); [lia|]. reflexivity. }
  2:{ reflexivity. }
  assert (As : Spec.all_chars (fun x => negb (Ascii.eqb x "@")) sel = true).
  { destruct Hs as [<-|[<-|[<-|[]]]]; cbn [append Spec.all_chars]; now rewrite ?A. }
  rewrite (convert_css_rule sel attr xpath_out max_len As M J R).
  assert (Ns : sel <> "").
  { destruct Hs as [<-|[<-|[<-|[]]]]; [discriminate | discriminate | exact N]. }
  rewrite (CssToXPath_suffix sel attr Ns (absent_at_sign sel As)).
  assert (X : css_selector_xpath sel = Some (LegadoRuleParser.CssToXPath sel)).
  { destruct Hs as [<-|[<-|[<-|[]]]].
    - rewrite C3. cbn [append css_selector_xpath Ascii.eqb Bool.eqb].
      apply strcpy_fits. cbn [append String.length]. rewrite ?length_append.
      cbn [String.length]. lia.
    - rewrite C2. cbn [append css_selector_xpath Ascii.eqb Bool.eqb].
      apply strcpy_fits. cbn [append String.length]. rewrite ?length_append.
      cbn [String.length]. lia.
    - rewrite C1. destruct name as [|c n]; [congruence|].
      cbn [Spec.all_chars] in P. apply andb_true_iff in P as [Pc _].
      apply is_plain_inv in Pc as (_ & Pc & _). unfold LegadoRuleParser.is_name_end in Pc.
      apply orb_false_iff in Pc as [Pc _]. apply orb_false_iff in Pc as [Pd Ph].
      unfold css_selector_xpath. rewrite Ph, Pd.
      apply strcpy_fits. cbn [append String.length] in *. lia. }
  rewrite X. cbn [and_then].
  assert (B : String.length (LegadoRuleParser.CssToXPath sel) < 2030).
  { destruct Hs as [<-|[<-|[<-|[]]]]; rewrite ?C1, ?C2, ?C3; rewrite ?length_append;
      cbn [append String.length]; rewrite ?length_append; cbn [String.length]; lia. }
  destruct Ha as [<-|[<-|[<-|[<-|[]]]]]; unfold css_attr_xpath;
    cbn [String.eqb Ascii.eqb Bool.eqb]; rewrite strcat_fits by (cbn [String.length]; lia);
    reflexivity.
Qed.

End ConverterFacts.

(* ===================================================================== *)
(** * Tags in reversed order *)
(* ===================================================================== *)

Section SplitRuleWrapFacts.

Lemma substr_to_end (s : string) (pos : nat) (n : N) :
  (N.of_nat (String.length s - pos) <= n)%N -> substr s pos n = substr_from s pos.
Proof.
  intros H. unfold substr, substr_from. f_equal.
  rewrite N.min_r by exact H. apply Nat2N.id.
Qed.

(** When the closing tag comes before the opening one, [SplitRule] does
    not see it: the length [jsEnd - jsStart - 4] wraps around, [substr]
    cuts it to what is left of the rule, and the script is everything after
    [<js>].  [JsRuleProcessor::ParseRule] compares the positions and treats
    such a rule as a template or a plain rule. *)
Theorem SplitRule_wraps_on_reversed_tags (rule : string) (i j : nat) :
  absent "@js:" rule -> first_at "<js>" rule i -> first_at "</js>" rule j -> j < i ->
  (N.of_nat (String.length rule) < 2 ^ 64)%N ->
  LegadoRuleParser.SplitRule rule = (substring 0 i rule, substr_from rule (i + 4))
  /\ JsRuleProcessor.ParseRule (Some rule) = JsRuleProcessor.template_or_plain rule.
Proof.
  intros A F1 F2 L B.
  pose proof (occurs_at_bound "<js>" rule i (proj1 F1) ltac:(discriminate)) as B1.
  cbn [String.length] in B1.
  apply find_None_iff in A; [|discriminate].
  apply find_Some_iff in F1; [|discriminate].
  apply find_Some_iff in F2; [|discriminate].
  split.
  - unfold LegadoRuleParser.SplitRule. rewrite A, F1, F2. f_equal.
    + apply substr_nat.
    + apply substr_to_end. unfold size_t_sub.
      destruct (N.leb_spec (N.of_nat i) (N.of_nat j)); [lia|].
      destruct (N.leb_spec 4 (N.of_nat j + 2 ^ 64 - N.of_nat i)); lia.
  - unfold JsRuleProcessor.ParseRule.
    destruct rule as [|c r]; [simpl in B1; lia|]. change (empty (String c r)) with false.
    cbv iota. rewrite A, F1, F2.
    destruct (Nat.ltb_spec i j); [lia | reflexivity].
Qed.

End SplitRuleWrapFacts.

Lemma SplitRule_wraps_on_example :
  LegadoRuleParser.SplitRule "</js>a<js>bc" = ("</js>a", "bc")
  /\ JsRuleProcessor.ParseRule (Some "</js>a<js>bc") = ("</js>a<js>bc", "", false).
Proof.
  refine (SplitRule_wraps_on_reversed_tags "</js>a<js>bc" 6 0 _ _ _ _ _).
  - apply find_None_iff; [discriminate | reflexivity].
  - apply find_Some_iff; [discriminate | reflexivity].
  - apply find_Some_iff; [discriminate | reflexivity].
  - lia.
  - reflexivity.
Defined.

(* ===================================================================== *)
(** * The statements above on concrete inputs *)
(* ===================================================================== *)

(** A script tail appends to the vector: [//li] selects two items, and
    the script [1+1] gives [2] for each. *)
Lemma ParseRule_appends_on_demo :
  let '(ret, out, p') :=
    LegadoRuleParser.ParseRule (vm := Demo.vm) (xp := Demo.xpath)
      "<ul/>" "//li@js:1+1" [] None Demo.parser in
  LegadoRuleParser.ParseRule (vm := Demo.vm) (xp := Demo.xpath)
    "<ul/>" "//li@js:1+1" ["kept"] None Demo.parser
  = (ret, (["kept"] ++ ["2"; "2"])%list, p').
Proof.
  refine (ParseRule_appends_or_replaces (vm := Demo.vm) (xp := Demo.xpath)
            "<ul/>" "//li@js:1+1" ["kept"] None Demo.parser _).
  discriminate.
Defined.

(** A parser that has seen an error keeps its flag through a script that
    succeeds. *)
Lemma error_flag_is_sticky_on_demo :
  LegadoRuleParser.HasError
    (snd (LegadoRuleParser.EvalJs (vm := Demo.vm) "1+1"
            (@LegadoRuleParser.mk Demo.vm (Some Demo.engine) "JS Error: earlier" true)))
  = true.
Proof.
  refine (proj1 (error_flag_is_sticky (vm := Demo.vm) (xp := Demo.xpath)
                   (@LegadoRuleParser.mk Demo.vm (Some Demo.engine) "JS Error: earlier" true)
                   _) "1+1").
  reflexivity.
Defined.

(** The three spellings of the JSONPath [store.book]. *)
Lemma jsonpath_markers_on_demo :
  LegadoRuleParser.base_phase (vm := Demo.vm) (xp := Demo.xpath)
    "{}" "@json:$.store.book" None Demo.parser
  = LegadoRuleParser.ParseJsonPathRule (vm := Demo.vm) "{}" "store.book" [] None Demo.parser
  /\ LegadoRuleParser.base_phase (vm := Demo.vm) (xp := Demo.xpath)
       "{}" "$.store.book" None Demo.parser
     = LegadoRuleParser.ParseJsonPathRule (vm := Demo.vm) "{}" "store.book" [] None Demo.parser
  /\ LegadoRuleParser.base_phase (vm := Demo.vm) (xp := Demo.xpath)
       "{}" "@json:store.book" None Demo.parser
     = LegadoRuleParser.ParseJsonPathRule (vm := Demo.vm) "{}" "store.book" [] None Demo.parser.
Proof.
  refine (jsonpath_markers_are_optional (vm := Demo.vm) (xp := Demo.xpath)
            "{}" "store.book" None Demo.parser _).
  reflexivity.
Defined.



(** The rule [//li] on the demonstration engines. *)
Lemma ProcessRule_xpath_on_demo :
  JsRuleProcessor.ProcessRule (vm := Demo.vm) (xp := Demo.xpath)
    "<ul/>" (Some "//li") ["old"] None Demo.processor
  = (0%Z, ["A"; "B"], Demo.processor).
Proof.
  refine (ProcessRule_without_script (vm := Demo.vm) (xp := Demo.xpath)
            "<ul/>" "//li" ["old"] None Demo.processor _).
  reflexivity.
Defined.


(** The JSONPath [$.store.book]. *)
Lemma jsonpath_store_book :
  LegadoConverter.convert_jsonpath_to_xpath (Some "$.store.book") "" 256
  = (true, "//store/book")
  /\ LegadoConverter.convert_jsonpath_to_xpath (Some "@json:$.store.book") "" 256
     = (true, "//store/book").
Proof.
  refine (jsonpath_becomes_descendant_path "store.book" "" 256 _ _).
  - reflexivity.
  - cbn [String.length]. lia.
Defined.

(** The JSOUP rule of the first list entry: the index 0 arrives in the
    XPath as it is. *)
Lemma jsoup_first_entry :
  LegadoConverter.convert_jsoup_to_xpath (Some "class.list.0@tag.a@text") "" 256
  = Some (true, "//*[@class='list'][0]//a/text()").
Proof.
  refine (jsoup_index_is_copied "list" "0" "a" "" 256 _ _ _ _ _ _ _).
  - reflexivity.
  - reflexivity.
  - reflexivity.
  - cbn [String.length]. lia.
  - cbn [String.length]. lia.
  - cbn [String.length]. lia.
  - reflexivity.
Defined.

(** The CSS rule [@css:.title@text]. *)
Lemma css_title_text :
  LegadoConverter.convert_legado_rule_to_xpath (Some "@css:.title@text") "" 256
  = Some (true, "//*[contains(@class,'title')]/text()")
  /\ LegadoConverter.convert_legado_rule_to_xpath (Some "@css:a@title") "" 256
     = Some (true, "//a")
  /\ LegadoRuleParser.CssToXPath "a@title" = "//a/@title".
Proof.
  refine (css_converters_agree "title" "text" "" 256 ".title" _ _ _ _ _ _ _ _).
  - discriminate.
  - reflexivity.
  - cbn [String.length]. lia.
  - left. reflexivity.
  - right. left. reflexivity.
  - reflexivity.
  - reflexivity.
  - apply find_None_iff; [discriminate | reflexivity].
Defined.
